(** * pint.delegates.base_formatter: rendering of unit expressions

    A shallow embedding of the unit formatter of pint
    ([src/pint/delegates/base_formatter.py]) and the properties its
    specification states about it.

    Conventions of the embedding.
    - A Python [str] is a [string]: the sequence of its UTF-8 bytes.  Substring
      search, replacement and comparison on well-formed UTF-8 agree with the
      same operations on code points; [len] is the one operation that has to
      count code points, see [py_len].
    - A Python number used as an exponent (an [int] or a [float]) is the
      rational [Q] it denotes; [float] infinities and NaN have no
      counterpart.  The comparisons of [formatter] read the value only;
      [_tothe] also reads the type, see [is_integer].
    - A function that can raise returns a [result]; the exception classes
      are the constructors of [exn], with the message the source builds.
    - A [dict] whose iteration order is observed is an insertion-ordered
      association list ([dict]); one that is only looked up is a [gmap]. *)

From Stdlib Require Import Ascii QArith Qabs Qround DecimalString.
From Stdlib Require OrderedTypeEx.
From stdpp Require Import gmap strings list sorting.

Local Open Scope Z_scope.

(** ** Exceptions and results *)

Inductive exn : Type :=
| ValueError (msg : string)
| KeyError (msg : string)
| IndexError (msg : string)
| NotModelled (what : string).

Inductive result (A : Type) : Type :=
| Ok (a : A)
| Raise (e : exn).
Arguments Ok {A} a.
Arguments Raise {A} e.

Definition bind {A B : Type} (r : result A) (k : A -> result B) : result B :=
  match r with
  | Ok a => k a
  | Raise e => Raise e
  end.

Notation "'let?' x ':=' e 'in' k" := (bind e (fun x => k))
  (at level 10, x pattern, e at level 100, k at level 200).

(** A [for] loop whose body can raise: the state is threaded from left to
    right and the first exception ends the loop. *)
Fixpoint for_each {A S : Type} (body : S -> A -> result S) (xs : list A)
  (s : S) : result S :=
  match xs with
  | [] => Ok s
  | x :: xs' => let? s' := body s x in for_each body xs' s'
  end.

(** ** Python's [str] builtins, on UTF-8 bytes *)

Definition byte_val (c : ascii) : N := N_of_ascii c.

Definition is_empty (s : string) : bool :=
  match s with EmptyString => true | String _ _ => false end.

(** [bool(s)] of a [str]. *)
Definition truthy (s : string) : bool := negb (is_empty s).

(** A byte that starts a code point: anything but a UTF-8 continuation
    byte [10xxxxxx]. *)
Definition starts_code_point (c : ascii) : bool :=
  negb ((128 <=? byte_val c)%N && (byte_val c <? 192)%N).

(** [len(s)]: the number of code points. *)
Fixpoint py_len (s : string) : nat :=
  match s with
  | EmptyString => O
  | String c t => ((if starts_code_point c then 1 else 0) + py_len t)%nat
  end.

(** [s.startswith(p)]. *)
Fixpoint startswith (p s : string) : bool :=
  match p, s with
  | EmptyString, _ => true
  | String a p', String b s' => Ascii.eqb a b && startswith p' s'
  | String _ _, EmptyString => false
  end.

(** [s.endswith(p)]. *)
Fixpoint endswith (p s : string) : bool :=
  String.eqb p s ||
  match s with
  | EmptyString => false
  | String _ t => endswith p t
  end.

(** [s.find(sub)]: the byte offset of the first occurrence, or [-1].  The
    source only compares the result with [0]. *)
Fixpoint str_find_from (i : Z) (sub s : string) : Z :=
  if startswith sub s then i
  else match s with
       | EmptyString => -1
       | String _ t => str_find_from (i + 1) sub t
       end.
Definition str_find (s sub : string) : Z := str_find_from 0 sub s.

(** [sub in s]. *)
Fixpoint contains (sub s : string) : bool :=
  startswith sub s ||
  match s with
  | EmptyString => false
  | String _ t => contains sub t
  end.

(** [s.replace(old, new)]: every occurrence, left to right, without
    overlap.  [skip] counts the bytes of a matched occurrence that are still
    to be dropped.  An empty [old] matches before every code point and at the
    end. *)
Fixpoint replace_go (old new : string) (skip : nat) (s : string) : string :=
  match s with
  | EmptyString => EmptyString
  | String c t =>
      match skip with
      | S k => replace_go old new k t
      | O =>
          if startswith old s
          then new +:+ replace_go old new (String.length old - 1) t
          else String c (replace_go old new O t)
      end
  end.

Fixpoint intersperse_code_points (new s : string) : string :=
  match s with
  | EmptyString => new
  | String c t =>
      (if starts_code_point c then new else EmptyString)
        +:+ String c (intersperse_code_points new t)
  end.

Definition str_replace (s old new : string) : string :=
  if is_empty old then
    match s with
    | EmptyString => new
    | String c t => new +:+ String c (intersperse_code_points new t)
    end
  else replace_go old new O s.

Fixpoint drop_bytes (n : nat) (s : string) : string :=
  match n, s with
  | S k, String _ t => drop_bytes k t
  | _, _ => s
  end.

(** [s.replace(old, new, 1)]: the first occurrence only. *)
Fixpoint str_replace_first (s old new : string) : string :=
  if startswith old s then new +:+ drop_bytes (String.length old) s
  else match s with
       | EmptyString => EmptyString
       | String c t => String c (str_replace_first t old new)
       end.

(** [s.rstrip(chars)] for a set [chars] of ASCII characters. *)
Fixpoint mem_ascii (c : ascii) (chars : string) : bool :=
  match chars with
  | EmptyString => false
  | String d t => Ascii.eqb c d || mem_ascii c t
  end.

Fixpoint all_in (chars s : string) : bool :=
  match s with
  | EmptyString => true
  | String c t => mem_ascii c chars && all_in chars t
  end.

Fixpoint str_rstrip (s chars : string) : string :=
  match s with
  | EmptyString => EmptyString
  | String c t => if all_in chars s then EmptyString
                  else String c (str_rstrip t chars)
  end.

(** [s.strip()]: the white space of [str.isspace], as UTF-8.  One byte:
    U+0009..U+000D, U+001C..U+0020.  Two bytes (C2 ..): U+0085, U+00A0.
    Three bytes: U+1680 (E1 9A 80), U+2000..U+200A, U+2028, U+2029, U+202F
    (E2 80 ..), U+205F (E2 81 9F), U+3000 (E3 80 80). *)
Definition is_space1 (c : ascii) : bool :=
  let n := byte_val c in
  ((9 <=? n) && (n <=? 13) || (28 <=? n) && (n <=? 32))%N.

Definition is_space2 (a b : ascii) : bool :=
  ((byte_val a =? 194) && ((byte_val b =? 133) || (byte_val b =? 160)))%N.

Definition is_space3 (a b c : ascii) : bool :=
  let x := byte_val a in
  let y := byte_val b in
  let z := byte_val c in
  ((x =? 225) && (y =? 154) && (z =? 128)
   || (x =? 226) && (y =? 128)
        && ((128 <=? z) && (z <=? 138) || (z =? 168) || (z =? 169)
            || (z =? 175))
   || (x =? 226) && (y =? 129) && (z =? 159)
   || (x =? 227) && (y =? 128) && (z =? 128))%N.

Fixpoint str_lstrip (s : string) : string :=
  match s with
  | EmptyString => EmptyString
  | String a t =>
      if is_space1 a then str_lstrip t
      else match t with
           | EmptyString => s
           | String b t' =>
               if is_space2 a b then str_lstrip t'
               else match t' with
                    | EmptyString => s
                    | String c t'' =>
                        if is_space3 a b c then str_lstrip t'' else s
                    end
           end
  end.

Fixpoint str_rstrip_space (s : string) : string :=
  match s with
  | EmptyString => EmptyString
  | String c t => if is_empty (str_lstrip s) then EmptyString
                  else String c (str_rstrip_space t)
  end.

Definition str_strip (s : string) : string := str_rstrip_space (str_lstrip s).

(** [sep.join(parts)]. *)
Definition str_join (sep : string) (parts : list string) : string :=
  String.concat sep parts.

(** ** Numbers as text *)

Definition is_digit (c : ascii) : bool :=
  ((48 <=? byte_val c) && (byte_val c <=? 57))%N.

(** [str(n)] and [f"{n:d}"] of an [int]. *)
Definition decimal (z : Z) : string := NilZero.string_of_int (Z.to_int z).

(** The value of a run of decimal digits. *)
Definition digit_value (c : ascii) : nat := N.to_nat (byte_val c - 48).
Definition nat_of_digits (s : string) : nat :=
  fold_left (fun acc c => (10 * acc + digit_value c)%nat)
            (String.list_ascii_of_string s) O.

Fixpoint all_digits (s : string) : bool :=
  match s with
  | EmptyString => true
  | String c t => is_digit c && all_digits t
  end.

(** Rounding of a non-negative rational to the nearest integer, ties to
    even: the rounding of the [f] presentation type. *)
Definition round_half_even (q : Q) : Z :=
  let a := Qnum q in
  let b := Zpos (Qden q) in
  let fl := a / b in
  let r := a mod b in
  match 2 * r ?= b with
  | Lt => fl
  | Gt => fl + 1
  | Eq => if Z.even fl then fl else fl + 1
  end.

Definition pad3 (z : Z) : string :=
  let d := decimal z in
  match String.length d with
  | 1%nat => String "0" (String "0" d)
  | 2%nat => String "0" d
  | _ => d
  end.

(** [f"{q:.3f}"]. *)
Definition format_3f (q : Q) : string :=
  let n := round_half_even (Qabs q * 1000) in
  (if Qle_bool 0 q then EmptyString else "-")
    +:+ decimal (n / 1000) +:+ "." +:+ pad3 (n mod 1000).

(** ** [str.format] with positional arguments

    A replacement field is [{}] (automatic numbering) or [{N}] with a decimal
    index (manual numbering); [{{] and [}}] are the escaped braces.  The
    arguments are strings and are inserted as they are.  Fields with a
    keyword name, an attribute or item lookup, a conversion or a format
    specification do not occur in the templates of this module; on them the
    model stops with [NotModelled]. *)

Inductive field_numbering : Type :=
| Unnumbered
| Automatic (next : nat)
| Manual.

Definition positional (args : list string) (i : nat) : result string :=
  match args !! i with
  | Some a => Ok a
  | None =>
      Raise (IndexError ("Replacement index " +:+ decimal (Z.of_nat i)
                           +:+ " out of range for positional args tuple"))
  end.

Definition get_field (args : list string) (st : field_numbering)
  (field : string) : result (string * field_numbering) :=
  if is_empty field then
    match st with
    | Manual =>
        Raise (ValueError ("cannot switch from manual field specification"
                           +:+ " to automatic field numbering"))
    | Unnumbered => let? a := positional args O in Ok (a, Automatic 1)
    | Automatic n => let? a := positional args n in Ok (a, Automatic (S n))
    end
  else if all_digits field then
    match st with
    | Automatic _ =>
        Raise (ValueError ("cannot switch from automatic field numbering"
                           +:+ " to manual field specification"))
    | _ => let? a := positional args (nat_of_digits field) in Ok (a, Manual)
    end
  else Raise (NotModelled ("replacement field {" +:+ field +:+ "}")).

(** [field] is [None] in literal text and [Some f] inside a replacement
    field, of which [f] has been read. *)
Fixpoint format_go (args : list string) (st : field_numbering)
  (field : option string) (s : string) : result string :=
  match field, s with
  | None, EmptyString => Ok EmptyString
  | None, String c t =>
      if Ascii.eqb c "{" then
        match t with
        | EmptyString =>
            Raise (ValueError "Single '{' encountered in format string")
        | String c' t' =>
            if Ascii.eqb c' "{"
            then let? r := format_go args st None t' in Ok (String "{" r)
            else format_go args st (Some EmptyString) t
        end
      else if Ascii.eqb c "}" then
        match t with
        | EmptyString =>
            Raise (ValueError "Single '}' encountered in format string")
        | String c' t' =>
            if Ascii.eqb c' "}"
            then let? r := format_go args st None t' in Ok (String "}" r)
            else Raise (ValueError "Single '}' encountered in format string")
        end
      else let? r := format_go args st None t in Ok (String c r)
  | Some f, EmptyString =>
      Raise (ValueError "expected '}' before end of string")
  | Some f, String c t =>
      if Ascii.eqb c "}" then
        let? (v, st') := get_field args st f in
        let? r := format_go args st' None t in
        Ok (v +:+ r)
      else format_go args st (Some (f +:+ String c EmptyString)) t
  end.

(** [fmt.format(a0, a1, ...)] on the argument list [args]. *)
Definition str_format (fmt : string) (args : list string) : result string :=
  format_go args Unnumbered None fmt.

(** ** [sorted] *)

(** Python's sort is stable: elements that compare equal keep their order.
    [le x y] says that [x] may stand before [y]. *)
Fixpoint insert_sorted {A : Type} (le : A -> A -> bool) (x : A) (l : list A)
  : list A :=
  match l with
  | [] => [x]
  | y :: l' => if le x y then x :: l else y :: insert_sorted le x l'
  end.

Definition sorted_by {A : Type} (le : A -> A -> bool) (l : list A) : list A :=
  fold_right (insert_sorted le) [] l.

(** The order of [(name, exponent)] tuples: by name, code point by code
    point (which on UTF-8 is byte by byte), then by exponent. *)
Definition item_le (a b : string * Q) : bool :=
  match String.compare a.1 b.1 with
  | Lt => true
  | Gt => false
  | Eq => Qle_bool a.2 b.2
  end.

(** [sorted(items)]. *)
Definition sorted (items : list (string * Q)) : list (string * Q) :=
  sorted_by item_le items.

(** [sorted(names, key=len, reverse=True)]: longest first, names of one
    length in their given order. *)
Definition sorted_longest_first (names : list string) : list string :=
  sorted_by (fun a b => (py_len b <=? py_len a)%nat) names.

(** ** Insertion-ordered dictionaries with [str] keys *)

Definition dict (V : Type) : Type := list (string * V).

Definition dict_get {V : Type} (d : dict V) (k : string) : option V :=
  snd <$> List.find (fun kv => String.eqb k kv.1) d.

Definition dict_contains {V : Type} (d : dict V) (k : string) : bool :=
  bool_decide (is_Some (dict_get d k)).

(** [d[k] = v]: an existing key keeps its place, a new key goes last. *)
Fixpoint dict_set {V : Type} (d : dict V) (k : string) (v : V) : dict V :=
  match d with
  | [] => [(k, v)]
  | (k', v') :: d' =>
      if String.eqb k k' then (k, v) :: d' else (k', v') :: dict_set d' k v
  end.

Definition dict_keys {V : Type} (d : dict V) : list string := fst <$> d.

(** ** Collaborators

    The unit registry and the Babel locale data belong to other parts of the
    library; the formatter only calls them.  [get_name] resolves a unit name
    or alias to its canonical name, [get_dimensionality] gives the dimension
    tokens of a canonical name (the keys of its dimensionality container),
    [_prefixes] the names of the registered prefixes, in the order of the
    registry's prefix table.  The lookups are total here: a registry that
    itself raises, on a name it does not know, is outside the model. *)

Record UnitRegistry : Type := {
  get_name : string -> string;
  get_dimensionality : string -> list string;
  _prefixes : list string
}.

(** An entry of [compound_unit_patterns["per"]]: a plain pattern, or a
    table that may hold a ["compound"] pattern. *)
Inductive per_pattern : Type :=
| PerStr (pattern : string)
| PerTable (compound : option string).

(** A parsed locale: [unit_patterns key length plural] is
    [_data["unit_patterns"].get(key, {}).get(length, {}).get(plural)] and
    [compound_per length] is
    [_data["compound_unit_patterns"].get("per", {})] looked up at [length]. *)
Record Locale : Type := {
  unit_patterns : string -> string -> string -> option string;
  compound_per : string -> option per_pattern
}.

(** [Formatter.__init__]. *)
Record Formatter : Type := {
  locale : option Locale;
  mpl_formatter : option string;
  dim_order : list string
}.

Definition default_dim_order : list string :=
  ["[substance]"; "[mass]"; "[current]"; "[luminosity]"; "[length]"; "[]";
   "[time]"; "[temperature]"].

Definition Formatter_init : Formatter :=
  {| locale := None; mpl_formatter := Some "{:P}";
     dim_order := default_dim_order |}.

(** The arguments of [Formatter.formatter] after [items]; [opt_locale] is
    the argument [locale], already parsed. *)
Record formatter_options : Type := {
  as_ratio : bool;
  single_denominator : bool;
  product_fmt : string;
  division_fmt : string;
  power_fmt : string;
  parentheses_fmt : string;
  exp_call : Q -> string;
  opt_locale : option Locale;
  babel_length : string;
  babel_plural_form : string;
  sort : bool;
  sort_dims : bool;
  registry : option UnitRegistry
}.

(** The positional arguments a registered formatter is called with. *)
Inductive positional_arg : Type :=
| SelfArg (self : Formatter)
| UnitArg (unit : list (string * Q)).

Inductive warning : Type :=
| DeprecationWarning (msg : string).

Section Formatting.

(** Registered formatters are callables; [call f args registry options] is
    [f(args..., registry=registry, **options)]. *)
Variable F : Type.
Variable kwargs : Type.
Variable call : F -> list positional_arg -> option UnitRegistry -> kwargs ->
                result string.

(** [repr] of a [str]. *)
Variable repr : string -> string.

(** [f"{num:n}"], which is also ["{:n}".format(num)]: it depends on the
    locale of the process. *)
Variable format_n : Q -> string.

(** The tables of [pint.babel_names]. *)
Variable _babel_units : string -> option string.
Variable _babel_lengths : list string.

Definition _PRETTY_EXPONENTS : list string :=
  ["⁰"; "¹"; "²"; "³"; "⁴"; "⁵"; "⁶"; "⁷"; "⁸"; "⁹"].

Definition _pretty_fmt_exponent (num : Q) : string :=
  let ret := str_replace (str_replace (format_n num) "-" "⁻") "." "⋅" in
  fold_left
    (fun ret n =>
       str_replace ret (decimal (Z.of_nat n))
                   (nth n _PRETTY_EXPONENTS EmptyString))
    (seq 0 10) ret.

(** *** The registry of formats, [_FORMATTERS]

    The registry is process-wide state: every operation takes it and, when
    it writes, returns it. *)

(** [register_unit_format(name)(func)]. *)
Definition register_unit_format (name : string) (func : F)
  (_FORMATTERS : dict F) : result unit * dict F :=
  if dict_contains _FORMATTERS name
  then (Raise (ValueError ("format " +:+ repr name +:+ " already exists")),
        _FORMATTERS)
  else (Ok tt, dict_set _FORMATTERS name func).

(** The module-level [format_unit(unit, spec, **options)]. *)
Definition format_unit (_FORMATTERS : dict F) (unit : list (string * Q))
  (spec : string) (options : kwargs) : result string :=
  match unit with
  | [] => if endswith "%" spec then Ok EmptyString else Ok "dimensionless"
  | _ :: _ =>
      let spec := if is_empty spec then "D" else spec in
      match dict_get _FORMATTERS spec with
      | None => Raise (ValueError ("Unknown conversion specified: " +:+ spec))
      | Some fmt => call fmt [UnitArg unit] None options
      end
  end.

(** *** Splitting a format specification *)

(** [flag_re.findall(spec)] for the alternation of the [flags]: at each
    position the first alternative that matches is the match, and the search
    goes on behind it.  An empty name matches everywhere: its matches are
    empty and vanish in the join, but the alternatives after it are never
    tried.  The names are matched as literal text, which is what the pattern
    does for the names that are [regex_literal]; a name with a character that
    is special in a regular expression is outside this model. *)
Definition first_flag (flags : list string) (s : string) : option string :=
  List.find (fun f => startswith f s) flags.

Fixpoint findall_go (flags : list string) (skip : nat) (s : string)
  : list string :=
  match s with
  | EmptyString => []
  | String _ t =>
      match skip with
      | S k => findall_go flags k t
      | O =>
          match first_flag flags s with
          | Some f => f :: findall_go flags (String.length f - 1) t
          | None => findall_go flags O t
          end
      end
  end.

Definition extract_custom_flags (_FORMATTERS : dict F) (spec : string)
  : string :=
  if is_empty spec then EmptyString
  else
    let known_flags := sorted_longest_first (dict_keys _FORMATTERS) in
    let custom_flags := findall_go (known_flags ++ ["~"]) O spec in
    str_join EmptyString custom_flags.

Definition remove_custom_flags (_FORMATTERS : dict F) (spec : string)
  : string :=
  fold_left
    (fun spec flag =>
       if truthy flag then str_replace spec flag EmptyString else spec)
    (sorted_longest_first (dict_keys _FORMATTERS) ++ ["~"]) spec.

Definition no_unit_formatter_warning : warning :=
  DeprecationWarning
    ("The given format spec does not contain a unit formatter."
     +:+ " Falling back to the builtin defaults, but in the future"
     +:+ " the unit formatter specified in the `default_format`"
     +:+ " attribute will be used instead.").

Definition no_magnitude_formatter_warning : warning :=
  DeprecationWarning
    ("The given format spec does not contain a magnitude formatter."
     +:+ " Falling back to the builtin defaults, but in the future"
     +:+ " the magnitude formatter specified in the `default_format`"
     +:+ " attribute will be used instead.").

(** [Formatter.split_format]; [separate_format_defaults] is [True],
    [False] or [None].  The result is the pair of sub-specifications and the
    warnings issued. *)
Definition split_format (_FORMATTERS : dict F) (spec default : string)
  (separate_format_defaults : option bool)
  : (string * string) * list warning :=
  let mspec := remove_custom_flags _FORMATTERS spec in
  let uspec := extract_custom_flags _FORMATTERS spec in
  let default_mspec := remove_custom_flags _FORMATTERS default in
  let default_uspec := extract_custom_flags _FORMATTERS default in
  match separate_format_defaults with
  | Some true =>
      ((if truthy mspec then mspec else default_mspec,
        if truthy uspec then uspec else default_uspec), [])
  | flag =>
      if truthy spec && bool_decide (flag = None) then
        ((mspec, uspec),
         (if negb (truthy uspec) && truthy default_uspec
          then [no_unit_formatter_warning] else [])
         ++ (if negb (truthy mspec) && truthy default_mspec
             then [no_magnitude_formatter_warning] else []))
      else if negb (truthy spec) then ((default_mspec, default_uspec), [])
      else ((mspec, uspec), [])
  end.

(** *** [Formatter._join] *)

Fixpoint skip_digits (s : string) : string :=
  match s with
  | String c t => if is_digit c then skip_digits t else s
  | EmptyString => s
  end.

(** [re.compile(r"{\d*}").search(fmt)]: some [{] is followed by decimal
    digits (ASCII ones in this model) and a [}]. *)
Fixpoint _JOIN_REG_EXP_search (fmt : string) : bool :=
  match fmt with
  | EmptyString => false
  | String c t =>
      Ascii.eqb c "{" && startswith "}" (skip_digits t)
      || _JOIN_REG_EXP_search t
  end.

Definition _join (fmt : string) (iterable : list string) : result string :=
  match iterable with
  | [] => Ok EmptyString
  | first :: miter =>
      if negb (_JOIN_REG_EXP_search fmt) then Ok (str_join fmt iterable)
      else for_each (fun first val => str_format fmt [first; val]) miter first
  end.

(** *** [Formatter.dim_sort] *)

Definition no_recognized_dimensions (unit_name cname : string) : exn :=
  KeyError ("Unit " +:+ unit_name +:+ " (aka " +:+ cname
              +:+ ") has no recognized dimensions").

(** The dimension tokens a unit is matched against: those of its canonical
    name, or the token of the dimensionless bucket when there are none. *)
Definition resolved_dims (reg : UnitRegistry) (cname : string) : list string :=
  let cname_dims := get_dimensionality reg cname in
  if (length cname_dims =? 0)%nat then ["[]"] else cname_dims.

(** The first token of the configured order that the unit has. *)
Definition first_dim (self : Formatter) (cname_dims : list string)
  : option string :=
  List.find (fun dim => bool_decide (dim ∈ cname_dims)) (dim_order self).

Definition dim_sort_body (self : Formatter) (reg : UnitRegistry)
  (ret_dict : gmap string (list (string * Q))) (item : string * Q)
  : result (gmap string (list (string * Q))) :=
  let (unit_name, unit_exponent) := item in
  let cname := get_name reg unit_name in
  if negb (truthy cname) then Ok ret_dict
  else
    match first_dim self (resolved_dims reg cname) with
    | Some dim =>
        Ok (<[dim := default [] (ret_dict !! dim)
                       ++ [(unit_name, unit_exponent)]]> ret_dict)
    | None => Raise (no_recognized_dimensions unit_name cname)
    end.

(** The loop of [dim_sort]: the buckets [ret_dict] it fills. *)
Definition dim_buckets (self : Formatter) (reg : UnitRegistry)
  (items : list (string * Q)) : result (gmap string (list (string * Q))) :=
  for_each (dim_sort_body self reg) items ∅.

Definition dim_sort (self : Formatter) (items : list (string * Q))
  (registry : option UnitRegistry) : result (list (string * Q)) :=
  match registry with
  | None => Ok items
  | Some reg =>
      if (length items <=? 1)%nat then Ok items
      else
        let? ret_dict := dim_buckets self reg items in
        Ok (concat (omap (fun dim => ret_dict !! dim) (dim_order self)))
  end.

(** *** [Formatter.formatter] *)

(** What the loop over the items reads and writes: the two lists of terms
    and the three arguments that a localised unit replaces for the rest of
    the call. *)
Record loop_state : Type := {
  cur_division_fmt : string;
  cur_power_fmt : string;
  cur_exp_call : Q -> string;
  pos_terms : list string;
  neg_terms : list string
}.

(** The localised name of a unit: the pattern of the first length that has
    one for the plural form, without its placeholder. *)
Definition babel_key (loc : Locale) (babel_length plural _key key : string)
  : string :=
  let other_lengths :=
    if bool_decide (babel_length ∉ _babel_lengths)
    then List.filter (fun l => negb (String.eqb babel_length l))
                     (rev _babel_lengths)
    else [] in
  match omap (fun l => unit_patterns loc _key l plural)
             (babel_length :: other_lengths) with
  | pat :: _ => str_strip (str_replace pat "{0}" EmptyString)
  | [] => key
  end.

Definition babel_division_fmt (loc : Locale)
  (babel_length division_fmt : string) : string :=
  match compound_per loc babel_length with
  | None => division_fmt
  | Some (PerStr tmp) => tmp
  | Some (PerTable compound) => default division_fmt compound
  end.

(** [fun]: with [as_ratio] it is a closure over the variable [exp_call] and
    follows its reassignment; without it is the [exp_call] of the call. *)
Definition fun_ (o : formatter_options) (st : loop_state) (x : Q) : string :=
  if as_ratio o then cur_exp_call st (Qabs x) else exp_call o x.

(** The localisation step of the loop body: the key to print and the state
    with the replaced templates. *)
Definition localise (o : formatter_options) (st : loop_state)
  (key : string) (value : Q) : string * loop_state :=
  match opt_locale o, _babel_units key with
  | Some loc, Some _key =>
      if truthy (babel_length o) && truthy (babel_plural_form o) then
        let plural :=
          if Qle_bool (Qabs value) 0 then "one" else babel_plural_form o in
        (babel_key loc (babel_length o) plural _key key,
         {| cur_division_fmt :=
              babel_division_fmt loc (babel_length o) (cur_division_fmt st);
            cur_power_fmt := "{}{}";
            cur_exp_call := _pretty_fmt_exponent;
            pos_terms := pos_terms st;
            neg_terms := neg_terms st |})
      else (key, st)
  | _, _ => (key, st)
  end.

Definition append_pos (st : loop_state) (term : string) : loop_state :=
  {| cur_division_fmt := cur_division_fmt st;
     cur_power_fmt := cur_power_fmt st;
     cur_exp_call := cur_exp_call st;
     pos_terms := pos_terms st ++ [term];
     neg_terms := neg_terms st |}.

Definition append_neg (st : loop_state) (term : string) : loop_state :=
  {| cur_division_fmt := cur_division_fmt st;
     cur_power_fmt := cur_power_fmt st;
     cur_exp_call := cur_exp_call st;
     pos_terms := pos_terms st;
     neg_terms := neg_terms st ++ [term] |}.

(** The four-way branch on the exponent. *)
Definition classify (o : formatter_options) (st : loop_state)
  (key : string) (value : Q) : result loop_state :=
  if Qeq_bool value 1 then Ok (append_pos st key)
  else if negb (Qle_bool value 0) then
    let? term := str_format (cur_power_fmt st) [key; fun_ o st value] in
    Ok (append_pos st term)
  else if Qeq_bool value (-1) && as_ratio o then Ok (append_neg st key)
  else
    let? term := str_format (cur_power_fmt st) [key; fun_ o st value] in
    Ok (append_neg st term).

Definition formatter_body (o : formatter_options) (st : loop_state)
  (item : string * Q) : result loop_state :=
  let (key, value) := item in
  let (key, st) := localise o st key value in
  classify o st key value.

Definition initial_state (o : formatter_options) : loop_state :=
  {| cur_division_fmt := division_fmt o;
     cur_power_fmt := power_fmt o;
     cur_exp_call := exp_call o;
     pos_terms := [];
     neg_terms := [] |}.

(** The sorting steps and the loop: the items in the order they are
    printed, and the state the loop ends in. *)
Definition ordered_items (self : Formatter) (items : list (string * Q))
  (o : formatter_options) : result (list (string * Q)) :=
  let items := if sort o then sorted items else items in
  if sort_dims o then dim_sort self items (registry o) else Ok items.

Definition collect_terms (self : Formatter) (items : list (string * Q))
  (o : formatter_options) : result loop_state :=
  let? items := ordered_items self items o in
  for_each (formatter_body o) items (initial_state o).

Definition formatter (self : Formatter) (items : list (string * Q))
  (o : formatter_options) : result string :=
  match items with
  | [] => Ok EmptyString
  | _ :: _ =>
      let? st := collect_terms self items o in
      if negb (as_ratio o)
      then _join (product_fmt o) (pos_terms st ++ neg_terms st)
      else
        let? pos_ret := _join (product_fmt o) (pos_terms st) in
        let pos_ret := if truthy pos_ret then pos_ret else "1" in
        match neg_terms st with
        | [] => Ok pos_ret
        | _ :: _ =>
            let? neg_ret :=
              if single_denominator o then
                let? neg_ret := _join (product_fmt o) (neg_terms st) in
                if (1 <? length (neg_terms st))%nat
                then str_format (parentheses_fmt o) [neg_ret]
                else Ok neg_ret
              else _join (cur_division_fmt st) (neg_terms st) in
            _join (cur_division_fmt st) [pos_ret; neg_ret]
        end
  end.

(** The defaults of the keyword arguments of [formatter]. *)
Definition default_options : formatter_options :=
  {| as_ratio := true;
     single_denominator := false;
     product_fmt := " * ";
     division_fmt := " / ";
     power_fmt := "{} ** {}";
     parentheses_fmt := "({0})";
     exp_call := format_n;
     opt_locale := None;
     babel_length := "long";
     babel_plural_form := "one";
     sort := true;
     sort_dims := true;
     registry := None |}.

(** *** [Formatter.format_unit] *)

Definition Formatter_format_unit (self : Formatter) (_FORMATTERS : dict F)
  (unit : list (string * Q)) (spec : string) (registry : option UnitRegistry)
  (options : kwargs) : result string :=
  match unit with
  | [] => if endswith "%" spec then Ok EmptyString else Ok "dimensionless"
  | _ :: _ =>
      let spec := if is_empty spec then "D" else spec in
      match dict_get _FORMATTERS spec with
      | None => Raise (ValueError ("Unknown conversion specified: " +:+ spec))
      | Some fmt => call fmt [SelfArg self; UnitArg unit] registry options
      end
  end.

(** *** [Formatter.siunitx_format_unit] *)

(** [isinstance(power, int)], or [power.is_integer()] of a [float].  The
    exponents of [siunitx_format_unit] are taken to be of these two types,
    for which the test is that the value is a whole number; an exponent of
    another numeric type takes the other branch of the source whatever its
    value, and is outside this model. *)
Definition is_integer (power : Q) : bool :=
  Qnum power mod Zpos (Qden power) =? 0.

Definition _tothe (power : Q) : string :=
  if is_integer power then
    if Qeq_bool power 1 then EmptyString
    else if Qeq_bool power 2 then "\squared"
    else if Qeq_bool power 3 then "\cubed"
    else "\tothe{" +:+ decimal (Qfloor power) +:+ "}"
  else str_rstrip ("\tothe{" +:+ format_3f power +:+ "}") "0".

(** The loop over the prefixes: every prefix the (remaining) unit name
    starts with is cut off, and the last one cut is remembered. *)
Definition strip_prefixes (prefixes : list string) (unit : string)
  : option string * string :=
  fold_left
    (fun (acc : option string * string) p =>
       if (0 <? py_len p)%nat && (str_find acc.2 p =? 0)
       then (Some p, str_replace_first acc.2 p EmptyString)
       else acc)
    prefixes (None, unit).

(** The strings one unit appends to its list. *)
Definition siunitx_terms (reg : UnitRegistry) (unit : string) (power : Q)
  : list string :=
  let (prefix, unit) := strip_prefixes (_prefixes reg) unit in
  (if negb (Qle_bool 0 power) then ["\per"] else [])
    ++ match prefix with Some p => ["\" +:+ p] | None => [] end
    ++ ["\" +:+ unit]
    ++ [_tothe (Qabs power)].

Definition siunitx_body (reg : UnitRegistry)
  (st : list string * list string) (item : string * Q)
  : list string * list string :=
  let (unit, power) := item in
  if Qle_bool 0 power
  then (st.1 ++ siunitx_terms reg unit power, st.2)
  else (st.1, st.2 ++ siunitx_terms reg unit power).

Definition siunitx_format_unit (units : list (string * Q))
  (reg : UnitRegistry) : string :=
  let lists := fold_left (siunitx_body reg) (sorted units) ([], []) in
  str_join EmptyString lists.1 +:+ str_join EmptyString lists.2.


(** *** Notions used by the statements *)

(** A unit that [dim_sort] passes over: the registry gives it no canonical
    name. *)
Definition unresolved (reg : UnitRegistry) (unit_name : string) : Prop :=
  get_name reg unit_name = EmptyString.

(** A unit that [dim_sort] resolves and whose dimension tokens include none
    of the configured order. *)
Definition unrecognised (self : Formatter) (reg : UnitRegistry)
  (unit_name : string) : Prop :=
  get_name reg unit_name <> EmptyString
  /\ Forall (fun dim => dim ∉ resolved_dims reg (get_name reg unit_name))
            (dim_order self).

(** A unit that [dim_sort] passes over or puts in a bucket. *)
Definition sortable (self : Formatter) (reg : UnitRegistry)
  (unit_name : string) : Prop :=
  unresolved reg unit_name
  \/ Exists (fun dim => dim ∈ resolved_dims reg (get_name reg unit_name))
            (dim_order self).

(** The classification of a pair as the specification words it: a bare
    unit for exponent 1, a power among the positive terms for an exponent
    above 1, a bare unit among the negative terms for exponent -1 in ratio
    mode, and a power among the negative terms otherwise. *)
Definition classify_as_specified (o : formatter_options) (st : loop_state)
  (key : string) (value : Q) : result loop_state :=
  if Qeq_bool value 1 then Ok (append_pos st key)
  else if negb (Qle_bool value 1) then
    let? term := str_format (power_fmt o) [key; exp_call o value] in
    Ok (append_pos st term)
  else if Qeq_bool value (-1) && as_ratio o then Ok (append_neg st key)
  else
    let? term :=
      str_format (power_fmt o)
        [key; exp_call o (if as_ratio o then Qabs value else value)] in
    Ok (append_neg st term).

Definition with_division_fmt (o : formatter_options) (fmt : string)
  : formatter_options :=
  {| as_ratio := as_ratio o;
     single_denominator := single_denominator o;
     product_fmt := product_fmt o;
     division_fmt := fmt;
     power_fmt := power_fmt o;
     parentheses_fmt := parentheses_fmt o;
     exp_call := exp_call o;
     opt_locale := opt_locale o;
     babel_length := babel_length o;
     babel_plural_form := babel_plural_form o;
     sort := sort o;
     sort_dims := sort_dims o;
     registry := registry o |}.

Definition with_sort (o : formatter_options) (b : bool) : formatter_options :=
  {| as_ratio := as_ratio o;
     single_denominator := single_denominator o;
     product_fmt := product_fmt o;
     division_fmt := division_fmt o;
     power_fmt := power_fmt o;
     parentheses_fmt := parentheses_fmt o;
     exp_call := exp_call o;
     opt_locale := opt_locale o;
     babel_length := babel_length o;
     babel_plural_form := babel_plural_form o;
     sort := b;
     sort_dims := sort_dims o;
     registry := registry o |}.

(** Two loop states with the same terms, power template and renderer: they
    may differ in the division template. *)
Definition same_terms (st st' : loop_state) : Prop :=
  cur_power_fmt st = cur_power_fmt st'
  /\ cur_exp_call st = cur_exp_call st'
  /\ pos_terms st = pos_terms st'
  /\ neg_terms st = neg_terms st'.

Definition same_outcome (r r' : result loop_state) : Prop :=
  match r, r' with
  | Ok st, Ok st' => same_terms st st'
  | Raise e, Raise e' => e = e'
  | _, _ => False
  end.

(** The names under which this module registers its formats, in the
    order of the class definitions: [PrettyFormatter], [LatexFormatter]
    (twice), [HtmlFormatter], [DefaultFormatter], [CompactFormatter]. *)
Definition builtin_format_names : list string :=
  ["P"; "L"; "Lx"; "H"; "D"; "C"].

(** The alternatives of the flag pattern for these names: longest first,
    then the tilde. *)
Definition builtin_alternatives : list string :=
  ["Lx"; "P"; "L"; "H"; "D"; "C"; "~"].

(** The bytes of a string, for counting them as a multiset. *)
Definition bytes (s : string) : list ascii := String.list_ascii_of_string s.

Fixpoint filter_bytes (keep : ascii -> bool) (s : string) : string :=
  match s with
  | EmptyString => EmptyString
  | String c t =>
      if keep c then String c (filter_bytes keep t) else filter_bytes keep t
  end.

(** The one-character flags of the built-in formats, and the tilde. *)
Definition is_flag_char (c : ascii) : bool := mem_ascii c "PLHDC~".

(** The strings that the item of a unit container appends in
    [siunitx_format_unit], and the test that sends them to the first list. *)
Definition siunitx_item_terms (reg : UnitRegistry) (item : string * Q)
  : list string :=
  siunitx_terms reg item.1 item.2.

Definition nonnegative_power (item : string * Q) : bool := Qle_bool 0 item.2.

(** *** Data of the examples *)

(** The three items of the example of the specification. *)
Definition meter_per_second_gram : list (string * Q) :=
  [("meter", 1%Q); ("second", (-1)%Q); ("gram", (-1)%Q)].

(** The default templates with a single denominator; [render] is the
    exponent renderer. *)
Definition single_denominator_options (render : Q -> string)
  : formatter_options :=
  {| as_ratio := true;
     single_denominator := true;
     product_fmt := " * ";
     division_fmt := " / ";
     power_fmt := "{} ** {}";
     parentheses_fmt := "({})";
     exp_call := render;
     opt_locale := None;
     babel_length := "long";
     babel_plural_form := "one";
     sort := true;
     sort_dims := true;
     registry := None |}.

(** Negative powers instead of a ratio, and a division template that is
    also the product template. *)
Definition product_options (render : Q -> string) : formatter_options :=
  {| as_ratio := false;
     single_denominator := false;
     product_fmt := " * ";
     division_fmt := " * ";
     power_fmt := "{} ** {}";
     parentheses_fmt := "({0})";
     exp_call := render;
     opt_locale := None;
     babel_length := "long";
     babel_plural_form := "one";
     sort := true;
     sort_dims := true;
     registry := None |}.

(** An exponent renderer for integral exponents: their decimal digits, as
    ["{:n}".format] prints an [int] in the C locale. *)
Definition render_integral (x : Q) : string := decimal (Qfloor x).

(** A renderer that prints one half. *)
Definition render_half (x : Q) : string := "0.5".

(** No unit has a Babel name. *)
Definition no_babel_units (key : string) : option string := None.

(** A registry of three units and two prefixes; [count] has no canonical
    name and [weird] a dimension outside the default order. *)
Definition example_registry : UnitRegistry :=
  {| get_name := fun name =>
       if String.eqb name "count" then EmptyString else name;
     get_dimensionality := fun cname =>
       if String.eqb cname "meter" then ["[length]"]
       else if String.eqb cname "second" then ["[time]"]
       else if String.eqb cname "weird" then ["[charm]"]
       else [];
     _prefixes := ["kilo"; "milli"] |}.

(** The registry of formats after the module is loaded; the callables are
    stood for by their names. *)
Definition builtin_registry : dict string :=
  [("P", "format_pretty"); ("L", "formatter"); ("Lx", "format_latex_siunitx");
   ("H", "format_html"); ("D", "format_default"); ("C", "format_compact")].

(** [repr] of a [str] of printable characters without quote or backslash. *)
Definition repr_plain (s : string) : string := "'" +:+ s +:+ "'".

(** *** Notions for the further properties *)

(** A text without braces: [str.format] copies it as it is. *)
Definition brace_free (s : string) : bool :=
  negb (mem_ascii "{" s) && negb (mem_ascii "}" s).

(** A template of two automatic fields around brace-free texts, such as
    ["{} ** {}"], ["{}<sup>{}</sup>"] or ["\frac[{}][{}]"]. *)
Definition two_fields (pre mid post : string) : string :=
  pre +:+ "{}" +:+ mid +:+ "{}" +:+ post.

Definition two_field_template (t : string) : Prop :=
  exists pre mid post,
    brace_free pre = true /\ brace_free mid = true /\ brace_free post = true
    /\ t = two_fields pre mid post.

(** A template of one field, automatic or of index 0, such as ["({})"],
    ["({0})"] or ["\left({}\right)"]. *)
Definition one_field_template (t : string) : Prop :=
  exists pre post,
    brace_free pre = true /\ brace_free post = true
    /\ (t = pre +:+ "{}" +:+ post \/ t = pre +:+ "{0}" +:+ post).

(** A template [_join] can use: a brace-free separator or a template of two
    fields. *)
Definition joiner (t : string) : Prop :=
  brace_free t = true \/ two_field_template t.

(** The bucket [dim_sort] puts an item in: the first token of the
    configured order among the dimension tokens of its unit, if the unit has
    a canonical name. *)
Definition bucket_of (self : Formatter) (reg : UnitRegistry)
  (item : string * Q) : option string :=
  if truthy (get_name reg item.1)
  then first_dim self (resolved_dims reg (get_name reg item.1))
  else None.

Definition in_bucket (self : Formatter) (reg : UnitRegistry) (dim : string)
  (item : string * Q) : bool :=
  bool_decide (bucket_of self reg item = Some dim).

(** The items of one bucket after the other, in the configured order, each
    bucket in the order of the items. *)
Definition by_buckets (self : Formatter) (reg : UnitRegistry)
  (items : list (string * Q)) : list (string * Q) :=
  flat_map (fun dim => List.filter (in_bucket self reg dim) items)
           (dim_order self).

Definition resolved (reg : UnitRegistry) (item : string * Q) : bool :=
  truthy (get_name reg item.1).

Definition with_single_denominator (o : formatter_options) (b : bool)
  : formatter_options :=
  {| as_ratio := as_ratio o;
     single_denominator := b;
     product_fmt := product_fmt o;
     division_fmt := division_fmt o;
     power_fmt := power_fmt o;
     parentheses_fmt := parentheses_fmt o;
     exp_call := exp_call o;
     opt_locale := opt_locale o;
     babel_length := babel_length o;
     babel_plural_form := babel_plural_form o;
     sort := sort o;
     sort_dims := sort_dims o;
     registry := registry o |}.

(** A unit that the loop of [formatter] localises: a locale, a length and a
    plural form are given and the unit has a Babel name. *)
Definition localisable (o : formatter_options) (key : string) : Prop :=
  is_Some (opt_locale o)
  /\ babel_length o <> EmptyString
  /\ babel_plural_form o <> EmptyString
  /\ is_Some (_babel_units key).

(** The state of the loop after a localised unit: the power template and
    the exponent renderer of the call are replaced. *)
Definition localised (st : loop_state) : Prop :=
  cur_power_fmt st = "{}{}" /\ cur_exp_call st = _pretty_fmt_exponent.

(** A string none of whose bytes is a flag character. *)
Definition flag_free (s : string) : Prop :=
  Forall (fun c => is_flag_char c = false) (bytes s).

(** A string none of whose bytes is in [chars]. *)
Definition avoids (chars s : string) : bool :=
  forallb (fun c => negb (mem_ascii c chars)) (bytes s).



Definition with_parentheses_fmt (o : formatter_options) (fmt : string)
  : formatter_options :=
  {| as_ratio := as_ratio o;
     single_denominator := single_denominator o;
     product_fmt := product_fmt o;
     division_fmt := division_fmt o;
     power_fmt := power_fmt o;
     parentheses_fmt := fmt;
     exp_call := exp_call o;
     opt_locale := opt_locale o;
     babel_length := babel_length o;
     babel_plural_form := babel_plural_form o;
     sort := sort o;
     sort_dims := sort_dims o;
     registry := registry o |}.

(** The denominator of a ratio, [neg_ret]: with [single_denominator] the
    negative terms joined by the product template, in parentheses when they
    are several; without, the negative terms joined by the division
    template. *)
Definition denominator (o : formatter_options) (division : string)
  (terms : list string) : result string :=
  if single_denominator o then
    let? neg_ret := _join (product_fmt o) terms in
    if (1 <? length terms)%nat
    then str_format (parentheses_fmt o) [neg_ret]
    else Ok neg_ret
  else _join division terms.

(** *** [Formatter._parse_spec] *)

(** [ch.isalpha()] of a one-character [str]. *)
Variable isalpha : string -> bool.

(** The characters of a [str]: a byte that starts a code point opens a new
    character, a continuation byte belongs to the character before it. *)
Fixpoint code_points (s : string) : list string :=
  match s with
  | EmptyString => []
  | String c t =>
      let chars := code_points t in
      match t, chars with
      | String d _, ch :: chars' =>
          if starts_code_point d
          then String c EmptyString :: chars
          else String c ch :: chars'
      | _, _ => String c EmptyString :: chars
      end
  end.

(** The characters of [self._BASIC_TYPES]. *)
Definition _BASIC_TYPES : string := "bcdeEfFgGnosxX%uS".

Definition in_BASIC_TYPES (ch : string) : bool :=
  match ch with
  | String c EmptyString => mem_ascii c _BASIC_TYPES
  | _ => false
  end.

(** [ch in list(_FORMATTERS.keys()) + ["~"]]. *)
Definition is_format_key (_FORMATTERS : dict F) (ch : string) : bool :=
  existsb (String.eqb ch) (dict_keys _FORMATTERS ++ ["~"]).

(** The loop over the characters, last one first; [found] is the variable
    [result] of the source. *)
Fixpoint _parse_spec_loop (_FORMATTERS : dict F) (chars : list string)
  (found : string) : result string :=
  match chars with
  | [] => Ok found
  | ch :: chars' =>
      if String.eqb ch "~" || in_BASIC_TYPES ch
      then _parse_spec_loop _FORMATTERS chars' found
      else if is_format_key _FORMATTERS ch then
        if truthy found
        then Raise (ValueError "expected ':' after format specifier")
        else _parse_spec_loop _FORMATTERS chars' ch
      else if isalpha ch
      then Raise (ValueError ("Unknown conversion specified " +:+ ch))
      else Ok found
  end.

Definition _parse_spec (_FORMATTERS : dict F) (spec : string)
  : result string :=
  _parse_spec_loop _FORMATTERS (rev (code_points spec)) EmptyString.

(** *** [LatexFormatter] *)

(** [re.sub] of a class of ASCII characters: each character of the class is
    replaced by what [repl] makes of it. *)
Fixpoint sub_class (class : string) (repl : ascii -> string) (s : string)
  : string :=
  match s with
  | EmptyString => EmptyString
  | String c t =>
      (if mem_ascii c class then repl c else String c EmptyString)
        +:+ sub_class class repl t
  end.

(** [LatexFormatter.latex_escape]: the four substitutions, one after the
    other. *)
Definition latex_escape (s : string) : string :=
  let s := sub_class "\" (fun _ => "\textbackslash ") s in
  let s := sub_class "~" (fun _ => "\textasciitilde ") s in
  let s := sub_class "^" (fun _ => "\textasciicircum ") s in
  sub_class "&%$#_{}" (fun c => String "\" (String c EmptyString)) s.

(** The keyword arguments that [LatexFormatter.formatter] passes on and
    does not set itself, as far as they are modelled: those of the
    localisation ([exp_call], which could be given too, keeps its default).
    A field that is [None] is a keyword that is not given. *)
Record babel_kwargs : Type := {
  kw_locale : option Locale;
  kw_babel_length : option string;
  kw_babel_plural_form : option string
}.

Definition latex_options (registry : option UnitRegistry)
  (options : babel_kwargs) : formatter_options :=
  {| as_ratio := true;
     single_denominator := true;
     product_fmt := " \cdot ";
     division_fmt := "\frac[{}][{}]";
     power_fmt := "{}^[{}]";
     parentheses_fmt := "\left({}\right)";
     exp_call := format_n;
     opt_locale := kw_locale options;
     babel_length := default "long" (kw_babel_length options);
     babel_plural_form := default "one" (kw_babel_plural_form options);
     sort := false;
     sort_dims := false;
     registry := registry |}.

(** The method registered under ["L"]; [self] is a [LatexFormatter]. *)
Definition LatexFormatter_formatter (self : Formatter)
  (unit : list (string * Q)) (registry : option UnitRegistry)
  (options : babel_kwargs) : result string :=
  let? sorted_units := dim_sort self unit registry in
  let preprocessed :=
    List.map (fun item : string * Q =>
                ("\mathrm{" +:+ latex_escape item.1 +:+ "}", item.2))
             sorted_units in
  let? formatted :=
    formatter self preprocessed (latex_options registry options) in
  Ok (str_replace (str_replace formatted "[" "{") "]" "}").

(** *** The other formats *)

(** The keyword arguments that the other formats pass on: those of the
    localisation and of the sorting. *)
Record preset_kwargs : Type := {
  kw_babel : babel_kwargs;
  kw_sort : option bool;
  kw_sort_dims : option bool
}.

Definition preset_options (ratio single : bool)
  (product division power parentheses : string) (render : Q -> string)
  (registry : option UnitRegistry) (options : preset_kwargs)
  : formatter_options :=
  {| as_ratio := ratio;
     single_denominator := single;
     product_fmt := product;
     division_fmt := division;
     power_fmt := power;
     parentheses_fmt := parentheses;
     exp_call := render;
     opt_locale := kw_locale (kw_babel options);
     babel_length := default "long" (kw_babel_length (kw_babel options));
     babel_plural_form :=
       default "one" (kw_babel_plural_form (kw_babel options));
     sort := default true (kw_sort options);
     sort_dims := default true (kw_sort_dims options);
     registry := registry |}.

(** [PrettyFormatter.format_pretty], registered under ["P"]. *)
Definition format_pretty (self : Formatter) (unit : list (string * Q))
  (registry : option UnitRegistry) (options : preset_kwargs)
  : result string :=
  formatter self unit
    (preset_options true false "·" "/" "{}{}" "({})" _pretty_fmt_exponent
                    registry options).

(** [HtmlFormatter.format_html], registered under ["H"]. *)
Definition format_html (self : Formatter) (unit : list (string * Q))
  (registry : option UnitRegistry) (options : preset_kwargs)
  : result string :=
  formatter self unit
    (preset_options true true " " "{}/{}" "{}<sup>{}</sup>" "({})" format_n
                    registry options).

(** [DefaultFormatter.format_default], registered under ["D"]. *)
Definition format_default (self : Formatter) (unit : list (string * Q))
  (registry : option UnitRegistry) (options : preset_kwargs)
  : result string :=
  formatter self unit
    (preset_options true false " * " " / " "{} ** {}" "({})" format_n
                    registry options).

(** [CompactFormatter.format_compact], registered under ["C"]. *)
Definition format_compact (self : Formatter) (unit : list (string * Q))
  (registry : option UnitRegistry) (options : preset_kwargs)
  : result string :=
  formatter self unit
    (preset_options true false "*" "/" "{}**{}" "({})" format_n
                    registry options).

(** The characters that [latex_escape] replaces. *)
Definition latex_special : string := "\~^&%$#_{}".

(** The order of the unit names: code point by code point. *)
Definition name_lt (a b : string * Q) : Prop :=
  String.compare a.1 b.1 = Lt.

(** A locale that knows the metre, and the Babel name of that unit. *)
Definition example_locale : Locale :=
  {| unit_patterns := fun key length plural =>
       if String.eqb key "length-meter" then Some "{0} mètres" else None;
     compound_per := fun length => None |}.

Definition example_babel_units (key : string) : option string :=
  if String.eqb key "meter" then Some "length-meter" else None.

(** The default options with that locale. *)
Definition localised_options : formatter_options :=
  {| as_ratio := true;
     single_denominator := false;
     product_fmt := " * ";
     division_fmt := " / ";
     power_fmt := "{} ** {}";
     parentheses_fmt := "({0})";
     exp_call := render_integral;
     opt_locale := Some example_locale;
     babel_length := "long";
     babel_plural_form := "other";
     sort := true;
     sort_dims := true;
     registry := None |}.

(** No keyword argument given. *)
Definition no_kwargs : preset_kwargs :=
  {| kw_babel := {| kw_locale := None; kw_babel_length := None;
                    kw_babel_plural_form := None |};
     kw_sort := None;
     kw_sort_dims := None |}.

(** No character is a letter: enough for specifications of digits, signs
    and ASCII flags that are registered or standard. *)
Definition no_letter (ch : string) : bool := false.

(** ** Properties *)

(** *** Joining *)

(** C6: whatever the template, a separator or one with replacement fields,
    joining no string gives the empty string and joining one string gives
    that string. *)
Theorem join_nil_and_singleton (fmt : string) :
  _join fmt [] = Ok EmptyString /\ forall x : string, _join fmt [x] = Ok x.
Proof.
  split; [reflexivity|].
  intros x. unfold _join.
  destruct (_JOIN_REG_EXP_search fmt); reflexivity.
Qed.

(** *** The registry of formats *)

Lemma dict_contains_true {V : Type} (d : dict V) (k : string) :
  dict_contains d k = true <-> is_Some (dict_get d k).
Proof. unfold dict_contains. apply bool_decide_eq_true. Qed.

(** C8: registering under a name that is taken raises the error of a
    duplicate format, and the registry is the one it was: the name still
    maps to the renderer it had. *)
Theorem register_unit_format_duplicate (name : string) (func old : F)
  (_FORMATTERS : dict F) :
  dict_get _FORMATTERS name = Some old ->
  register_unit_format name func _FORMATTERS
    = (Raise (ValueError ("format " +:+ repr name +:+ " already exists")),
       _FORMATTERS)
  /\ dict_get (register_unit_format name func _FORMATTERS).2 name = Some old.
Proof.
  intros Hold.
  assert (Hin : dict_contains _FORMATTERS name = true).
  { apply dict_contains_true. rewrite Hold. eauto. }
  unfold register_unit_format. rewrite Hin. split; [reflexivity|exact Hold].
Qed.

(** C10: for an empty unit container both [format_unit] functions answer
    from the specification alone, the empty string when it ends in a
    percent sign and ["dimensionless"] otherwise: the registry of formats is
    not looked at, so no specification is unknown here. *)
Theorem format_unit_of_empty_container (self : Formatter)
  (_FORMATTERS : dict F) (spec : string) (registry : option UnitRegistry)
  (options : kwargs) :
  let answer :=
    Ok (if endswith "%" spec then EmptyString else "dimensionless") in
  format_unit _FORMATTERS [] spec options = answer
  /\ Formatter_format_unit self _FORMATTERS [] spec registry options = answer.
Proof.
  unfold format_unit, Formatter_format_unit.
  destruct (endswith "%" spec); split; reflexivity.
Qed.

(** *** Sorting by dimension *)

Lemma truthy_true (s : string) : truthy s = true <-> s <> EmptyString.
Proof. destruct s; cbv; split; intros H; congruence. Qed.

Lemma truthy_false (s : string) : truthy s = false <-> s = EmptyString.
Proof. destruct s; cbv; split; intros H; congruence. Qed.

Lemma for_each_app {A S : Type} (body : S -> A -> result S)
  (xs ys : list A) (s : S) :
  for_each body (xs ++ ys) s
  = let? s' := for_each body xs s in for_each body ys s'.
Proof.
  revert s. induction xs as [|x xs IH]; intros s; simpl; [reflexivity|].
  destruct (body s x) as [s'|e]; simpl; [apply IH|reflexivity].
Qed.

Lemma for_each_invariant {A S : Type} (body : S -> A -> result S)
  (Inv : S -> Prop) (xs : list A) :
  (forall s x s', x ∈ xs -> Inv s -> body s x = Ok s' -> Inv s') ->
  forall s s', Inv s -> for_each body xs s = Ok s' -> Inv s'.
Proof.
  induction xs as [|x xs IH]; intros Hstep s s' Hs Hrun; simpl in Hrun.
  - congruence.
  - destruct (body s x) as [s1|e] eqn:Hb; simpl in Hrun; [|discriminate].
    apply (IH (fun s0 y s0' Hy =>
                 Hstep s0 y s0' (list_elem_of_further _ _ _ Hy))
              s1 s'); [|exact Hrun].
    apply (Hstep s x s1); [left|exact Hs|exact Hb].
Qed.

Lemma find_is_None {A : Type} (f : A -> bool) (l : list A) :
  Forall (fun x => f x = false) l -> List.find f l = None.
Proof.
  induction 1 as [|x l Hx _ IH]; simpl; [reflexivity|].
  rewrite Hx. exact IH.
Qed.

Lemma find_is_Some {A : Type} (f : A -> bool) (l : list A) :
  Exists (fun x => f x = true) l -> is_Some (List.find f l).
Proof.
  induction 1 as [x l Hx|x l _ IH]; simpl.
  - rewrite Hx. eauto.
  - destruct (f x); eauto.
Qed.

Lemma first_dim_unrecognised (self : Formatter) (reg : UnitRegistry)
  (unit_name : string) :
  unrecognised self reg unit_name ->
  first_dim self (resolved_dims reg (get_name reg unit_name)) = None.
Proof.
  intros [_ Hnone]. apply find_is_None.
  eapply Forall_impl; [exact Hnone|].
  intros dim Hdim. simpl in Hdim. apply bool_decide_eq_false. exact Hdim.
Qed.

Lemma dim_sort_body_unrecognised (self : Formatter) (reg : UnitRegistry)
  (ret_dict : gmap string (list (string * Q))) (unit_name : string)
  (unit_exponent : Q) :
  unrecognised self reg unit_name ->
  dim_sort_body self reg ret_dict (unit_name, unit_exponent)
  = Raise (no_recognized_dimensions unit_name (get_name reg unit_name)).
Proof.
  intros Hu. unfold dim_sort_body.
  rewrite (first_dim_unrecognised _ _ _ Hu).
  destruct Hu as [Hname _]. apply truthy_true in Hname. rewrite Hname.
  reflexivity.
Qed.

Lemma dim_sort_body_sortable (self : Formatter) (reg : UnitRegistry)
  (ret_dict : gmap string (list (string * Q))) (item : string * Q) :
  sortable self reg item.1 ->
  exists ret_dict', dim_sort_body self reg ret_dict item = Ok ret_dict'.
Proof.
  destruct item as [unit_name unit_exponent]. simpl.
  intros Hs. unfold dim_sort_body.
  destruct (truthy (get_name reg unit_name)) eqn:Hname; simpl; [|eauto].
  destruct Hs as [Hun|Hex].
  - apply truthy_false in Hun. congruence.
  - unfold first_dim.
    destruct (find_is_Some
                (fun dim => bool_decide
                              (dim ∈ resolved_dims reg (get_name reg unit_name)))
                (dim_order self)) as [dim Hdim].
    + eapply Exists_impl; [exact Hex|].
      intros dim Hdim. simpl in Hdim. apply bool_decide_eq_true. exact Hdim.
    + rewrite Hdim. eauto.
Qed.

Lemma dim_buckets_sortable (self : Formatter) (reg : UnitRegistry)
  (items : list (string * Q)) (ret_dict : gmap string (list (string * Q))) :
  Forall (fun item => sortable self reg item.1) items ->
  exists ret_dict',
    for_each (dim_sort_body self reg) items ret_dict = Ok ret_dict'.
Proof.
  intros Hall. revert ret_dict.
  induction Hall as [|item items Hitem _ IH]; intros ret_dict; simpl.
  - eauto.
  - destruct (dim_sort_body_sortable self reg ret_dict item Hitem)
      as [d Hd].
    rewrite Hd. simpl. apply IH.
Qed.

Lemma startswith_app (p s : string) : startswith p (p +:+ s) = true.
Proof.
  induction p as [|c p IH]; simpl; [reflexivity|].
  rewrite Ascii.eqb_refl. exact IH.
Qed.

Lemma contains_of_startswith (sub s : string) :
  startswith sub s = true -> contains sub s = true.
Proof. intros H. destruct s; simpl; rewrite H; reflexivity. Qed.

Lemma contains_app (a x b : string) : contains x (a +:+ x +:+ b) = true.
Proof.
  induction a as [|c a IH].
  - change (contains x (x +:+ b) = true).
    apply contains_of_startswith, startswith_app.
  - change (contains x (String c (a +:+ x +:+ b)) = true).
    simpl. rewrite IH. apply orb_true_r.
Qed.

(** [dim_sort] raises at the first unit it cannot place. *)
Lemma dim_sort_raises_at_first_unrecognised (self : Formatter)
  (reg : UnitRegistry) (before after : list (string * Q))
  (unit_name : string) (unit_exponent : Q) :
  (2 <= length (before ++ (unit_name, unit_exponent) :: after))%nat ->
  Forall (fun item => sortable self reg item.1) before ->
  unrecognised self reg unit_name ->
  dim_sort self (before ++ (unit_name, unit_exponent) :: after) (Some reg)
  = Raise (no_recognized_dimensions unit_name (get_name reg unit_name)).
Proof.
  intros Hlen Hbefore Hun. unfold dim_sort, dim_buckets.
  destruct (length (before ++ (unit_name, unit_exponent) :: after) <=? 1)%nat
    eqn:Hle; [apply Nat.leb_le in Hle; lia|].
  rewrite for_each_app.
  destruct (dim_buckets_sortable self reg before ∅ Hbefore) as [d Hd].
  rewrite Hd. cbn [bind for_each].
  rewrite (dim_sort_body_unrecognised _ _ _ _ _ Hun). reflexivity.
Qed.

Lemma sortable_or_unrecognised (self : Formatter) (reg : UnitRegistry)
  (unit_name : string) :
  sortable self reg unit_name \/ unrecognised self reg unit_name.
Proof.
  unfold sortable, unrecognised, unresolved.
  destruct (decide (get_name reg unit_name = EmptyString)) as [He|Hne];
    [left; left; exact He|].
  destruct (decide (Exists
                      (fun dim =>
                         dim ∈ resolved_dims reg (get_name reg unit_name))
                      (dim_order self))) as [Hex|Hnex].
  - left. right. exact Hex.
  - right. split; [exact Hne|]. apply Forall_Exists_neg. exact Hnex.
Qed.

Lemma first_unrecognised (self : Formatter) (reg : UnitRegistry)
  (items : list (string * Q)) :
  Exists (fun item => unrecognised self reg item.1) items ->
  exists before item after,
    items = before ++ item :: after
    /\ Forall (fun item => sortable self reg item.1) before
    /\ unrecognised self reg item.1.
Proof.
  induction items as [|item items IH]; intros Hex; [inversion Hex|].
  destruct (sortable_or_unrecognised self reg item.1) as [Hs|Hu].
  - inversion Hex as [? ? Hhere|? ? Hlater]; subst.
    + exists [], item, items.
      split; [reflexivity|split; [constructor|exact Hhere]].
    + destruct (IH Hlater) as (before & x & after & -> & Hbefore & Hx).
      exists (item :: before), x, after.
      split; [reflexivity|split; [constructor; assumption|exact Hx]].
  - exists [], item, items.
    split; [reflexivity|split; [constructor|exact Hu]].
Qed.

(** C7: with a registry and two items or more, whenever some unit resolves
    to a canonical name and has, among its dimension tokens (the token of the
    dimensionless bucket standing in for none), none of the configured order,
    [dim_sort] raises a [KeyError], which is a [LookupError], and the message
    names the first such unit.  Without a registry, or with fewer than two
    items, the items come back as they are. *)
Theorem dim_sort_lookup_error (self : Formatter) (reg : UnitRegistry)
  (items : list (string * Q)) :
  ((2 <= length items)%nat ->
   Exists (fun item => unrecognised self reg item.1) items ->
   exists before unit_name unit_exponent after msg,
     items = before ++ (unit_name, unit_exponent) :: after
     /\ Forall (fun item => sortable self reg item.1) before
     /\ unrecognised self reg unit_name
     /\ dim_sort self items (Some reg) = Raise (KeyError msg)
     /\ KeyError msg
        = no_recognized_dimensions unit_name (get_name reg unit_name)
     /\ contains unit_name msg = true)
  /\ dim_sort self items None = Ok items
  /\ (forall registry,
         (length items < 2)%nat -> dim_sort self items registry = Ok items).
Proof.
  split; [|split].
  - intros Hlen Hex.
    destruct (first_unrecognised self reg items Hex)
      as (before & [unit_name unit_exponent] & after & -> & Hbefore & Hun).
    exists before, unit_name, unit_exponent, after. eexists.
    split; [reflexivity|]. split; [exact Hbefore|]. split; [exact Hun|].
    split; [|split; [reflexivity|]].
    + apply dim_sort_raises_at_first_unrecognised; assumption.
    + apply (contains_app "Unit " unit_name).
  - reflexivity.
  - intros registry Hlen. unfold dim_sort.
    destruct registry as [reg'|]; [|reflexivity].
    destruct (length items <=? 1)%nat eqn:Hle; [reflexivity|].
    apply Nat.leb_gt in Hle. lia.
Qed.

(** The buckets only hold units that have a canonical name. *)
Lemma dim_buckets_resolved (self : Formatter) (reg : UnitRegistry)
  (items : list (string * Q)) (ret_dict : gmap string (list (string * Q))) :
  dim_buckets self reg items = Ok ret_dict ->
  forall dim bucket item,
    ret_dict !! dim = Some bucket -> item ∈ bucket ->
    ~ unresolved reg item.1.
Proof.
  unfold dim_buckets. intros Hrun.
  refine (for_each_invariant (dim_sort_body self reg)
            (fun d => forall dim bucket item,
                 d !! dim = Some bucket -> item ∈ bucket ->
                 ~ unresolved reg item.1)
            items _ ∅ ret_dict _ Hrun).
  - intros d [unit_name unit_exponent] d' _ Hd Hbody.
    unfold dim_sort_body in Hbody.
    destruct (truthy (get_name reg unit_name)) eqn:Hname; simpl in Hbody.
    + destruct (first_dim self (resolved_dims reg (get_name reg unit_name)))
        as [dim0|]; [|discriminate].
      injection Hbody as <-.
      intros dim bucket item Hlook Hin.
      destruct (decide (dim0 = dim)) as [->|Hne].
      * rewrite lookup_insert_eq in Hlook. injection Hlook as <-.
        apply elem_of_app in Hin as [Hin|Hin].
        -- destruct (d !! dim) as [old|] eqn:Hold; simpl in Hin.
           ++ exact (Hd dim old item Hold Hin).
           ++ inversion Hin.
        -- apply list_elem_of_singleton in Hin. subst item. simpl.
           unfold unresolved. apply truthy_true. exact Hname.
      * rewrite lookup_insert_ne in Hlook by exact Hne.
        exact (Hd dim bucket item Hlook Hin).
    + injection Hbody as <-. exact Hd.
  - intros dim bucket item Hlook. rewrite lookup_empty in Hlook. discriminate.
Qed.

(** C9, as the code has it: with a registry and two items or more, all of
    which [dim_sort] can place or pass over, it returns a list; a pair whose
    unit the registry resolves to an empty canonical name is passed over: it
    is in no bucket and not in the list returned, which therefore is no
    permutation of the items.  With fewer than two items, or without a
    registry, nothing is passed over: the items are returned as they are. *)
Theorem dim_sort_omits_unresolved (self : Formatter) (reg : UnitRegistry)
  (items : list (string * Q)) :
  ((2 <= length items)%nat ->
   Forall (fun item => sortable self reg item.1) items ->
   exists ret_dict ret,
     dim_buckets self reg items = Ok ret_dict
     /\ dim_sort self items (Some reg) = Ok ret
     /\ (forall dim bucket item,
            ret_dict !! dim = Some bucket -> unresolved reg item.1 ->
            item ∉ bucket)
     /\ (forall item, unresolved reg item.1 -> item ∉ ret)
     /\ (forall item,
            item ∈ items -> unresolved reg item.1 ->
            ~ Permutation items ret))
  /\ ((length items <= 1)%nat -> dim_sort self items (Some reg) = Ok items)
  /\ dim_sort self items None = Ok items.
Proof.
  split; [|split];
    [|intros Hlen; unfold dim_sort;
      apply Nat.leb_le in Hlen; rewrite Hlen; reflexivity
     |reflexivity].
  intros Hlen Hall.
  destruct (dim_buckets_sortable self reg items ∅ Hall) as [ret_dict Hb].
  fold (dim_buckets self reg items) in Hb.
  exists ret_dict,
    (concat (omap (fun dim => ret_dict !! dim) (dim_order self))).
  pose proof (dim_buckets_resolved self reg items ret_dict Hb) as Hres.
  assert (Hret : forall item, unresolved reg item.1 ->
            item ∉ concat (omap (fun dim => ret_dict !! dim)
                                (dim_order self))).
  { intros item Hun Hin.
    apply list_elem_of_In, in_concat in Hin as (bucket & Hbucket & Hin).
    apply list_elem_of_In, list_elem_of_omap in Hbucket as (dim & _ & Hlook).
    apply list_elem_of_In in Hin.
    exact (Hres dim bucket item Hlook Hin Hun). }
  split; [exact Hb|]. split; [|split; [|split]].
  - unfold dim_sort.
    destruct (length items <=? 1)%nat eqn:Hle;
      [apply Nat.leb_le in Hle; lia|].
    rewrite Hb. reflexivity.
  - intros dim bucket item Hlook Hun Hin.
    exact (Hres dim bucket item Hlook Hin Hun).
  - exact Hret.
  - intros item Hin Hun Hperm. apply (Hret item Hun).
    rewrite <- Hperm. exact Hin.
Qed.

(** *** The core formatter *)

Lemma Qabs_of_pos (x : Q) : (0 < x)%Q -> Qabs x = x.
Proof.
  destruct x as [n d]. unfold Qlt, Qabs. simpl. intros H.
  f_equal. apply Z.abs_eq. lia.
Qed.

Lemma Qle_bool_false (x y : Q) : Qle_bool x y = false <-> (y < x)%Q.
Proof.
  split.
  - intros H. apply Qnot_le_lt. intros Hle.
    apply Qle_bool_iff in Hle. congruence.
  - intros H. apply not_true_is_false. intros Hb.
    apply Qle_bool_iff in Hb. exact (Qlt_not_le _ _ H Hb).
Qed.

Lemma Qeq_bool_false (x y : Q) : Qeq_bool x y = false <-> ~ (x == y)%Q.
Proof.
  split.
  - intros H Heq. apply Qeq_bool_iff in Heq. congruence.
  - intros H. apply not_true_is_false. intros Hb.
    apply H, Qeq_bool_iff, Hb.
Qed.

(** C2, as the code has it: on the three items of the example, with a
    single denominator and the default templates, [formatter] first sorts
    the items by name, since [sort] is true by default, and returns
    ["meter / (gram * second)"]; with [sort] false it returns
    ["meter / (second * gram)"]. *)
Theorem formatter_single_denominator_example (self : Formatter) :
  formatter self meter_per_second_gram (single_denominator_options format_n)
  = Ok "meter / (gram * second)"
  /\ formatter self meter_per_second_gram
       (with_sort (single_denominator_options format_n) false)
     = Ok "meter / (second * gram)".
Proof. split; reflexivity. Qed.

Lemma classify_division_irrelevant (o : formatter_options) (d key : string)
  (value : Q) (st st' : loop_state) :
  same_terms st st' ->
  same_outcome (classify o st key value)
               (classify (with_division_fmt o d) st' key value).
Proof.
  intros (Hpow & Hexp & Hpos & Hneg).
  unfold classify, fun_, append_pos, append_neg. simpl.
  rewrite <- Hpow, <- Hexp, <- Hpos, <- Hneg.
  destruct (Qeq_bool value 1); [repeat split|].
  destruct (negb (Qle_bool value 0)).
  { destruct (str_format _ _); simpl; [repeat split|reflexivity]. }
  destruct (Qeq_bool value (-1) && as_ratio o); [repeat split|].
  destruct (str_format _ _); simpl; [repeat split|reflexivity].
Qed.

Lemma formatter_body_division_irrelevant (o : formatter_options) (d : string)
  (item : string * Q) (st st' : loop_state) :
  same_terms st st' ->
  same_outcome (formatter_body o st item)
               (formatter_body (with_division_fmt o d) st' item).
Proof.
  intros Hsame. destruct item as [key value].
  unfold formatter_body, localise. simpl.
  destruct (opt_locale o) as [loc|];
    [|apply classify_division_irrelevant; exact Hsame].
  destruct (_babel_units key) as [_key|];
    [|apply classify_division_irrelevant; exact Hsame].
  destruct (truthy (babel_length o) && truthy (babel_plural_form o));
    [|apply classify_division_irrelevant; exact Hsame].
  apply classify_division_irrelevant.
  destruct Hsame as (_ & _ & Hpos & Hneg). repeat split; assumption.
Qed.

Lemma loop_division_irrelevant (o : formatter_options) (d : string)
  (items : list (string * Q)) (st st' : loop_state) :
  same_terms st st' ->
  same_outcome (for_each (formatter_body o) items st)
               (for_each (formatter_body (with_division_fmt o d)) items st').
Proof.
  revert st st'. induction items as [|item items IH]; intros st st' Hsame.
  - exact Hsame.
  - simpl.
    pose proof (formatter_body_division_irrelevant o d item st st' Hsame) as H.
    destruct (formatter_body o st item) as [s1|e1],
             (formatter_body (with_division_fmt o d) st' item) as [s2|e2];
      simpl in *; try contradiction.
    + apply IH. exact H.
    + exact H.
Qed.

Lemma collect_terms_division_irrelevant (self : Formatter)
  (items : list (string * Q)) (o : formatter_options) (d : string) :
  same_outcome (collect_terms self items o)
               (collect_terms self items (with_division_fmt o d)).
Proof.
  unfold collect_terms, ordered_items. simpl.
  destruct (if sort_dims o
            then dim_sort self (if sort o then sorted items else items)
                          (registry o)
            else Ok (if sort o then sorted items else items))
    as [sorted_items|e]; simpl; [|reflexivity].
  apply loop_division_irrelevant. repeat split.
Qed.

(** C4, as the code has it: for items that are not empty and options
    without [as_ratio], [formatter] returns
    [join(product_fmt, pos_terms + neg_terms)], and the division template is
    not applied: the result is the same whatever that template is.  (The
    text of the division template can still occur in the result, brought in
    by the product template, the power template or a unit name.) *)
Theorem formatter_as_product (self : Formatter) (items : list (string * Q))
  (o : formatter_options) :
  items <> [] ->
  as_ratio o = false ->
  formatter self items o
  = (let? st := collect_terms self items o in
     _join (product_fmt o) (pos_terms st ++ neg_terms st))
  /\ forall d : string,
       formatter self items (with_division_fmt o d) = formatter self items o.
Proof.
  intros Hitems Hratio.
  destruct items as [|item items]; [congruence|].
  unfold formatter. simpl. rewrite Hratio. simpl.
  split; [reflexivity|].
  intros d.
  pose proof (collect_terms_division_irrelevant self (item :: items) o d) as H.
  destruct (collect_terms self (item :: items) o) as [st|e],
           (collect_terms self (item :: items) (with_division_fmt o d))
             as [st'|e']; simpl in *; try contradiction.
  - destruct H as (_ & _ & Hpos & Hneg). rewrite Hpos, Hneg. reflexivity.
  - congruence.
Qed.

(** *** Splitting a format specification *)

Lemma append_empty_l (s : string) : EmptyString +:+ s = s.
Proof. reflexivity. Qed.

Lemma append_cons (c : ascii) (s t : string) :
  String c s +:+ t = String c (s +:+ t).
Proof. reflexivity. Qed.

Lemma bytes_app (s t : string) : bytes (s +:+ t) = bytes s ++ bytes t.
Proof.
  induction s as [|c s IH]; [reflexivity|].
  rewrite append_cons. simpl. f_equal. exact IH.
Qed.

Lemma bytes_join_cons (f : string) (l : list string) :
  bytes (str_join EmptyString (f :: l))
  = bytes f ++ bytes (str_join EmptyString l).
Proof.
  unfold str_join. destruct l as [|g l].
  - simpl. rewrite app_nil_r. reflexivity.
  - change (String.concat EmptyString (f :: g :: l))
      with (f +:+ EmptyString +:+ String.concat EmptyString (g :: l)).
    rewrite append_empty_l. apply bytes_app.
Qed.

Lemma startswith_single (a c : ascii) (t : string) :
  startswith (String a EmptyString) (String c t) = Ascii.eqb a c.
Proof. simpl. apply andb_true_r. Qed.

Lemma replace_go_char (c : ascii) (s : string) :
  replace_go (String c EmptyString) EmptyString O s
  = filter_bytes (fun b => negb (Ascii.eqb c b)) s.
Proof.
  induction s as [|a s IH]; [reflexivity|].
  cbn [replace_go filter_bytes]. rewrite startswith_single.
  destruct (Ascii.eqb c a); simpl; rewrite IH; reflexivity.
Qed.

Lemma filter_bytes_compose (f g : ascii -> bool) (s : string) :
  filter_bytes f (filter_bytes g s) = filter_bytes (fun c => g c && f c) s.
Proof.
  induction s as [|a s IH]; [reflexivity|].
  simpl. destruct (g a); simpl; [destruct (f a)|]; rewrite IH; reflexivity.
Qed.

Lemma filter_bytes_ext (f g : ascii -> bool) (s : string) :
  (forall c, f c = g c) -> filter_bytes f s = filter_bytes g s.
Proof.
  intros H. induction s as [|a s IH]; [reflexivity|].
  simpl. rewrite H, IH. reflexivity.
Qed.

(** With the built-in names, removing the flags is one pass that drops
    every [Lx], then a filter of the one-character flags. *)
Lemma remove_custom_flags_builtin (_FORMATTERS : dict F) (spec : string) :
  dict_keys _FORMATTERS = builtin_format_names ->
  remove_custom_flags _FORMATTERS spec
  = filter_bytes (fun c => negb (is_flag_char c))
                 (replace_go "Lx" EmptyString O spec).
Proof.
  intros Hkeys. unfold remove_custom_flags. rewrite Hkeys.
  change (sorted_longest_first builtin_format_names ++ ["~"])
    with ["Lx"; "P"; "L"; "H"; "D"; "C"; "~"].
  cbn [fold_left]. unfold str_replace. cbn [truthy is_empty negb].
  rewrite !replace_go_char, !filter_bytes_compose.
  apply filter_bytes_ext. intros c. unfold is_flag_char. cbn [mem_ascii].
  rewrite !(Ascii.eqb_sym c), orb_false_r, !negb_orb, !andb_assoc.
  reflexivity.
Qed.

Lemma extract_custom_flags_builtin (_FORMATTERS : dict F) (spec : string) :
  dict_keys _FORMATTERS = builtin_format_names ->
  extract_custom_flags _FORMATTERS spec
  = str_join EmptyString (findall_go builtin_alternatives O spec).
Proof.
  intros Hkeys. unfold extract_custom_flags. rewrite Hkeys.
  destruct spec; reflexivity.
Qed.

Lemma first_flag_builtin (c : ascii) (t : string) :
  first_flag builtin_alternatives (String c t)
  = if Ascii.eqb "L" c && startswith "x" t then Some "Lx"
    else if is_flag_char c then Some (String c EmptyString) else None.
Proof.
  unfold first_flag, builtin_alternatives, is_flag_char.
  cbn [List.find mem_ascii].
  rewrite !startswith_single, !(Ascii.eqb_sym c), orb_false_r.
  change (startswith "Lx" (String c t))
    with (Ascii.eqb "L" c && startswith "x" t).
  destruct (Ascii.eqb_spec "L" c) as [<-|HL];
    [destruct (startswith "x" t); reflexivity|].
  cbn [andb orb].
  destruct (Ascii.eqb_spec "P" c) as [<-|HP]; [reflexivity|].
  destruct (Ascii.eqb_spec "H" c) as [<-|HH]; [reflexivity|].
  destruct (Ascii.eqb_spec "D" c) as [<-|HD]; [reflexivity|].
  destruct (Ascii.eqb_spec "C" c) as [<-|HC]; [reflexivity|].
  destruct (Ascii.eqb_spec "~" c) as [<-|HT]; reflexivity.
Qed.

Lemma startswith_x (t : string) :
  startswith "x" t = true -> exists t', t = String "x" t'.
Proof.
  destruct t as [|b t']; [discriminate|].
  rewrite startswith_single. intros H.
  apply Ascii.eqb_eq in H. subst b. eauto.
Qed.

(** The characters that the removal keeps and those that the extraction
    finds are, together, the characters of the specification. *)
Lemma builtin_flags_partition (n : nat) (s : string) :
  (String.length s <= n)%nat ->
  Permutation
    (bytes (filter_bytes (fun c => negb (is_flag_char c))
                         (replace_go "Lx" EmptyString O s))
       ++ bytes (str_join EmptyString (findall_go builtin_alternatives O s)))
    (bytes s).
Proof.
  revert s. induction n as [|n IH]; intros s Hlen.
  - destruct s; [reflexivity|simpl in Hlen; lia].
  - destruct s as [|c t]; [reflexivity|]. simpl in Hlen.
    cbn [findall_go]. rewrite first_flag_builtin.
    change (replace_go "Lx" EmptyString O (String c t))
      with (if Ascii.eqb "L" c && startswith "x" t
            then replace_go "Lx" EmptyString 1 t
            else String c (replace_go "Lx" EmptyString O t)).
    destruct (Ascii.eqb "L" c && startswith "x" t) eqn:HLx.
    + apply andb_true_iff in HLx as [HL Hx].
      apply Ascii.eqb_eq in HL. subst c.
      apply startswith_x in Hx as [t' ->]. simpl in Hlen.
      cbn [replace_go findall_go String.length Nat.sub].
      rewrite bytes_join_cons.
      change (bytes "Lx") with ["L"%char; "x"%char].
      change (bytes (String "L" (String "x" t')))
        with ("L"%char :: "x"%char :: bytes t').
      cbn [app]. rewrite <- !Permutation_middle. do 2 apply perm_skip.
      apply IH. lia.
    + cbn [filter_bytes].
      destruct (is_flag_char c) eqn:Hflag; cbn [negb].
      * cbn [String.length Nat.sub]. rewrite bytes_join_cons.
        change (bytes (String c EmptyString)) with [c].
        change (bytes (String c t)) with (c :: bytes t).
        cbn [app]. rewrite <- Permutation_middle. apply perm_skip.
        apply IH. lia.
      * change (bytes (String c t)) with (c :: bytes t).
        change (bytes (String c ?r)) with (c :: bytes r).
        apply perm_skip. apply IH. lia.
Qed.

Lemma remove_custom_flags_empty (_FORMATTERS : dict F) :
  remove_custom_flags _FORMATTERS EmptyString = EmptyString.
Proof.
  unfold remove_custom_flags.
  induction (sorted_longest_first (dict_keys _FORMATTERS) ++ ["~"])
    as [|flag flags IH]; [reflexivity|].
  cbn [fold_left]. unfold str_replace.
  destruct flag; exact IH.
Qed.

(** C5, as the code has it: with the built-in format names registered, the
    magnitude sub-specification and the unit sub-specification that
    [remove_custom_flags] and [extract_custom_flags] make of a specification
    have together exactly its characters; [split_format] returns these two
    whenever neither is empty, or the default specification is empty, or the
    defaults are not kept apart and the specification is not empty.
    Otherwise, that is when the defaults are kept apart or the specification
    is empty, it returns them with each empty one replaced by the
    corresponding sub-specification of the default. *)
Theorem split_format_round_trip (_FORMATTERS : dict F) (spec default : string)
  (separate_format_defaults : option bool) :
  dict_keys _FORMATTERS = builtin_format_names ->
  let mspec := remove_custom_flags _FORMATTERS spec in
  let uspec := extract_custom_flags _FORMATTERS spec in
  let default_mspec := remove_custom_flags _FORMATTERS default in
  let default_uspec := extract_custom_flags _FORMATTERS default in
  Permutation (bytes (mspec +:+ uspec)) (bytes spec)
  /\ ((truthy mspec = true /\ truthy uspec = true)
      \/ default = EmptyString
      \/ (separate_format_defaults <> Some true /\ spec <> EmptyString) ->
      (split_format _FORMATTERS spec default separate_format_defaults).1
      = (mspec, uspec))
  /\ (separate_format_defaults = Some true \/ spec = EmptyString ->
      (split_format _FORMATTERS spec default separate_format_defaults).1
      = (if truthy mspec then mspec else default_mspec,
         if truthy uspec then uspec else default_uspec)).
Proof.
  intros Hkeys mspec uspec default_mspec default_uspec.
  split; [|split].
  - unfold mspec, uspec.
    rewrite (remove_custom_flags_builtin _ _ Hkeys),
            (extract_custom_flags_builtin _ _ Hkeys), bytes_app.
    apply (builtin_flags_partition (String.length spec)). lia.
  - intros Hcase. unfold split_format. fold mspec uspec.
    destruct separate_format_defaults as [[|]|].
    + destruct Hcase as [[Hm Hu]|[->|[Hflag _]]].
      * rewrite Hm, Hu. reflexivity.
      * rewrite remove_custom_flags_empty.
        change (extract_custom_flags _FORMATTERS EmptyString)
          with EmptyString.
        destruct mspec, uspec; reflexivity.
      * congruence.
    + rewrite andb_false_r.
      destruct (truthy spec) eqn:Hspec; [reflexivity|].
      apply truthy_false in Hspec. subst spec. cbn [negb fst].
      destruct Hcase as [[Hm _]|[->|[_ Hne]]].
      * unfold mspec in Hm. rewrite remove_custom_flags_empty in Hm.
        discriminate.
      * reflexivity.
      * congruence.
    + rewrite andb_true_r.
      destruct (truthy spec) eqn:Hspec; [reflexivity|].
      apply truthy_false in Hspec. subst spec. cbn [negb fst].
      destruct Hcase as [[Hm _]|[->|[_ Hne]]].
      * unfold mspec in Hm. rewrite remove_custom_flags_empty in Hm.
        discriminate.
      * reflexivity.
      * congruence.
  - intros [-> | ->].
    + reflexivity.
    + unfold split_format, mspec, uspec.
      rewrite remove_custom_flags_empty.
      change (extract_custom_flags _FORMATTERS EmptyString) with EmptyString.
      destruct separate_format_defaults as [[|]|]; reflexivity.
Qed.

(** *** The siunitx format *)

Lemma all_in_before_brace (s : string) : all_in "0" (s +:+ "}") = false.
Proof.
  induction s as [|c s IH]; [reflexivity|].
  rewrite append_cons. cbn [all_in]. rewrite IH. apply andb_false_r.
Qed.

(** Stripping zeros from the right of a text that ends in a brace strips
    nothing. *)
Lemma rstrip_zeros_before_brace (s : string) :
  str_rstrip (s +:+ "}") "0" = s +:+ "}".
Proof.
  induction s as [|c s IH]; [reflexivity|].
  rewrite append_cons. cbn [str_rstrip].
  change (all_in "0" (String c (s +:+ "}")))
    with (mem_ascii c "0" && all_in "0" (s +:+ "}")).
  rewrite all_in_before_brace, andb_false_r, IH. reflexivity.
Qed.

Lemma append_assoc (a b c : string) : (a +:+ b) +:+ c = a +:+ b +:+ c.
Proof.
  induction a as [|x a IH]; [reflexivity|].
  rewrite !append_cons, IH. reflexivity.
Qed.

(** The suffix of an exponent that is not integral keeps the three
    decimals of [format_3f], zeros included. *)
Lemma tothe_fraction (power : Q) :
  is_integer power = false ->
  _tothe power = "\tothe{" +:+ format_3f power +:+ "}".
Proof.
  intros H. unfold _tothe. rewrite H.
  rewrite <- append_assoc. apply rstrip_zeros_before_brace.
Qed.

Lemma is_integer_of_Z (power : Q) (n : Z) :
  (power == inject_Z n)%Q -> is_integer power = true.
Proof.
  destruct power as [a b]. unfold Qeq, is_integer. simpl. intros H.
  apply Z.eqb_eq. replace a with (n * Z.pos b) by lia.
  apply Z.mod_mul. discriminate.
Qed.

(** The suffix of an exponent that is a whole number: none for 1,
    [\squared] for 2, [\cubed] for 3, and [\tothe{n}], with the digits of
    the exponent, for the others. *)
Lemma tothe_integral (power : Q) :
  ((power == 1)%Q -> _tothe power = EmptyString)
  /\ ((power == 2)%Q -> _tothe power = "\squared")
  /\ ((power == 3)%Q -> _tothe power = "\cubed")
  /\ (is_integer power = true ->
      ~ (power == 1)%Q -> ~ (power == 2)%Q -> ~ (power == 3)%Q ->
      _tothe power = "\tothe{" +:+ decimal (Qfloor power) +:+ "}").
Proof.
  unfold _tothe. repeat split.
  - intros H. rewrite (is_integer_of_Z power 1 H).
    apply Qeq_bool_iff in H. rewrite H. reflexivity.
  - intros H. rewrite (is_integer_of_Z power 2 H).
    assert (H1 : Qeq_bool power 1 = false).
    { apply Qeq_bool_false. rewrite H. discriminate. }
    apply Qeq_bool_iff in H. rewrite H1, H. reflexivity.
  - intros H. rewrite (is_integer_of_Z power 3 H).
    assert (H1 : Qeq_bool power 1 = false).
    { apply Qeq_bool_false. rewrite H. discriminate. }
    assert (H2 : Qeq_bool power 2 = false).
    { apply Qeq_bool_false. rewrite H. discriminate. }
    apply Qeq_bool_iff in H. rewrite H1, H2, H. reflexivity.
  - intros Hint H1 H2 H3.
    apply Qeq_bool_false in H1, H2, H3.
    rewrite Hint, H1, H2, H3. reflexivity.
Qed.

Lemma siunitx_loop (reg : UnitRegistry) (items : list (string * Q))
  (lpos lneg : list string) :
  fold_left (siunitx_body reg) items (lpos, lneg)
  = (lpos ++ flat_map (siunitx_item_terms reg)
                      (List.filter nonnegative_power items),
     lneg ++ flat_map (siunitx_item_terms reg)
                      (List.filter (fun item => negb (nonnegative_power item))
                                   items)).
Proof.
  revert lpos lneg. induction items as [|[unit power] items IH];
    intros lpos lneg.
  - simpl. rewrite !app_nil_r. reflexivity.
  - cbn [fold_left List.filter].
    change (nonnegative_power (unit, power)) with (Qle_bool 0 power).
    change (siunitx_body reg (lpos, lneg) (unit, power))
      with (if Qle_bool 0 power
            then (lpos ++ siunitx_terms reg unit power, lneg)
            else (lpos, lneg ++ siunitx_terms reg unit power)).
    destruct (Qle_bool 0 power); cbn [negb flat_map]; rewrite IH;
      change (siunitx_item_terms reg (unit, power))
        with (siunitx_terms reg unit power);
      rewrite <- ?app_assoc; reflexivity.
Qed.

(** X24: the terms of the units of non-negative exponent come first, those
    of the units of negative exponent after them, each group in the order of
    the names. *)
Lemma siunitx_positive_then_negative (units : list (string * Q))
  (reg : UnitRegistry) :
  siunitx_format_unit units reg
  = str_join EmptyString
      (flat_map (siunitx_item_terms reg)
                (List.filter nonnegative_power (sorted units)))
    +:+ str_join EmptyString
          (flat_map (siunitx_item_terms reg)
                    (List.filter (fun item => negb (nonnegative_power item))
                                 (sorted units))).
Proof. unfold siunitx_format_unit. rewrite siunitx_loop. reflexivity. Qed.

(** C3, where the code departs from it: for the unit [meter] with exponent
    one half the suffix is [\tothe{0.500}].  The trailing zeros, which the
    specification has trimmed and the code means to trim, stay: the call
    [rstrip("0")] is applied to the text that already ends in the closing
    brace. *)
Theorem siunitx_fraction_keeps_zeros :
  _tothe (1 # 2) = "\tothe{0.500}"
  /\ siunitx_format_unit [("meter", 1 # 2)] example_registry
     = "\meter\tothe{0.500}".
Proof. split; reflexivity. Qed.

(** ** Further properties *)

(** *** [str.format] on the templates of the formats *)

Lemma append_nil_r (s : string) : s +:+ EmptyString = s.
Proof.
  induction s as [|c s IH]; [reflexivity|].
  rewrite append_cons, IH. reflexivity.
Qed.

Lemma brace_free_cons (c : ascii) (s : string) :
  brace_free (String c s) = true ->
  Ascii.eqb c "{" = false /\ Ascii.eqb c "}" = false /\ brace_free s = true.
Proof.
  unfold brace_free. cbn [mem_ascii]. intros H.
  apply andb_true_iff in H as [H1 H2].
  apply negb_true_iff, orb_false_iff in H1 as [Hl H1].
  apply negb_true_iff, orb_false_iff in H2 as [Hr H2].
  rewrite !(Ascii.eqb_sym c), Hl, Hr, H1, H2. repeat split.
Qed.

Lemma format_go_literal (args : list string) (st : field_numbering)
  (lit rest : string) :
  brace_free lit = true ->
  format_go args st None (lit +:+ rest)
  = let? r := format_go args st None rest in Ok (lit +:+ r).
Proof.
  induction lit as [|c lit IH]; intros Hfree.
  - rewrite append_empty_l.
    destruct (format_go args st None rest); reflexivity.
  - apply brace_free_cons in Hfree as (Hl & Hr & Hfree).
    rewrite append_cons. cbn [format_go]. rewrite Hl, Hr, (IH Hfree).
    destruct (format_go args st None rest); reflexivity.
Qed.

Lemma format_go_tail (args : list string) (st : field_numbering)
  (lit : string) :
  brace_free lit = true -> format_go args st None lit = Ok lit.
Proof.
  intros Hfree. rewrite <- (append_nil_r lit) at 1.
  rewrite (format_go_literal _ _ _ _ Hfree). cbn [format_go bind].
  rewrite append_nil_r. reflexivity.
Qed.

Lemma format_go_first_field (args : list string) (a rest : string) :
  format_go (a :: args) Unnumbered None ("{}" +:+ rest)
  = let? r := format_go (a :: args) (Automatic 1) None rest in Ok (a +:+ r).
Proof. reflexivity. Qed.

Lemma format_go_second_field (a b : string) (args : list string)
  (rest : string) :
  format_go (a :: b :: args) (Automatic 1) None ("{}" +:+ rest)
  = let? r := format_go (a :: b :: args) (Automatic 2) None rest in
    Ok (b +:+ r).
Proof. reflexivity. Qed.

Lemma format_go_index_0 (args : list string) (a rest : string) :
  format_go (a :: args) Unnumbered None ("{0}" +:+ rest)
  = let? r := format_go (a :: args) Manual None rest in Ok (a +:+ r).
Proof. reflexivity. Qed.

(** A template of two fields puts its two arguments between its texts. *)
Lemma str_format_two_fields (pre mid post a b : string) :
  brace_free pre = true -> brace_free mid = true -> brace_free post = true ->
  str_format (two_fields pre mid post) [a; b]
  = Ok (pre +:+ a +:+ mid +:+ b +:+ post).
Proof.
  intros Hpre Hmid Hpost. unfold str_format, two_fields.
  rewrite (format_go_literal _ _ _ _ Hpre), format_go_first_field,
          (format_go_literal _ _ _ _ Hmid), format_go_second_field,
          (format_go_tail _ _ _ Hpost).
  reflexivity.
Qed.

Lemma str_format_one_field (t a : string) :
  one_field_template t -> exists s, str_format t [a] = Ok s.
Proof.
  intros (pre & post & Hpre & Hpost & [->| ->]); unfold str_format;
    rewrite (format_go_literal _ _ _ _ Hpre).
  - rewrite format_go_first_field, (format_go_tail _ _ _ Hpost).
    eexists. reflexivity.
  - rewrite format_go_index_0, (format_go_tail _ _ _ Hpost).
    eexists. reflexivity.
Qed.

(** *** Joining *)

Lemma search_app_r (s t : string) :
  _JOIN_REG_EXP_search t = true -> _JOIN_REG_EXP_search (s +:+ t) = true.
Proof.
  intros H. induction s as [|c s IH]; [exact H|].
  rewrite append_cons. cbn [_JOIN_REG_EXP_search].
  rewrite IH. apply orb_true_r.
Qed.

Lemma search_two_fields (pre mid post : string) :
  _JOIN_REG_EXP_search (two_fields pre mid post) = true.
Proof. apply search_app_r. reflexivity. Qed.

Lemma search_brace_free (s : string) :
  brace_free s = true -> _JOIN_REG_EXP_search s = false.
Proof.
  induction s as [|c s IH]; intros Hfree; [reflexivity|].
  apply brace_free_cons in Hfree as (Hl & _ & Hfree).
  cbn [_JOIN_REG_EXP_search]. rewrite Hl, (IH Hfree). reflexivity.
Qed.

Lemma concat_cons2 (sep x y : string) (l : list string) :
  String.concat sep (x :: y :: l) = x +:+ sep +:+ String.concat sep (y :: l).
Proof. reflexivity. Qed.

Lemma concat_merge_head (sep a v : string) (l : list string) :
  String.concat sep ((a +:+ sep +:+ v) :: l) = String.concat sep (a :: v :: l).
Proof.
  destruct l as [|w l].
  - reflexivity.
  - rewrite !concat_cons2, !append_assoc. reflexivity.
Qed.

Lemma join_singleton (fmt x : string) : _join fmt [x] = Ok x.
Proof. unfold _join. destruct (_JOIN_REG_EXP_search fmt); reflexivity. Qed.

Lemma join_separator (sep : string) (xs : list string) :
  brace_free sep = true -> _join sep xs = Ok (str_join sep xs).
Proof.
  intros Hfree. destruct xs as [|x xs]; [reflexivity|].
  unfold _join. rewrite (search_brace_free _ Hfree). reflexivity.
Qed.

Lemma join_fold_two_fields (sep : string) (rest : list string)
  (first : string) :
  brace_free sep = true ->
  for_each
    (fun first val =>
       str_format (two_fields EmptyString sep EmptyString) [first; val])
    rest first
  = Ok (str_join sep (first :: rest)).
Proof.
  intros Hfree. revert first.
  induction rest as [|v rest IH]; intros first; [reflexivity|].
  cbn [for_each].
  rewrite (str_format_two_fields EmptyString sep EmptyString first v
             eq_refl Hfree eq_refl).
  cbn [bind]. rewrite append_empty_l, append_nil_r, IH.
  unfold str_join. rewrite concat_merge_head. reflexivity.
Qed.

(** X1: the two ways of writing a join template agree.  For a separator
    without braces, the template ["{}" + sep + "{}"], applied pairwise from
    the left, joins a list to the same string as the separator itself:
    [sep.join(xs)]. *)
Theorem join_template_as_separator (sep : string) (xs : list string) :
  brace_free sep = true ->
  _join ("{}" +:+ sep +:+ "{}") xs = Ok (str_join sep xs)
  /\ _join sep xs = Ok (str_join sep xs).
Proof.
  intros Hfree. split; [|apply join_separator; exact Hfree].
  destruct xs as [|x xs]; [reflexivity|].
  unfold _join.
  change ("{}" +:+ sep +:+ "{}") with (two_fields EmptyString sep EmptyString).
  rewrite search_two_fields. cbn [negb].
  apply join_fold_two_fields. exact Hfree.
Qed.

(** *** The registry of formats, continued *)

Lemma dict_get_set_eq {V : Type} (d : dict V) (k : string) (v : V) :
  dict_get (dict_set d k v) k = Some v.
Proof.
  unfold dict_get. induction d as [|[k' v'] d IH]; simpl.
  - rewrite String.eqb_refl. reflexivity.
  - destruct (String.eqb k k') eqn:E; simpl.
    + rewrite String.eqb_refl. reflexivity.
    + rewrite E. exact IH.
Qed.

Lemma dict_get_set_ne {V : Type} (d : dict V) (k k' : string) (v : V) :
  k' <> k -> dict_get (dict_set d k v) k' = dict_get d k'.
Proof.
  intros Hne. unfold dict_get. induction d as [|[k0 v0] d IH]; simpl.
  - apply String.eqb_neq in Hne. rewrite Hne. reflexivity.
  - destruct (String.eqb k k0) eqn:E; simpl.
    + apply String.eqb_eq in E. subst k0.
      apply String.eqb_neq in Hne. rewrite Hne. reflexivity.
    + destruct (String.eqb k' k0); [reflexivity|exact IH].
Qed.

Lemma dict_keys_set_new {V : Type} (d : dict V) (k : string) (v : V) :
  dict_get d k = None -> dict_keys (dict_set d k v) = dict_keys d ++ [k].
Proof.
  unfold dict_get, dict_keys. induction d as [|[k0 v0] d IH]; simpl;
    intros Hnone; [reflexivity|].
  destruct (String.eqb k k0) eqn:E; simpl in *; [discriminate|].
  f_equal. apply IH. exact Hnone.
Qed.

Lemma dict_contains_false {V : Type} (d : dict V) (k : string) :
  dict_get d k = None -> dict_contains d k = false.
Proof.
  intros H. unfold dict_contains. apply bool_decide_eq_false.
  rewrite H. intros [x Hx]. discriminate.
Qed.

(** X2: registering a format under a name that is free succeeds; afterwards
    the name maps to the new renderer, every other name maps to what it
    mapped to before, and the new name is the last of the registered
    names. *)
Theorem register_unit_format_new (name : string) (func : F)
  (_FORMATTERS : dict F) :
  dict_get _FORMATTERS name = None ->
  exists registered,
    register_unit_format name func _FORMATTERS = (Ok tt, registered)
    /\ dict_get registered name = Some func
    /\ (forall other, other <> name ->
                      dict_get registered other = dict_get _FORMATTERS other)
    /\ dict_keys registered = dict_keys _FORMATTERS ++ [name].
Proof.
  intros Hfree. exists (dict_set _FORMATTERS name func).
  unfold register_unit_format. rewrite (dict_contains_false _ _ Hfree).
  split; [reflexivity|]. split; [apply dict_get_set_eq|].
  split; [intros other Hne; apply dict_get_set_ne; exact Hne|].
  apply dict_keys_set_new. exact Hfree.
Qed.

(** X3: a format that has just been registered is the one [format_unit]
    dispatches to.  After a successful registration of [func] under a name
    that is not empty, formatting a unit container that is not empty with
    that name as specification is the call of [func]: with the container
    alone and no registry from the module-level function, with the
    formatter, the container and the registry from the method.  A
    specification that is not registered raises a [ValueError] naming it, the
    empty specification standing for ["D"]. *)
Theorem format_unit_dispatch (self : Formatter) (name : string) (func : F)
  (_FORMATTERS : dict F) (unit : list (string * Q))
  (registry : option UnitRegistry) (options : kwargs) :
  unit <> [] ->
  (dict_get _FORMATTERS name = None -> name <> EmptyString ->
   let registered := (register_unit_format name func _FORMATTERS).2 in
   format_unit registered unit name options
   = call func [UnitArg unit] None options
   /\ Formatter_format_unit self registered unit name registry options
      = call func [SelfArg self; UnitArg unit] registry options)
  /\ (forall spec,
         let key := if is_empty spec then "D" else spec in
         dict_get _FORMATTERS key = None ->
         let error :=
           Raise (ValueError ("Unknown conversion specified: " +:+ key)) in
         format_unit _FORMATTERS unit spec options = error
         /\ Formatter_format_unit self _FORMATTERS unit spec registry options
            = error).
Proof.
  intros Hunit. destruct unit as [|item unit]; [congruence|]. split.
  - intros Hfree Hname registered.
    destruct (register_unit_format_new name func _FORMATTERS Hfree)
      as (fs & Hreg & Hget & _).
    unfold registered. rewrite Hreg. cbn [snd].
    unfold format_unit, Formatter_format_unit.
    destruct name as [|c name]; [congruence|]. cbn [is_empty].
    rewrite Hget. split; reflexivity.
  - intros spec key Hnone error. unfold format_unit, Formatter_format_unit.
    fold key. rewrite Hnone. split; reflexivity.
Qed.

(** *** Sorting by dimension, continued *)

Lemma dim_sort_body_ok (self : Formatter) (reg : UnitRegistry)
  (d d' : gmap string (list (string * Q))) (item : string * Q) :
  dim_sort_body self reg d item = Ok d' ->
  d' = match bucket_of self reg item with
       | Some dim => <[dim := default [] (d !! dim) ++ [item]]> d
       | None => d
       end.
Proof.
  destruct item as [unit_name unit_exponent].
  unfold dim_sort_body, bucket_of. cbn [fst].
  destruct (truthy (get_name reg unit_name)); cbn [negb].
  - destruct (first_dim self (resolved_dims reg (get_name reg unit_name)));
      intros H; [injection H as <-; reflexivity|discriminate].
  - intros H. injection H as <-. reflexivity.
Qed.

Lemma buckets_closed_form (self : Formatter) (reg : UnitRegistry)
  (items : list (string * Q)) :
  forall d0 d : gmap string (list (string * Q)),
    for_each (dim_sort_body self reg) items d0 = Ok d ->
    forall dim,
      default [] (d !! dim)
      = default [] (d0 !! dim) ++ List.filter (in_bucket self reg dim) items.
Proof.
  induction items as [|item items IH]; intros d0 d Hrun dim.
  - simpl in Hrun. injection Hrun as <-. rewrite app_nil_r. reflexivity.
  - cbn [for_each] in Hrun.
    destruct (dim_sort_body self reg d0 item) as [d1|e] eqn:Hbody;
      [|discriminate].
    cbn [bind] in Hrun. rewrite (IH d1 d Hrun dim).
    apply dim_sort_body_ok in Hbody.
    cbn [List.filter]. unfold in_bucket at 2.
    destruct (bucket_of self reg item) as [dim0|]; subst d1.
    + destruct (decide (dim0 = dim)) as [->|Hne].
      * rewrite lookup_insert_eq, bool_decide_eq_true_2 by reflexivity.
        cbn [from_option id]. rewrite <- app_assoc. reflexivity.
      * rewrite lookup_insert_ne by exact Hne.
        rewrite bool_decide_eq_false_2 by congruence. reflexivity.
    + rewrite bool_decide_eq_false_2 by congruence. reflexivity.
Qed.

Lemma concat_omap_default {A B : Type} (f : A -> option (list B))
  (l : list A) :
  concat (omap f l) = flat_map (fun x => default [] (f x)) l.
Proof.
  induction l as [|x l IH]; [reflexivity|].
  cbn [omap list_omap flat_map]. destruct (f x); simpl; rewrite IH; reflexivity.
Qed.

Lemma dim_sort_ok_closed_form (self : Formatter) (reg : UnitRegistry)
  (items ret : list (string * Q)) :
  (2 <= length items)%nat ->
  dim_sort self items (Some reg) = Ok ret ->
  ret = by_buckets self reg items.
Proof.
  intros Hlen Hsort. unfold dim_sort in Hsort.
  destruct (length items <=? 1)%nat eqn:Hle;
    [apply Nat.leb_le in Hle; lia|].
  destruct (dim_buckets self reg items) as [d|e] eqn:Hb; [|discriminate].
  cbn [bind] in Hsort. injection Hsort as <-.
  rewrite concat_omap_default. unfold by_buckets.
  apply flat_map_ext. intros dim.
  rewrite (buckets_closed_form self reg items ∅ d Hb dim), lookup_empty.
  reflexivity.
Qed.

(** X4: the result of [dim_sort] in closed form.  With a registry and two
    items or more, all of which can be placed or passed over, [dim_sort]
    returns the buckets one after the other in the configured order of the
    dimensions, each bucket holding, in the order they had, the items whose
    first matching dimension it is. *)
Theorem dim_sort_by_buckets (self : Formatter) (reg : UnitRegistry)
  (items : list (string * Q)) :
  (2 <= length items)%nat ->
  Forall (fun item => sortable self reg item.1) items ->
  dim_sort self items (Some reg) = Ok (by_buckets self reg items).
Proof.
  intros Hlen Hall.
  destruct (dim_buckets_sortable self reg items ∅ Hall) as [d Hd].
  assert (Hsort : exists ret, dim_sort self items (Some reg) = Ok ret).
  { unfold dim_sort, dim_buckets.
    destruct (length items <=? 1)%nat eqn:Hle;
      [apply Nat.leb_le in Hle; lia|].
    rewrite Hd. eexists. reflexivity. }
  destruct Hsort as [ret Hret].
  rewrite Hret, (dim_sort_ok_closed_form self reg items ret Hlen Hret).
  reflexivity.
Qed.

Lemma flat_map_split {A B : Type} (b : A -> bool) (x : B) (g : A -> list B)
  (l : list A) :
  Permutation
    (flat_map (fun d => if b d then x :: g d else g d) l)
    (flat_map (fun d => if b d then [x] else []) l ++ flat_map g l).
Proof.
  induction l as [|d l IH]; [reflexivity|].
  cbn [flat_map]. rewrite IH.
  destruct (b d); cbn [app].
  - apply perm_skip. rewrite !app_assoc.
    apply Permutation_app_tail, Permutation_app_comm.
  - rewrite !app_assoc.
    apply Permutation_app_tail, Permutation_app_comm.
Qed.

Lemma flat_map_none {A B : Type} (b : A -> bool) (x : B) (l : list A) :
  Forall (fun d => b d = false) l ->
  flat_map (fun d => if b d then [x] else []) l = [].
Proof.
  induction 1 as [|d l Hd _ IH]; [reflexivity|].
  cbn [flat_map]. rewrite Hd, IH. reflexivity.
Qed.

Lemma flat_map_once (d0 : string) (x : string * Q) (dims : list string) :
  NoDup dims -> d0 ∈ dims ->
  flat_map
    (fun d => if bool_decide (Some d0 = Some d) then [x] else []) dims
  = [x].
Proof.
  induction 1 as [|d dims Hnotin Hnodup IH]; intros Hin;
    [inversion Hin|].
  cbn [flat_map].
  destruct (decide (d0 = d)) as [->|Hne].
  - rewrite bool_decide_eq_true_2 by reflexivity.
    rewrite (flat_map_none
               (fun d1 => bool_decide (Some d = Some d1)) x dims);
      [reflexivity|].
    apply Forall_forall. intros d1 Hd1.
    apply bool_decide_eq_false_2. intros Heq. injection Heq as <-.
    apply Hnotin. exact Hd1.
  - rewrite bool_decide_eq_false_2 by congruence.
    apply IH. inversion Hin; subst; [congruence|assumption].
Qed.

Lemma first_dim_in_order (self : Formatter) (dims : list string)
  (dim : string) :
  first_dim self dims = Some dim -> dim ∈ dim_order self.
Proof.
  unfold first_dim. intros H. apply find_some in H as [Hin _].
  apply list_elem_of_In. exact Hin.
Qed.

Lemma by_buckets_permutation (self : Formatter) (reg : UnitRegistry)
  (items : list (string * Q)) :
  NoDup (dim_order self) ->
  Permutation
    (by_buckets self reg items)
    (List.filter (fun item => bool_decide (is_Some (bucket_of self reg item)))
                 items).
Proof.
  intros Hnodup. unfold by_buckets.
  induction items as [|item items IH].
  - clear Hnodup. induction (dim_order self) as [|d l IHl];
      [reflexivity|exact IHl].
  - cbn [List.filter].
    change (flat_map
              (fun dim => List.filter (in_bucket self reg dim) (item :: items))
              (dim_order self))
      with (flat_map
              (fun dim =>
                 if in_bucket self reg dim item
                 then item :: List.filter (in_bucket self reg dim) items
                 else List.filter (in_bucket self reg dim) items)
              (dim_order self)).
    rewrite (flat_map_split (fun dim => in_bucket self reg dim item) item
               (fun dim => List.filter (in_bucket self reg dim) items)).
    rewrite IH. unfold in_bucket.
    destruct (bucket_of self reg item) as [dim0|] eqn:Hb.
    + rewrite (flat_map_once dim0 item (dim_order self) Hnodup).
      * rewrite bool_decide_eq_true_2 by eauto. reflexivity.
      * unfold bucket_of in Hb.
        destruct (truthy (get_name reg item.1)); [|discriminate].
        exact (first_dim_in_order _ _ _ Hb).
    + rewrite flat_map_none.
      * rewrite bool_decide_eq_false_2 by (intros [? ?]; discriminate).
        reflexivity.
      * apply Forall_forall. intros dim _.
        apply bool_decide_eq_false_2. discriminate.
Qed.

Lemma sortable_bucket (self : Formatter) (reg : UnitRegistry)
  (item : string * Q) :
  sortable self reg item.1 ->
  bool_decide (is_Some (bucket_of self reg item)) = resolved reg item.
Proof.
  intros Hs. unfold bucket_of, resolved.
  destruct (truthy (get_name reg item.1)) eqn:Hname.
  - apply bool_decide_eq_true_2.
    destruct Hs as [Hun|Hex]; [apply truthy_false in Hun; congruence|].
    unfold first_dim. apply find_is_Some.
    eapply Exists_impl; [exact Hex|].
    intros dim Hdim. simpl in Hdim. apply bool_decide_eq_true. exact Hdim.
  - apply bool_decide_eq_false_2. intros [? ?]. discriminate.
Qed.

Lemma filter_ext_Forall {A : Type} (f g : A -> bool) (l : list A) :
  Forall (fun x => f x = g x) l -> List.filter f l = List.filter g l.
Proof.
  induction 1 as [|x l Hx _ IH]; [reflexivity|].
  cbn [List.filter]. rewrite Hx, IH. reflexivity.
Qed.

(** X5: [dim_sort] only reorders.  With a registry and two items or more,
    all of which [dim_sort] can place or pass over, and a configured order
    that names no dimension twice, the list returned is a permutation of the
    items whose unit has a canonical name: no such item is lost or repeated.
    (With a dimension named twice, its bucket is returned twice; with fewer
    than two items the items are returned as they are.) *)
Theorem dim_sort_permutation (self : Formatter) (reg : UnitRegistry)
  (items : list (string * Q)) :
  NoDup (dim_order self) ->
  (2 <= length items)%nat ->
  Forall (fun item => sortable self reg item.1) items ->
  exists ret,
    dim_sort self items (Some reg) = Ok ret
    /\ Permutation ret (List.filter (resolved reg) items).
Proof.
  intros Hnodup Hlen Hall. exists (by_buckets self reg items).
  split; [apply dim_sort_by_buckets; assumption|].
  rewrite (by_buckets_permutation self reg items Hnodup).
  rewrite (filter_ext_Forall _ (resolved reg) items); [reflexivity|].
  eapply Forall_impl; [exact Hall|].
  intros item Hs. apply sortable_bucket. exact Hs.
Qed.

(** *** The core formatter, continued *)

Lemma insert_sorted_permutation {A : Type} (le : A -> A -> bool) (x : A)
  (l : list A) :
  Permutation (insert_sorted le x l) (x :: l).
Proof.
  induction l as [|y l IH]; [reflexivity|].
  cbn [insert_sorted]. destruct (le x y); [reflexivity|].
  rewrite IH. apply perm_swap.
Qed.

Lemma sorted_by_permutation {A : Type} (le : A -> A -> bool) (l : list A) :
  Permutation (sorted_by le l) l.
Proof.
  unfold sorted_by. induction l as [|x l IH]; [reflexivity|].
  cbn [fold_right]. rewrite insert_sorted_permutation, IH. reflexivity.
Qed.

Lemma localise_terms (o : formatter_options) (st : loop_state)
  (key : string) (value : Q) :
  pos_terms (localise o st key value).2 = pos_terms st
  /\ neg_terms (localise o st key value).2 = neg_terms st.
Proof.
  unfold localise.
  destruct (opt_locale o); [|split; reflexivity].
  destruct (_babel_units key); [|split; reflexivity].
  destruct (truthy (babel_length o) && truthy (babel_plural_form o));
    split; reflexivity.
Qed.

Lemma classify_appends (o : formatter_options) (st st' : loop_state)
  (key : string) (value : Q) :
  classify o st key value = Ok st' ->
  cur_division_fmt st' = cur_division_fmt st
  /\ cur_power_fmt st' = cur_power_fmt st
  /\ cur_exp_call st' = cur_exp_call st
  /\ exists term,
       (pos_terms st' = pos_terms st ++ [term]
        /\ neg_terms st' = neg_terms st)
       \/ (pos_terms st' = pos_terms st
           /\ neg_terms st' = neg_terms st ++ [term]).
Proof.
  unfold classify.
  destruct (Qeq_bool value 1).
  { intros H. injection H as <-. repeat split. exists key. left.
    split; reflexivity. }
  destruct (negb (Qle_bool value 0)).
  { destruct (str_format _ _) as [term|e]; cbn [bind]; intros H;
      [|discriminate].
    injection H as <-. repeat split. exists term. left. split; reflexivity. }
  destruct (Qeq_bool value (-1) && as_ratio o).
  { intros H. injection H as <-. repeat split. exists key. right.
    split; reflexivity. }
  destruct (str_format _ _) as [term|e]; cbn [bind]; intros H;
    [|discriminate].
  injection H as <-. repeat split. exists term. right. split; reflexivity.
Qed.

Lemma formatter_body_unfold (o : formatter_options) (st : loop_state)
  (key : string) (value : Q) :
  formatter_body o st (key, value)
  = classify o (localise o st key value).2 (localise o st key value).1 value.
Proof.
  unfold formatter_body. destruct (localise o st key value). reflexivity.
Qed.

Lemma formatter_body_one_term (o : formatter_options) (st st' : loop_state)
  (item : string * Q) :
  formatter_body o st item = Ok st' ->
  (length (pos_terms st') + length (neg_terms st')
   = S (length (pos_terms st) + length (neg_terms st)))%nat.
Proof.
  destruct item as [key value]. rewrite formatter_body_unfold. intros H.
  apply classify_appends in H as (_ & _ & _ & term & Hterm).
  destruct (localise_terms o st key value) as [Hp Hn].
  rewrite Hp, Hn in Hterm.
  destruct Hterm as [[-> ->]|[-> ->]]; rewrite length_app; simpl; lia.
Qed.

Lemma loop_one_term_per_item (o : formatter_options)
  (items : list (string * Q)) :
  forall st st',
    for_each (formatter_body o) items st = Ok st' ->
    (length (pos_terms st') + length (neg_terms st')
     = length (pos_terms st) + length (neg_terms st) + length items)%nat.
Proof.
  induction items as [|item items IH]; intros st st' Hrun.
  - simpl in Hrun. injection Hrun as <-. simpl. lia.
  - cbn [for_each] in Hrun.
    destruct (formatter_body o st item) as [st1|e] eqn:Hbody;
      [|discriminate].
    cbn [bind] in Hrun. rewrite (IH st1 st' Hrun).
    rewrite (formatter_body_one_term o st st1 item Hbody). simpl. lia.
Qed.

(** X6: one term for each item.  When the loop of [formatter] ends without
    error, the positive and the negative terms together are as many as the
    items it went through; and these are, without a registry or without the
    sort by dimension, a permutation of the items given. *)
Theorem formatter_one_term_per_item (self : Formatter)
  (items : list (string * Q)) (o : formatter_options) (st : loop_state) :
  collect_terms self items o = Ok st ->
  exists ordered,
    ordered_items self items o = Ok ordered
    /\ (length (pos_terms st) + length (neg_terms st) = length ordered)%nat
    /\ (registry o = None \/ sort_dims o = false ->
        Permutation ordered items).
Proof.
  unfold collect_terms. intros Hrun.
  destruct (ordered_items self items o) as [ordered|e] eqn:Hord;
    [|discriminate].
  cbn [bind] in Hrun. exists ordered. split; [reflexivity|]. split.
  - rewrite (loop_one_term_per_item o ordered _ _ Hrun). reflexivity.
  - intros Hnoreg. unfold ordered_items, dim_sort in Hord.
    assert (Hsame : ordered = if sort o then sorted items else items).
    { destruct Hnoreg as [Hreg|Hdims].
      - rewrite Hreg in Hord. destruct (sort_dims o); congruence.
      - rewrite Hdims in Hord. congruence. }
    rewrite Hsame. destruct (sort o); [|reflexivity].
    apply sorted_by_permutation.
Qed.

Lemma classify_total (o : formatter_options) (st : loop_state)
  (key : string) (value : Q) :
  two_field_template (cur_power_fmt st) ->
  exists st', classify o st key value = Ok st'.
Proof.
  intros (pre & mid & post & Hpre & Hmid & Hpost & Ht).
  unfold classify. rewrite Ht.
  rewrite (str_format_two_fields pre mid post key _ Hpre Hmid Hpost).
  destruct (Qeq_bool value 1); [eexists; reflexivity|].
  destruct (negb (Qle_bool value 0)); [eexists; reflexivity|].
  destruct (Qeq_bool value (-1) && as_ratio o); eexists; reflexivity.
Qed.

Lemma formatter_body_no_locale (o : formatter_options) (st : loop_state)
  (key : string) (value : Q) :
  opt_locale o = None ->
  formatter_body o st (key, value) = classify o st key value.
Proof.
  intros Hloc. unfold formatter_body, localise. rewrite Hloc. reflexivity.
Qed.

Lemma loop_total (o : formatter_options) (items : list (string * Q)) :
  opt_locale o = None ->
  forall st,
    two_field_template (cur_power_fmt st) ->
    exists st',
      for_each (formatter_body o) items st = Ok st'
      /\ cur_division_fmt st' = cur_division_fmt st.
Proof.
  intros Hloc. induction items as [|[key value] items IH]; intros st Hpow.
  - exists st. split; reflexivity.
  - cbn [for_each]. rewrite (formatter_body_no_locale o st key value Hloc).
    destruct (classify_total o st key value Hpow) as [st1 Hst1].
    rewrite Hst1. cbn [bind].
    apply classify_appends in Hst1 as (Hdiv & Hp & _).
    destruct (IH st1) as (st' & Hrun & Hdiv'); [rewrite Hp; exact Hpow|].
    exists st'. split; [exact Hrun|congruence].
Qed.

Lemma join_fold_total (t : string) (rest : list string) :
  two_field_template t ->
  forall first,
    exists s,
      for_each (fun first val => str_format t [first; val]) rest first = Ok s.
Proof.
  intros (pre & mid & post & Hpre & Hmid & Hpost & ->).
  induction rest as [|v rest IH]; intros first; [eexists; reflexivity|].
  cbn [for_each].
  rewrite (str_format_two_fields pre mid post first v Hpre Hmid Hpost).
  cbn [bind]. apply IH.
Qed.

Lemma join_total (t : string) (xs : list string) :
  joiner t -> exists s, _join t xs = Ok s.
Proof.
  intros Ht. destruct xs as [|x xs]; [eexists; reflexivity|].
  unfold _join. destruct (_JOIN_REG_EXP_search t) eqn:Hsearch; cbn [negb];
    [|eexists; reflexivity].
  destruct Ht as [Hfree|Htwo].
  - rewrite (search_brace_free t Hfree) in Hsearch. discriminate.
  - apply join_fold_total. exact Htwo.
Qed.

(** X7: with templates of the shapes the formats of this module use,
    [formatter] cannot fail on a template.  For a call without locale, a
    power template of two fields, product and division templates that are
    separators or have two fields, and a parentheses template of one field,
    [formatter] returns a string whenever the sorting steps do; so it always
    does without a registry. *)
Theorem formatter_total (self : Formatter) (items : list (string * Q))
  (o : formatter_options) :
  opt_locale o = None ->
  two_field_template (power_fmt o) ->
  joiner (product_fmt o) ->
  joiner (division_fmt o) ->
  one_field_template (parentheses_fmt o) ->
  ((exists ordered, ordered_items self items o = Ok ordered) ->
   exists s, formatter self items o = Ok s)
  /\ (registry o = None -> exists s, formatter self items o = Ok s).
Proof.
  intros Hloc Hpow Hprod Hdiv Hpar.
  assert (Hmain : (exists ordered, ordered_items self items o = Ok ordered) ->
                  exists s, formatter self items o = Ok s).
  { intros [ordered Hord]. unfold formatter.
    destruct items as [|item items]; [eexists; reflexivity|].
    unfold collect_terms. rewrite Hord. cbn [bind].
    destruct (loop_total o ordered Hloc (initial_state o) Hpow)
      as (st & Hrun & Hd).
    rewrite Hrun. cbn [bind]. cbn [initial_state cur_division_fmt] in Hd.
    rewrite Hd.
    destruct (as_ratio o); cbn [negb]; [|apply join_total; exact Hprod].
    destruct (join_total (product_fmt o) (pos_terms st) Hprod) as [p ->].
    cbn [bind].
    destruct (neg_terms st) as [|term terms] eqn:Hneg;
      [eexists; reflexivity|].
    destruct (single_denominator o).
    - destruct (join_total (product_fmt o) (term :: terms) Hprod) as [n ->].
      cbn [bind].
      destruct (1 <? length (term :: terms))%nat.
      + destruct (str_format_one_field (parentheses_fmt o) n Hpar) as [q ->].
        cbn [bind]. apply join_total. exact Hdiv.
      + cbn [bind]. apply join_total. exact Hdiv.
    - destruct (join_total (division_fmt o) (term :: terms) Hdiv) as [n ->].
      cbn [bind]. apply join_total. exact Hdiv. }
  split; [exact Hmain|].
  intros Hreg. apply Hmain. unfold ordered_items, dim_sort. rewrite Hreg.
  destruct (sort_dims o); eexists; reflexivity.
Qed.

Lemma dim_sort_subset (self : Formatter) (items ret : list (string * Q))
  (registry : option UnitRegistry) :
  dim_sort self items registry = Ok ret ->
  forall item, In item ret -> In item items.
Proof.
  intros Hsort item Hin.
  destruct registry as [reg|]; [|injection Hsort as <-; exact Hin].
  destruct (le_lt_dec 2 (length items)) as [Hlen|Hlen].
  - rewrite (dim_sort_ok_closed_form self reg items ret Hlen Hsort) in Hin.
    unfold by_buckets in Hin.
    apply in_flat_map in Hin as (dim & _ & Hin).
    apply filter_In in Hin as [Hin _]. exact Hin.
  - unfold dim_sort in Hsort.
    destruct (length items <=? 1)%nat eqn:Hle;
      [|apply Nat.leb_gt in Hle; lia].
    injection Hsort as <-. exact Hin.
Qed.

Lemma ordered_items_subset (self : Formatter) (items ordered : list (string * Q))
  (o : formatter_options) :
  ordered_items self items o = Ok ordered ->
  forall item, In item ordered -> In item items.
Proof.
  unfold ordered_items. intros Hord item Hin.
  assert (Hsorted : In item (if sort o then sorted items else items)).
  { destruct (sort_dims o).
    - exact (dim_sort_subset _ _ _ _ Hord item Hin).
    - injection Hord as <-. exact Hin. }
  destruct (sort o); [|exact Hsorted].
  eapply Permutation_in; [apply sorted_by_permutation|exact Hsorted].
Qed.

Lemma classify_nonpositive (o : formatter_options) (st st' : loop_state)
  (key : string) (value : Q) :
  (value <= 0)%Q ->
  classify o st key value = Ok st' ->
  pos_terms st' = pos_terms st.
Proof.
  intros Hle. unfold classify.
  assert (H1 : Qeq_bool value 1 = false).
  { apply Qeq_bool_false. intros H. rewrite H in Hle.
    apply Qle_bool_iff in Hle. discriminate. }
  apply Qle_bool_iff in Hle. rewrite H1, Hle. cbn [negb].
  destruct (Qeq_bool value (-1) && as_ratio o).
  - intros H. injection H as <-. reflexivity.
  - destruct (str_format _ _) as [term|e]; cbn [bind]; intros H;
      [injection H as <-; reflexivity|discriminate].
Qed.

Lemma loop_nonpositive (o : formatter_options) (items : list (string * Q)) :
  Forall (fun item => (item.2 <= 0)%Q) items ->
  forall st st',
    for_each (formatter_body o) items st = Ok st' ->
    pos_terms st' = pos_terms st.
Proof.
  induction 1 as [|[key value] items Hitem _ IH]; intros st st' Hrun.
  - simpl in Hrun. injection Hrun as <-. reflexivity.
  - cbn [for_each] in Hrun.
    destruct (formatter_body o st (key, value)) as [st1|e] eqn:Hbody;
      [|discriminate].
    cbn [bind] in Hrun. rewrite (IH st1 st' Hrun).
    rewrite formatter_body_unfold in Hbody.
    rewrite (classify_nonpositive _ _ _ _ _ Hitem Hbody).
    apply localise_terms.
Qed.

Lemma loop_division_no_locale (o : formatter_options)
  (items : list (string * Q)) :
  opt_locale o = None ->
  forall st st',
    for_each (formatter_body o) items st = Ok st' ->
    cur_division_fmt st' = cur_division_fmt st.
Proof.
  intros Hloc. induction items as [|[key value] items IH]; intros st st' Hrun.
  - simpl in Hrun. injection Hrun as <-. reflexivity.
  - cbn [for_each] in Hrun.
    rewrite (formatter_body_no_locale o st key value Hloc) in Hrun.
    destruct (classify o st key value) as [st1|e] eqn:Hbody; [|discriminate].
    cbn [bind] in Hrun. rewrite (IH st1 st' Hrun).
    apply classify_appends in Hbody as (Hdiv & _). exact Hdiv.
Qed.

(** X8: a unit expression without a positive power is a reciprocal.  In
    ratio mode, without locale and with a division template that is a
    separator, when no item has an exponent above 0 the loop leaves no
    positive term, and the string [formatter] returns is ["1"] when it leaves
    no term at all, and otherwise ["1"], the division template and the
    denominator: the negative terms joined by the product template, in
    parentheses when they are several, with [single_denominator]; the
    negative terms joined by the division template without it, so that the
    whole string is then ["1"] and the negative terms joined by the division
    template. *)
Theorem formatter_reciprocal (self : Formatter) (items : list (string * Q))
  (o : formatter_options) (s : string) :
  items <> [] ->
  as_ratio o = true ->
  opt_locale o = None ->
  brace_free (division_fmt o) = true ->
  Forall (fun item => (item.2 <= 0)%Q) items ->
  formatter self items o = Ok s ->
  exists st,
    collect_terms self items o = Ok st
    /\ pos_terms st = []
    /\ match neg_terms st with
       | [] => s = "1"
       | _ :: _ =>
           exists neg_ret,
             denominator o (division_fmt o) (neg_terms st) = Ok neg_ret
             /\ s = "1" +:+ division_fmt o +:+ neg_ret
       end
    /\ (single_denominator o = false ->
        s = str_join (division_fmt o) ("1" :: neg_terms st)).
Proof.
  intros Hitems Hratio Hloc Hfree Hall Hfmt.
  destruct items as [|item items]; [congruence|].
  unfold formatter in Hfmt. rewrite Hratio in Hfmt. cbn [negb] in Hfmt.
  destruct (collect_terms self (item :: items) o) as [st|e] eqn:Hcollect;
    [|discriminate].
  cbn [bind] in Hfmt. exists st. split; [reflexivity|].
  assert (Hstate : pos_terms st = []
                   /\ cur_division_fmt st = division_fmt o).
  { unfold collect_terms in Hcollect.
    destruct (ordered_items self (item :: items) o) as [ordered|e] eqn:Hord;
      [|discriminate].
    cbn [bind] in Hcollect.
    assert (Hordered : Forall (fun item => (item.2 <= 0)%Q) ordered).
    { apply List.Forall_forall. intros x Hx.
      pose proof (ordered_items_subset _ _ _ _ Hord x Hx) as Hin.
      rewrite List.Forall_forall in Hall. exact (Hall x Hin). }
    split.
    - exact (loop_nonpositive o ordered Hordered _ _ Hcollect).
    - exact (loop_division_no_locale o ordered Hloc _ _ Hcollect). }
  destruct Hstate as [Hpos Hdiv]. split; [exact Hpos|].
  rewrite Hpos, Hdiv in Hfmt.
  change (_join (product_fmt o) []) with (@Ok string EmptyString) in Hfmt.
  cbn [bind truthy is_empty negb] in Hfmt.
  unfold denominator.
  destruct (neg_terms st) as [|term terms].
  { injection Hfmt as <-. split; [reflexivity|]. intros _. reflexivity. }
  destruct (single_denominator o).
  - destruct (_join (product_fmt o) (term :: terms)) as [n|e];
      [|discriminate].
    cbn [bind] in Hfmt |- *.
    destruct (1 <? length (term :: terms))%nat.
    + destruct (str_format (parentheses_fmt o) [n]) as [q|e];
        [|discriminate].
      cbn [bind] in Hfmt.
      rewrite (join_separator _ _ Hfree) in Hfmt.
      injection Hfmt as <-.
      split; [exists q; split; reflexivity|discriminate].
    + cbn [bind] in Hfmt.
      rewrite (join_separator _ _ Hfree) in Hfmt.
      injection Hfmt as <-.
      split; [exists n; split; reflexivity|discriminate].
  - rewrite (join_separator _ (term :: terms) Hfree) in Hfmt |- *.
    cbn [bind] in Hfmt.
    rewrite (join_separator _ _ Hfree) in Hfmt.
    injection Hfmt as <-.
    split; [eexists; split; reflexivity|].
    intros _. reflexivity.
Qed.

Lemma collect_terms_single_denominator (self : Formatter)
  (items : list (string * Q)) (o : formatter_options) (b : bool) :
  collect_terms self items (with_single_denominator o b)
  = collect_terms self items o.
Proof. reflexivity. Qed.

(** X9: the single denominator only matters for several negative terms.
    When the result is a product ([as_ratio] false), or when the loop leaves
    at most one negative term, [formatter] returns the same with
    [single_denominator] true and false. *)
Theorem single_denominator_needs_two_terms (self : Formatter)
  (items : list (string * Q)) (o : formatter_options) (b : bool) :
  as_ratio o = false
  \/ (forall st, collect_terms self items o = Ok st ->
                 (length (neg_terms st) <= 1)%nat) ->
  formatter self items (with_single_denominator o b) = formatter self items o.
Proof.
  intros Hcase. destruct items as [|item items]; [reflexivity|].
  unfold formatter. rewrite collect_terms_single_denominator.
  cbn [with_single_denominator as_ratio product_fmt single_denominator
         parentheses_fmt].
  destruct (collect_terms self (item :: items) o) as [st|e] eqn:Hcollect;
    [|reflexivity].
  cbn [bind].
  destruct (as_ratio o) eqn:Hratio; cbn [negb]; [|reflexivity].
  destruct Hcase as [Hfalse|Hone]; [discriminate|].
  specialize (Hone st eq_refl).
  destruct (_join (product_fmt o) (pos_terms st)) as [p|e]; [|reflexivity].
  cbn [bind].
  destruct (neg_terms st) as [|term [|term' terms]];
    [reflexivity| |simpl in Hone; lia].
  rewrite !join_singleton.
  destruct b, (single_denominator o); reflexivity.
Qed.

Lemma str_format_concat (a b : string) :
  str_format "{}{}" [a; b] = Ok (a +:+ b).
Proof.
  change "{}{}" with (two_fields EmptyString EmptyString EmptyString).
  rewrite str_format_two_fields by reflexivity.
  rewrite !append_empty_l, append_nil_r. reflexivity.
Qed.

Lemma localise_localisable (o : formatter_options) (st : loop_state)
  (key : string) (value : Q) :
  localisable o key -> localised (localise o st key value).2.
Proof.
  intros ([loc Hloc] & Hlen & Hplural & [_key Hkey]).
  unfold localise. rewrite Hloc, Hkey.
  apply truthy_true in Hlen, Hplural. rewrite Hlen, Hplural.
  split; reflexivity.
Qed.

Lemma localise_keeps_localised (o : formatter_options) (st : loop_state)
  (key : string) (value : Q) :
  localised st -> localised (localise o st key value).2.
Proof.
  intros Hst. unfold localise.
  destruct (opt_locale o); [|exact Hst].
  destruct (_babel_units key); [|exact Hst].
  destruct (truthy (babel_length o) && truthy (babel_plural_form o));
    [split; reflexivity|exact Hst].
Qed.

Lemma loop_keeps_localised (o : formatter_options)
  (items : list (string * Q)) :
  forall st st',
    localised st ->
    for_each (formatter_body o) items st = Ok st' ->
    localised st'.
Proof.
  induction items as [|[key value] items IH]; intros st st' Hst Hrun.
  - simpl in Hrun. injection Hrun as <-. exact Hst.
  - cbn [for_each] in Hrun.
    destruct (formatter_body o st (key, value)) as [st1|e] eqn:Hbody;
      [|discriminate].
    cbn [bind] in Hrun. apply (IH st1 st'); [|exact Hrun].
    rewrite formatter_body_unfold in Hbody.
    apply classify_appends in Hbody as (_ & Hp & He & _).
    destruct (localise_keeps_localised o st key value Hst) as [Hp' He'].
    split; congruence.
Qed.

Lemma localise_not_localisable (o : formatter_options) (st : loop_state)
  (key : string) (value : Q) :
  ~ localisable o key -> localise o st key value = (key, st).
Proof.
  intros Hnot. unfold localise.
  destruct (opt_locale o) as [loc|] eqn:Hloc; [|reflexivity].
  destruct (_babel_units key) as [_key|] eqn:Hkey; [|reflexivity].
  destruct (truthy (babel_length o)) eqn:Hlen; [|reflexivity].
  destruct (truthy (babel_plural_form o)) eqn:Hplural; [|reflexivity].
  exfalso. apply Hnot. unfold localisable. rewrite Hloc, Hkey.
  split; [eexists; reflexivity|].
  split; [apply truthy_true; exact Hlen|].
  split; [apply truthy_true; exact Hplural|eexists; reflexivity].
Qed.

Lemma localise_when_localisable (o : formatter_options) (st : loop_state)
  (key : string) (value : Q) :
  localisable o key ->
  exists loc _key,
    opt_locale o = Some loc
    /\ _babel_units key = Some _key
    /\ (localise o st key value).1
       = babel_key loc (babel_length o)
           (if Qle_bool (Qabs value) 0 then "one" else babel_plural_form o)
           _key key
    /\ cur_division_fmt (localise o st key value).2
       = babel_division_fmt loc (babel_length o) (cur_division_fmt st).
Proof.
  intros ([loc Hloc] & Hlen & Hplural & [_key Hkey]).
  exists loc, _key. unfold localise. rewrite Hloc, Hkey.
  apply truthy_true in Hlen, Hplural. rewrite Hlen, Hplural.
  split; [reflexivity|]. split; [reflexivity|]. split; reflexivity.
Qed.

Lemma loop_without_localised (o : formatter_options)
  (items : list (string * Q)) :
  Forall (fun item => ~ localisable o item.1) items ->
  forall st st',
    for_each (formatter_body o) items st = Ok st' ->
    cur_power_fmt st' = cur_power_fmt st
    /\ cur_exp_call st' = cur_exp_call st.
Proof.
  induction 1 as [|[key value] items Hitem _ IH]; intros st st' Hrun.
  - simpl in Hrun. injection Hrun as <-. split; reflexivity.
  - cbn [for_each] in Hrun.
    destruct (formatter_body o st (key, value)) as [st1|e] eqn:Hbody;
      [|discriminate].
    cbn [bind] in Hrun. destruct (IH st1 st' Hrun) as [Hp He].
    rewrite formatter_body_unfold in Hbody.
    rewrite (localise_not_localisable o st key value Hitem) in Hbody.
    cbn [fst snd] in Hbody.
    apply classify_appends in Hbody as (_ & Hp1 & He1 & _).
    split; congruence.
Qed.

Lemma loop_with_localised (o : formatter_options)
  (items : list (string * Q)) :
  Exists (fun item => localisable o item.1) items ->
  forall st st',
    for_each (formatter_body o) items st = Ok st' ->
    localised st'.
Proof.
  induction 1 as [[key value] items Hitem|[key value] items _ IH];
    intros st st' Hrun; cbn [for_each] in Hrun;
    destruct (formatter_body o st (key, value)) as [st1|e] eqn:Hbody;
    try discriminate; cbn [bind] in Hrun.
  - apply (loop_keeps_localised o items st1 st'); [|exact Hrun].
    rewrite formatter_body_unfold in Hbody.
    apply classify_appends in Hbody as (_ & Hp & He & _).
    destruct (localise_localisable o st key value Hitem) as [Hp' He'].
    split; congruence.
  - exact (IH st1 st' Hrun).
Qed.

(** C1, as the code has it.  The body of the loop first localises the pair:
    under a locale, a length and a plural form, a unit that has a Babel name
    is printed by its localised name, and the power template becomes
    ["{}{}"] and the renderer the pretty one; any other unit keeps its name
    and leaves the templates as they stand.  With the token, the power
    template and the renderer so obtained (without [as_ratio] the renderer
    stays that of the call), a pair of exponent 1 gives the bare token among
    the positive terms; every other exponent above 0, the fractional ones
    below 1 included, gives [power_fmt.format(token, render(exponent))] among
    the positive terms; exponent -1 in ratio mode gives the bare token among
    the negative terms; every other exponent, 0 included, gives
    [power_fmt.format(token, render(|exponent| if as_ratio else exponent))]
    among the negative terms.  Over the loop, the power template and the
    renderer are those of the call as long as no pair has been localised,
    and the replaced ones from the first localised pair on. *)
Theorem formatter_body_classifies (o : formatter_options) (st : loop_state)
  (key : string) (value : Q) :
  let tok := (localise o st key value).1 in
  let st' := (localise o st key value).2 in
  let render x := if as_ratio o then cur_exp_call st' x else exp_call o x in
  let power x := str_format (cur_power_fmt st') [tok; render x] in
  (((value == 1)%Q ->
    formatter_body o st (key, value) = Ok (append_pos st' tok))
   /\ ((0 < value)%Q -> ~ (value == 1)%Q ->
       formatter_body o st (key, value)
       = let? term := power value in Ok (append_pos st' term))
   /\ ((value == -1)%Q -> as_ratio o = true ->
       formatter_body o st (key, value) = Ok (append_neg st' tok))
   /\ ((value <= 0)%Q -> ~ ((value == -1)%Q /\ as_ratio o = true) ->
       formatter_body o st (key, value)
       = let? term := power (if as_ratio o then Qabs value else value) in
         Ok (append_neg st' term)))
  /\ (~ localisable o key -> tok = key /\ st' = st)
  /\ (localisable o key ->
      (exists loc _key,
          opt_locale o = Some loc
          /\ _babel_units key = Some _key
          /\ tok = babel_key loc (babel_length o)
                     (if Qle_bool (Qabs value) 0 then "one"
                      else babel_plural_form o)
                     _key key
          /\ cur_division_fmt st'
             = babel_division_fmt loc (babel_length o) (cur_division_fmt st))
      /\ cur_power_fmt st' = "{}{}"
      /\ cur_exp_call st' = _pretty_fmt_exponent
      /\ pos_terms st' = pos_terms st
      /\ neg_terms st' = neg_terms st)
  /\ (forall items st1,
         for_each (formatter_body o) items (initial_state o) = Ok st1 ->
         (Forall (fun item => ~ localisable o item.1) items ->
          cur_power_fmt st1 = power_fmt o /\ cur_exp_call st1 = exp_call o)
         /\ (Exists (fun item => localisable o item.1) items ->
             cur_power_fmt st1 = "{}{}"
             /\ cur_exp_call st1 = _pretty_fmt_exponent)).
Proof.
  intros tok st' render power.
  assert (Hbody : formatter_body o st (key, value) = classify o st' tok value)
    by apply formatter_body_unfold.
  split; [|split; [|split]].
  - rewrite Hbody. unfold classify, fun_, power, render.
    split; [|split; [|split]].
    + intros H1. apply Qeq_bool_iff in H1. rewrite H1. reflexivity.
    + intros Hpos Hne. apply Qeq_bool_false in Hne. rewrite Hne.
      assert (Hle : Qle_bool value 0 = false)
        by (apply Qle_bool_false; exact Hpos).
      rewrite Hle. cbn [negb]. rewrite (Qabs_of_pos value Hpos).
      reflexivity.
    + intros Hm1 Hratio.
      assert (Hne : Qeq_bool value 1 = false).
      { apply Qeq_bool_false. rewrite Hm1. discriminate. }
      assert (Hle : Qle_bool value 0 = true).
      { apply Qle_bool_iff. rewrite Hm1. discriminate. }
      apply Qeq_bool_iff in Hm1. rewrite Hne, Hle, Hm1, Hratio. reflexivity.
    + intros Hle Hnot.
      assert (Hne : Qeq_bool value 1 = false).
      { apply Qeq_bool_false. intros H1. rewrite H1 in Hle.
        apply Qle_bool_iff in Hle. discriminate. }
      apply Qle_bool_iff in Hle. rewrite Hne, Hle. cbn [negb].
      destruct (Qeq_bool value (-1)) eqn:Hm1; cbn [andb].
      * destruct (as_ratio o) eqn:Hratio; [|reflexivity].
        exfalso. apply Hnot.
        split; [apply Qeq_bool_iff; exact Hm1|reflexivity].
      * destruct (as_ratio o); reflexivity.
  - intros Hnot. unfold tok, st'.
    rewrite (localise_not_localisable o st key value Hnot).
    split; reflexivity.
  - intros Hloc.
    destruct (localise_localisable o st key value Hloc) as [Hp He].
    destruct (localise_terms o st key value) as [Hpos Hneg].
    split; [exact (localise_when_localisable o st key value Hloc)|].
    split; [exact Hp|]. split; [exact He|]. split; [exact Hpos|exact Hneg].
  - intros items st1 Hrun. split.
    + intros Hall. exact (loop_without_localised o items Hall _ _ Hrun).
    + intros Hex. exact (loop_with_localised o items Hex _ _ Hrun).
Qed.

(** X10: the localisation is sticky.  A unit that is localised replaces the
    power template by ["{}{}"] and the exponent renderer by the pretty one,
    and they stay replaced to the end of the loop.  A later unit without a
    Babel name and with a positive exponent other than 1 is therefore printed
    as its name directly followed by its exponent: the pretty one in ratio
    mode, that of the renderer of the call otherwise; the power template of
    the call is not used. *)
Theorem localisation_is_sticky (o : formatter_options) (st : loop_state) :
  (forall key value,
      localisable o key -> localised (localise o st key value).2)
  /\ (forall items st',
         localised st ->
         for_each (formatter_body o) items st = Ok st' ->
         localised st')
  /\ (forall key value,
         localised st ->
         _babel_units key = None ->
         (0 < value)%Q -> ~ (value == 1)%Q ->
         formatter_body o st (key, value)
         = Ok (append_pos st
                 (key +:+ (if as_ratio o then _pretty_fmt_exponent value
                           else exp_call o value)))).
Proof.
  split; [|split].
  - intros key value. apply localise_localisable.
  - intros items st'. apply loop_keeps_localised.
  - intros key value [Hpow Hexp] Hkey Hpos Hne.
    unfold formatter_body, localise. rewrite Hkey.
    assert (Hsame : (let (key0, st0) :=
                       match opt_locale o with
                       | Some _ => (key, st)
                       | None => (key, st)
                       end in classify o st0 key0 value)
                    = classify o st key value)
      by (destruct (opt_locale o); reflexivity).
    rewrite Hsame. unfold classify, fun_. rewrite Hpow, Hexp.
    apply Qeq_bool_false in Hne. rewrite Hne.
    assert (Hle : Qle_bool value 0 = false)
      by (apply Qle_bool_false; exact Hpos).
    rewrite Hle. cbn [negb]. rewrite (Qabs_of_pos value Hpos).
    rewrite str_format_concat. reflexivity.
Qed.

(** *** Splitting a format specification, continued *)

Lemma filter_bytes_keeps (keep : ascii -> bool) (s : string) :
  Forall (fun c => keep c = true) (bytes (filter_bytes keep s)).
Proof.
  induction s as [|c s IH]; [constructor|].
  cbn [filter_bytes]. destruct (keep c) eqn:Hc; [|exact IH].
  constructor; assumption.
Qed.

Lemma filter_bytes_id (keep : ascii -> bool) (s : string) :
  Forall (fun c => keep c = true) (bytes s) -> filter_bytes keep s = s.
Proof.
  induction s as [|c s IH]; intros H; [reflexivity|].
  inversion H as [|? ? Hc Hs]; subst.
  cbn [filter_bytes]. rewrite Hc, (IH Hs). reflexivity.
Qed.

Lemma flag_free_cons (c : ascii) (s : string) :
  flag_free (String c s) -> is_flag_char c = false /\ flag_free s.
Proof. intros H. inversion H; subst. split; assumption. Qed.

Lemma replace_Lx_flag_free (s : string) :
  flag_free s -> replace_go "Lx" EmptyString O s = s.
Proof.
  induction s as [|c s IH]; intros H; [reflexivity|].
  apply flag_free_cons in H as [Hc Hs].
  change (replace_go "Lx" EmptyString O (String c s))
    with (if Ascii.eqb "L" c && startswith "x" s
          then replace_go "Lx" EmptyString 1 s
          else String c (replace_go "Lx" EmptyString O s)).
  destruct (Ascii.eqb_spec "L" c) as [<-|HL]; [discriminate|].
  cbn [andb]. rewrite (IH Hs). reflexivity.
Qed.

Lemma findall_flag_free (s : string) :
  flag_free s -> findall_go builtin_alternatives O s = [].
Proof.
  induction s as [|c s IH]; intros H; [reflexivity|].
  apply flag_free_cons in H as [Hc Hs].
  cbn [findall_go]. rewrite first_flag_builtin, Hc.
  destruct (Ascii.eqb_spec "L" c) as [<-|HL]; [discriminate|].
  cbn [andb]. exact (IH Hs).
Qed.

Lemma remove_builtin_flag_free (_FORMATTERS : dict F) (spec : string) :
  dict_keys _FORMATTERS = builtin_format_names ->
  flag_free (remove_custom_flags _FORMATTERS spec).
Proof.
  intros Hkeys. rewrite (remove_custom_flags_builtin _ _ Hkeys).
  unfold flag_free. eapply Forall_impl; [apply filter_bytes_keeps|].
  intros c Hc. simpl in Hc. apply negb_true_iff in Hc. exact Hc.
Qed.

Lemma remove_builtin_of_flag_free (_FORMATTERS : dict F) (s : string) :
  dict_keys _FORMATTERS = builtin_format_names ->
  flag_free s -> remove_custom_flags _FORMATTERS s = s.
Proof.
  intros Hkeys Hfree. rewrite (remove_custom_flags_builtin _ _ Hkeys).
  rewrite (replace_Lx_flag_free s Hfree). apply filter_bytes_id.
  eapply Forall_impl; [exact Hfree|].
  intros c Hc. simpl in Hc. rewrite Hc. reflexivity.
Qed.

(** A concatenation of flags: what the extraction builds. *)
Lemma remove_flags_of_flags (flags : list string) :
  Forall (fun f => In f builtin_alternatives) flags ->
  filter_bytes (fun c => negb (is_flag_char c))
    (replace_go "Lx" EmptyString O (str_join EmptyString flags))
  = EmptyString
  /\ startswith "x" (str_join EmptyString flags) = false.
Proof.
  induction 1 as [|f flags Hf _ [IH Hx]]; [split; reflexivity|].
  assert (Hjoin : str_join EmptyString (f :: flags)
                  = f +:+ str_join EmptyString flags).
  { unfold str_join. destruct flags as [|g flags].
    - cbn [String.concat]. rewrite append_nil_r. reflexivity.
    - reflexivity. }
  rewrite Hjoin. clear Hjoin.
  set (rest := str_join EmptyString flags) in *.
  cbn [In builtin_alternatives] in Hf.
  destruct Hf as [<-|[<-|[<-|[<-|[<-|[<-|[<-|[]]]]]]]].
  - split; [exact IH|reflexivity].
  - split; [exact IH|reflexivity].
  - split; [|reflexivity].
    change (replace_go "Lx" EmptyString O ("L" +:+ rest))
      with (if startswith "x" rest
            then replace_go "Lx" EmptyString 1 rest
            else String "L" (replace_go "Lx" EmptyString O rest)).
    rewrite Hx. exact IH.
  - split; [exact IH|reflexivity].
  - split; [exact IH|reflexivity].
  - split; [exact IH|reflexivity].
  - split; [exact IH|reflexivity].
Qed.

Lemma first_flag_in (flags : list string) (s f : string) :
  first_flag flags s = Some f -> In f flags.
Proof. unfold first_flag. intros H. apply find_some in H as [H _]. exact H. Qed.

Lemma findall_in_alternatives (flags : list string) (n : nat) (s : string) :
  forall skip,
    (String.length s <= n)%nat ->
    Forall (fun f => In f flags) (findall_go flags skip s).
Proof.
  revert s. induction n as [|n IH]; intros s skip Hlen.
  - destruct s; [constructor|simpl in Hlen; lia].
  - destruct s as [|c s]; [constructor|]. simpl in Hlen.
    cbn [findall_go]. destruct skip as [|k]; [|apply IH; lia].
    destruct (first_flag flags (String c s)) as [f|] eqn:Hf;
      [|apply IH; lia].
    constructor; [exact (first_flag_in _ _ _ Hf)|apply IH; lia].
Qed.

(** X11: the two sub-specifications are clean.  With the built-in format
    names registered, the magnitude sub-specification has no flag character
    left, so that the extraction finds nothing in it and a second removal
    changes nothing; and the unit sub-specification is made of flags only, so
    that the removal leaves nothing of it. *)
Theorem sub_specifications_are_clean (_FORMATTERS : dict F) (spec : string) :
  dict_keys _FORMATTERS = builtin_format_names ->
  let mspec := remove_custom_flags _FORMATTERS spec in
  let uspec := extract_custom_flags _FORMATTERS spec in
  flag_free mspec
  /\ extract_custom_flags _FORMATTERS mspec = EmptyString
  /\ remove_custom_flags _FORMATTERS mspec = mspec
  /\ remove_custom_flags _FORMATTERS uspec = EmptyString.
Proof.
  intros Hkeys mspec uspec.
  pose proof (remove_builtin_flag_free _ spec Hkeys) as Hfree.
  fold mspec in Hfree.
  split; [exact Hfree|]. split; [|split].
  - rewrite (extract_custom_flags_builtin _ _ Hkeys),
            (findall_flag_free _ Hfree).
    reflexivity.
  - apply remove_builtin_of_flag_free; assumption.
  - unfold uspec.
    rewrite (extract_custom_flags_builtin _ _ Hkeys),
            (remove_custom_flags_builtin _ _ Hkeys).
    apply remove_flags_of_flags.
    apply (findall_in_alternatives _ (String.length spec)). lia.
Qed.


(** *** The siunitx format, continued *)

Lemma str_find_from_range (sub s : string) :
  forall i, str_find_from i sub s = -1 \/ i <= str_find_from i sub s.
Proof.
  induction s as [|c s IH]; intros i; cbn [str_find_from].
  - destruct (startswith sub EmptyString); [right; lia|left; reflexivity].
  - destruct (startswith sub (String c s)); [right; lia|].
    destruct (IH (i + 1)) as [H|H]; [left; exact H|right; lia].
Qed.

Lemma str_find_at_start (s sub : string) :
  (str_find s sub =? 0) = startswith sub s.
Proof.
  unfold str_find. destruct s as [|c s]; cbn [str_find_from].
  - destruct (startswith sub EmptyString); reflexivity.
  - destruct (startswith sub (String c s)); [reflexivity|].
    destruct (str_find_from_range sub s (0 + 1)) as [H|H];
      apply Z.eqb_neq; lia.
Qed.

Lemma startswith_drop (p s : string) :
  startswith p s = true -> s = p +:+ drop_bytes (String.length p) s.
Proof.
  revert s. induction p as [|a p IH]; intros s H; [reflexivity|].
  destruct s as [|b s]; [discriminate|].
  cbn [startswith] in H. apply andb_true_iff in H as [Hab Hp].
  apply Ascii.eqb_eq in Hab. subst b.
  cbn [String.length drop_bytes]. rewrite append_cons.
  f_equal. exact (IH s Hp).
Qed.

Lemma replace_first_at_start (p s : string) :
  startswith p s = true ->
  str_replace_first s p EmptyString = drop_bytes (String.length p) s.
Proof.
  intros H. destruct s as [|c s]; cbn [str_replace_first]; rewrite H;
    reflexivity.
Qed.

Lemma strip_prefixes_invariant (prefixes : list string) (unit : string) :
  forall acc : option string * string,
    (exists cut, unit = cut +:+ acc.2) ->
    let r := fold_left
               (fun (acc : option string * string) p =>
                  if (0 <? py_len p)%nat && (str_find acc.2 p =? 0)
                  then (Some p, str_replace_first acc.2 p EmptyString)
                  else acc)
               prefixes acc in
    (exists cut, unit = cut +:+ r.2)
    /\ (r.1 = None ->
        acc.1 = None /\ r.2 = acc.2
        /\ Forall (fun p => py_len p = O \/ startswith p acc.2 = false)
                  prefixes)
    /\ (forall p, r.1 = Some p ->
                  acc.1 = Some p \/ (In p prefixes /\ (0 < py_len p)%nat)).
Proof.
  induction prefixes as [|q prefixes IH]; intros acc Hcut; cbn [fold_left].
  - split; [exact Hcut|].
    split; [intros H; repeat split; [exact H|constructor]|].
    intros p Hp. left. exact Hp.
  - rewrite str_find_at_start.
    destruct ((0 <? py_len q)%nat && startswith q acc.2) eqn:Hq.
    + apply andb_true_iff in Hq as [Hlen Hstart].
      rewrite (replace_first_at_start q acc.2 Hstart).
      destruct Hcut as [cut Hcut].
      destruct (IH (Some q, drop_bytes (String.length q) acc.2))
        as (Hc & Hnone & Hsome).
      { exists (cut +:+ q). cbn [snd].
        rewrite append_assoc, <- (startswith_drop q acc.2 Hstart).
        exact Hcut. }
      split; [exact Hc|]. split.
      * intros Hr. destruct (Hnone Hr) as [Habs _]. discriminate.
      * intros p Hp. right. destruct (Hsome p Hp) as [Heq|[Hin Hpos]].
        -- injection Heq as <-.
           split; [left; reflexivity|apply Nat.ltb_lt; exact Hlen].
        -- split; [right; exact Hin|exact Hpos].
    + destruct (IH acc Hcut) as (Hc & Hnone & Hsome).
      split; [exact Hc|]. split.
      * intros Hr. destruct (Hnone Hr) as (Ha & Hr2 & Hall).
        repeat split; [exact Ha|exact Hr2|].
        constructor; [|exact Hall].
        apply andb_false_iff in Hq as [Hlen|Hstart];
          [left; apply Nat.ltb_ge in Hlen; lia|right; exact Hstart].
      * intros p Hp. destruct (Hsome p Hp) as [Heq|[Hin Hpos]];
          [left; exact Heq|right; split; [right; exact Hin|exact Hpos]].
Qed.

Lemma strip_prefixes_no_match (prefixes : list string) (unit : string) :
  Forall (fun p => py_len p = O \/ startswith p unit = false) prefixes ->
  strip_prefixes prefixes unit = (None, unit).
Proof.
  unfold strip_prefixes. induction 1 as [|q prefixes Hq _ IH];
    [reflexivity|].
  cbn [fold_left snd]. rewrite str_find_at_start.
  destruct Hq as [Hlen|Hstart].
  - rewrite Hlen. exact IH.
  - rewrite Hstart, andb_false_r. exact IH.
Qed.

(** X13: what the loop over the prefixes does to a unit name.  The name
    that is printed is the end of the unit name: only a beginning is cut
    off.  A prefix is printed exactly when some prefix that is not empty
    starts the unit name; it is then one of the registry's prefixes.  When no
    such prefix starts the name, the name is printed as it is. *)
Theorem strip_prefixes_cuts_the_beginning (prefixes : list string)
  (unit : string) :
  let r := strip_prefixes prefixes unit in
  (exists cut, unit = cut +:+ r.2)
  /\ (r.1 = None <->
      Forall (fun p => py_len p = O \/ startswith p unit = false) prefixes)
  /\ (r.1 = None -> r.2 = unit)
  /\ (forall p, r.1 = Some p -> In p prefixes /\ (0 < py_len p)%nat).
Proof.
  intros r.
  destruct (strip_prefixes_invariant prefixes unit (None, unit))
    as (Hcut & Hnone & Hsome); [exists EmptyString; reflexivity|].
  fold (strip_prefixes prefixes unit) in Hcut, Hnone, Hsome.
  fold r in Hcut, Hnone, Hsome. cbn [fst snd] in Hnone, Hsome.
  split; [exact Hcut|]. split; [split|split].
  - intros Hr. apply Hnone. exact Hr.
  - intros Hall. unfold r.
    rewrite (strip_prefixes_no_match prefixes unit Hall). reflexivity.
  - intros Hr. apply Hnone. exact Hr.
  - intros p Hp. destruct (Hsome p Hp) as [Habs|H]; [discriminate|exact H].
Qed.

(** *** The pretty exponents *)

Lemma avoids_app (chars s t : string) :
  avoids chars (s +:+ t) = avoids chars s && avoids chars t.
Proof. unfold avoids. rewrite bytes_app. apply forallb_app. Qed.

Lemma avoids_replace (c : ascii) (chars new s : string) :
  avoids (String c chars) new = true ->
  avoids chars s = true ->
  avoids (String c chars) (str_replace s (String c EmptyString) new) = true.
Proof.
  intros Hnew. unfold str_replace. cbn [is_empty].
  induction s as [|a s IH]; intros Hs; [reflexivity|].
  unfold avoids in Hs. cbn [bytes String.list_ascii_of_string forallb] in Hs.
  apply andb_true_iff in Hs as [Ha Hs].
  cbn [replace_go]. rewrite startswith_single.
  cbn [String.length Nat.sub].
  destruct (Ascii.eqb c a) eqn:Hca.
  - rewrite avoids_app, Hnew. exact (IH Hs).
  - unfold avoids. cbn [bytes String.list_ascii_of_string forallb mem_ascii].
    rewrite (Ascii.eqb_sym a c), Hca. cbn [orb]. rewrite Ha.
    exact (IH Hs).
Qed.

Lemma pretty_fmt_exponent_unfold (num : Q) :
  _pretty_fmt_exponent num
  = str_replace (str_replace (str_replace (str_replace (str_replace
      (str_replace (str_replace (str_replace (str_replace (str_replace
      (str_replace (str_replace (format_n num) "-" "⁻") "." "⋅")
      "0" "⁰") "1" "¹") "2" "²") "3" "³") "4" "⁴") "5" "⁵") "6" "⁶")
      "7" "⁷") "8" "⁸") "9" "⁹".
Proof. reflexivity. Qed.

Lemma avoids_all (s : string) : avoids EmptyString s = true.
Proof. unfold avoids. induction (bytes s); [reflexivity|exact IHl]. Qed.

Lemma digit_or_sign (c : ascii) :
  mem_ascii c "9876543210.-" = false ->
  is_digit c = false /\ c <> "-"%char /\ c <> "."%char.
Proof.
  intros H. repeat split.
  - destruct (is_digit c) eqn:Hd; [|reflexivity]. exfalso.
    destruct c as [[] [] [] [] [] [] [] []]; vm_compute in Hd, H;
      congruence.
  - intros ->. discriminate.
  - intros ->. discriminate.
Qed.

(** X14: a pretty exponent has no plain digit left.  Whatever text the
    number is formatted to, [_pretty_fmt_exponent] returns a text without
    ASCII digit, minus sign or full stop: each has been replaced by its
    superscript. *)
Theorem pretty_fmt_exponent_is_superscript (num : Q) (c : ascii) :
  In c (bytes (_pretty_fmt_exponent num)) ->
  is_digit c = false /\ c <> "-"%char /\ c <> "."%char.
Proof.
  intros Hin. apply digit_or_sign.
  assert (Havoid : avoids "9876543210.-" (_pretty_fmt_exponent num) = true).
  { rewrite pretty_fmt_exponent_unfold.
    repeat (apply avoids_replace; [reflexivity|]).
    apply avoids_all. }
  unfold avoids in Havoid. rewrite forallb_forall in Havoid.
  apply negb_true_iff. exact (Havoid c Hin).
Qed.

(** *** Parsing a specification *)

Lemma parse_spec_loop_result (_FORMATTERS : dict F) (chars : list string) :
  forall found r,
    _parse_spec_loop _FORMATTERS chars found = Ok r ->
    r = found
    \/ (In r chars /\ is_format_key _FORMATTERS r = true
        /\ String.eqb r "~" = false /\ in_BASIC_TYPES r = false).
Proof.
  induction chars as [|ch chars IH]; intros found r Hrun;
    cbn [_parse_spec_loop] in Hrun.
  - left. congruence.
  - destruct (String.eqb ch "~" || in_BASIC_TYPES ch) eqn:Hskip.
    + destruct (IH found r Hrun) as [Heq|(Hin & Hrest)];
        [left; exact Heq|right; split; [right; exact Hin|exact Hrest]].
    + apply orb_false_iff in Hskip as [Htilde Hbasic].
      destruct (is_format_key _FORMATTERS ch) eqn:Hkey.
      * destruct (truthy found); [discriminate|].
        right. destruct (IH ch r Hrun) as [->|(Hin & Hrest)].
        -- repeat split; [left; reflexivity|assumption..].
        -- split; [right; exact Hin|exact Hrest].
      * destruct (isalpha ch); [discriminate|].
        left. congruence.
Qed.

Lemma parse_spec_loop_skips (_FORMATTERS : dict F) (chars : list string)
  (found : string) :
  Forall (fun ch => String.eqb ch "~" || in_BASIC_TYPES ch = true) chars ->
  _parse_spec_loop _FORMATTERS chars found = Ok found.
Proof.
  induction 1 as [|ch chars Hch _ IH]; [reflexivity|].
  cbn [_parse_spec_loop]. rewrite Hch. exact IH.
Qed.

(** X15: what [_parse_spec] can return.  When it returns, the result is
    the empty string or one character of the specification that is a
    registered format name, is not the tilde and is no standard presentation
    type; a registered name of several characters is never returned.  A
    specification made of tildes and standard presentation types only gives
    the empty string. *)
Theorem parse_spec_result (_FORMATTERS : dict F) (spec : string) :
  (forall r,
      _parse_spec _FORMATTERS spec = Ok r ->
      r = EmptyString
      \/ (In r (code_points spec) /\ In r (dict_keys _FORMATTERS)
          /\ r <> "~" /\ in_BASIC_TYPES r = false))
  /\ (Forall (fun ch => String.eqb ch "~" || in_BASIC_TYPES ch = true)
             (code_points spec) ->
      _parse_spec _FORMATTERS spec = Ok EmptyString).
Proof.
  unfold _parse_spec. split.
  - intros r Hrun.
    destruct (parse_spec_loop_result _ _ _ _ Hrun)
      as [->|(Hin & Hkey & Htilde & Hbasic)]; [left; reflexivity|right].
    apply String.eqb_neq in Htilde.
    split; [apply in_rev; exact Hin|]. split; [|split; assumption].
    unfold is_format_key in Hkey.
    apply existsb_exists in Hkey as (k & Hk & Heq).
    apply String.eqb_eq in Heq. subst k.
    apply in_app_or in Hk as [Hk|[Hk|[]]]; [exact Hk|congruence].
  - intros Hall. apply parse_spec_loop_skips.
    apply List.Forall_forall. intros ch Hch.
    rewrite List.Forall_forall in Hall. apply Hall, in_rev. exact Hch.
Qed.

(** *** The LaTeX format *)

Lemma latex_escape_cons (c : ascii) (s : string) :
  mem_ascii c latex_special = false ->
  latex_escape (String c s) = String c (latex_escape s).
Proof.
  unfold latex_special. cbn [mem_ascii]. intros H.
  repeat (apply orb_false_iff in H as [?E H]).
  unfold latex_escape. cbn [sub_class mem_ascii].
  rewrite E, orb_false_r, append_cons, append_empty_l.
  cbn [sub_class mem_ascii].
  rewrite E0, orb_false_r, append_cons, append_empty_l.
  cbn [sub_class mem_ascii].
  rewrite E1, orb_false_r, append_cons, append_empty_l.
  cbn [sub_class mem_ascii].
  rewrite E2, E3, E4, E5, E6, E7, E8. reflexivity.
Qed.

Lemma avoids_sub_class (chars class : string) (repl : ascii -> string)
  (s : string) :
  (forall c, mem_ascii c class = true -> avoids chars (repl c) = true) ->
  Forall (fun c => mem_ascii c class = false -> mem_ascii c chars = false)
         (bytes s) ->
  avoids chars (sub_class class repl s) = true.
Proof.
  intros Hrepl. induction s as [|c s IH]; intros Hs; [reflexivity|].
  inversion Hs as [|? ? Hc Hs']; subst.
  cbn [sub_class]. rewrite avoids_app, (IH Hs'), andb_true_r.
  destruct (mem_ascii c class) eqn:Hclass; [apply Hrepl; exact Hclass|].
  unfold avoids. cbn [bytes String.list_ascii_of_string forallb].
  rewrite (Hc eq_refl). reflexivity.
Qed.

Lemma avoids_Forall (chars s : string) :
  avoids chars s = true <->
  Forall (fun c => mem_ascii c chars = false) (bytes s).
Proof.
  unfold avoids. rewrite forallb_forall, List.Forall_forall.
  split; intros H c Hc; specialize (H c Hc).
  - apply negb_true_iff. exact H.
  - rewrite H. reflexivity.
Qed.

(** X16: [latex_escape] leaves a plain name alone and leaves no tilde or
    caret.  A string without any of the ten special characters is returned
    as it is; and whatever the string, the result has neither a tilde nor a
    caret, which have become commands. *)
Theorem latex_escape_plain_and_safe (s : string) :
  (avoids latex_special s = true -> latex_escape s = s)
  /\ avoids "~^" (latex_escape s) = true.
Proof.
  split.
  - induction s as [|c s IH]; intros H; [reflexivity|].
    unfold avoids in H. cbn [bytes String.list_ascii_of_string forallb] in H.
    apply andb_true_iff in H as [Hc Hs]. apply negb_true_iff in Hc.
    rewrite (latex_escape_cons c s Hc), (IH Hs). reflexivity.
  - unfold latex_escape.
    apply avoids_sub_class.
    { intros c Hc. cbn [mem_ascii] in Hc.
      repeat (apply orb_true_iff in Hc as [Hc|Hc];
              [apply Ascii.eqb_eq in Hc; subst c; reflexivity|]).
      discriminate. }
    assert (Hswap : forall x, avoids "^~" x = true -> avoids "~^" x = true).
    { intros x Hx. apply avoids_Forall. apply avoids_Forall in Hx.
      eapply Forall_impl; [exact Hx|].
      intros c Hc. cbn [mem_ascii] in *.
      rewrite orb_false_r in *. rewrite orb_comm. exact Hc. }
    assert (Hstep : avoids "^~"
              (sub_class "^" (fun _ => "\textasciicircum ")
                 (sub_class "~" (fun _ => "\textasciitilde ")
                    (sub_class "\" (fun _ => "\textbackslash ") s))) = true).
    { apply avoids_sub_class; [intros c _; reflexivity|].
      assert (H2 : avoids "~"
                (sub_class "~" (fun _ => "\textasciitilde ")
                   (sub_class "\" (fun _ => "\textbackslash ") s)) = true).
      { apply avoids_sub_class; [intros c _; reflexivity|].
        apply List.Forall_forall. intros c _ Hc. exact Hc. }
      apply avoids_Forall in H2. eapply Forall_impl; [exact H2|].
      intros c Hc Hclass. cbn [mem_ascii] in *.
      rewrite orb_false_r in Hc, Hclass. rewrite Hclass, Hc. reflexivity. }
    apply Hswap, avoids_Forall in Hstep.
    eapply Forall_impl; [exact Hstep|]. intros c Hc _. exact Hc.
Qed.

Lemma latex_templates :
  two_field_template "{}^[{}]"
  /\ joiner " \cdot "
  /\ joiner "\frac[{}][{}]"
  /\ one_field_template "\left({}\right)".
Proof.
  split; [exists EmptyString, "^[", "]"; repeat split|].
  split; [left; reflexivity|].
  split; [right; exists "\frac[", "][", "]"; repeat split|].
  exists "\left(", "\right)". split; [reflexivity|].
  split; [reflexivity|left; reflexivity].
Qed.

(** X17: the LaTeX format returns a string whenever the sort by dimension
    does, and the string has no square bracket.  Without a locale among its
    keyword arguments, [LatexFormatter.formatter] fails on no template; and
    every square bracket of its result, those of the unit names included, has
    become a brace. *)
Theorem latex_formatter_total_and_bracket_free (self : Formatter)
  (unit : list (string * Q)) (registry : option UnitRegistry)
  (options : babel_kwargs) :
  (kw_locale options = None ->
   (exists sorted_units, dim_sort self unit registry = Ok sorted_units) ->
   exists s, LatexFormatter_formatter self unit registry options = Ok s)
  /\ (forall s c,
         LatexFormatter_formatter self unit registry options = Ok s ->
         In c (bytes s) -> c <> "["%char /\ c <> "]"%char).
Proof.
  unfold LatexFormatter_formatter. split.
  - intros Hloc [sorted_units ->]. cbn [bind].
    destruct latex_templates as (Hpow & Hprod & Hdiv & Hpar).
    destruct (formatter_total self
                (List.map (fun item : string * Q =>
                             ("\mathrm{" +:+ latex_escape item.1 +:+ "}",
                              item.2)) sorted_units)
                (latex_options registry options) Hloc Hpow Hprod Hdiv Hpar)
      as [Hmain _].
    destruct Hmain as [s Hs]; [eexists; reflexivity|].
    rewrite Hs. eexists. reflexivity.
  - intros s c Hrun Hin.
    destruct (dim_sort self unit registry) as [sorted_units|e];
      [|discriminate].
    cbn [bind] in Hrun.
    destruct (formatter self _ (latex_options registry options))
      as [formatted|e]; [|discriminate].
    cbn [bind] in Hrun. injection Hrun as <-.
    assert (Havoid : avoids "]["
              (str_replace (str_replace formatted "[" "{") "]" "}") = true).
    { apply avoids_replace; [reflexivity|].
      apply avoids_replace; [reflexivity|apply avoids_all]. }
    apply avoids_Forall in Havoid. rewrite List.Forall_forall in Havoid.
    specialize (Havoid c Hin). cbn [mem_ascii] in Havoid.
    repeat (apply orb_false_iff in Havoid as [?E Havoid]).
    split; intros ->; discriminate.
Qed.

(** *** The other formats *)

Lemma preset_templates :
  two_field_template "{}{}" /\ two_field_template "{}<sup>{}</sup>"
  /\ two_field_template "{} ** {}" /\ two_field_template "{}**{}"
  /\ joiner "{}/{}" /\ one_field_template "({})".
Proof.
  split; [exists EmptyString, EmptyString, EmptyString; repeat split|].
  split; [exists EmptyString, "<sup>", "</sup>"; repeat split|].
  split; [exists EmptyString, " ** ", EmptyString; repeat split|].
  split; [exists EmptyString, "**", EmptyString; repeat split|].
  split; [right; exists EmptyString, "/", EmptyString; repeat split|].
  exists "(", ")". split; [reflexivity|].
  split; [reflexivity|left; reflexivity].
Qed.

(** X18: without a registry and without a locale the pretty, HTML, default
    and compact formats return a string for every unit container: nothing in
    their templates can fail. *)
Theorem preset_formats_total (self : Formatter) (unit : list (string * Q))
  (options : preset_kwargs) :
  kw_locale (kw_babel options) = None ->
  (exists s, format_pretty self unit None options = Ok s)
  /\ (exists s, format_html self unit None options = Ok s)
  /\ (exists s, format_default self unit None options = Ok s)
  /\ (exists s, format_compact self unit None options = Ok s).
Proof.
  intros Hloc.
  destruct preset_templates as (Hp & Hh & Hd & Hc & Hdiv & Hpar).
  repeat split.
  - apply formatter_total; try assumption; try (left; reflexivity).
    reflexivity.
  - apply formatter_total; try assumption; try (left; reflexivity).
    reflexivity.
  - apply formatter_total; try assumption; try (left; reflexivity).
    reflexivity.
  - apply formatter_total; try assumption; try (left; reflexivity).
    reflexivity.
Qed.

(** *** The order of the items *)

Lemma name_lt_trans (a b c : string * Q) :
  name_lt a b -> name_lt b c -> name_lt a c.
Proof.
  unfold name_lt. intros Hab Hbc.
  apply OrderedTypeEx.String_as_OT.cmp_lt.
  apply OrderedTypeEx.String_as_OT.cmp_lt in Hab, Hbc.
  exact (OrderedTypeEx.String_as_OT.lt_trans _ _ _ Hab Hbc).
Qed.

Lemma name_lt_irrefl (a : string * Q) : ~ name_lt a a.
Proof.
  unfold name_lt. intros H.
  assert (He : String.compare a.1 a.1 = Eq)
    by (apply OrderedTypeEx.String_as_OT.cmp_eq; reflexivity).
  congruence.
Qed.

Lemma item_le_name_lt (a b : string * Q) :
  a.1 <> b.1 ->
  (item_le a b = true -> name_lt a b)
  /\ (item_le a b = false -> name_lt b a).
Proof.
  intros Hne. unfold item_le, name_lt.
  pose proof (OrderedTypeEx.String_as_OT.cmp_antisym b.1 a.1) as Hanti.
  unfold OrderedTypeEx.String_as_OT.cmp in Hanti. rewrite Hanti.
  destruct (String.compare a.1 b.1) eqn:Hc.
  - apply OrderedTypeEx.String_as_OT.cmp_eq in Hc. contradiction.
  - split; [reflexivity|discriminate].
  - split; [discriminate|reflexivity].
Qed.

Lemma insert_sorted_by_name (x : string * Q) (l : list (string * Q)) :
  Forall (fun y => x.1 <> y.1) l ->
  StronglySorted name_lt l ->
  StronglySorted name_lt (insert_sorted item_le x l).
Proof.
  intros Hne Hsorted. induction Hsorted as [|y l Hl IH Hy];
    cbn [insert_sorted]; [repeat constructor|].
  inversion Hne as [|? ? Hxy Hne']; subst.
  destruct (item_le_name_lt x y Hxy) as [Hle Hgt].
  destruct (item_le x y).
  - constructor; [constructor; assumption|].
    constructor; [exact (Hle eq_refl)|].
    eapply Forall_impl; [exact Hy|].
    intros z Hz. exact (name_lt_trans _ _ _ (Hle eq_refl) Hz).
  - constructor; [exact (IH Hne')|].
    rewrite (insert_sorted_permutation item_le x l).
    constructor; [exact (Hgt eq_refl)|exact Hy].
Qed.

Lemma sorted_by_name (items : list (string * Q)) :
  List.NoDup (List.map fst items) ->
  StronglySorted name_lt (sorted items).
Proof.
  unfold sorted, sorted_by.
  induction items as [|x items IH]; intros Hnodup; [constructor|].
  cbn [List.map] in Hnodup. inversion Hnodup as [|? ? Hx Hnodup']; subst.
  cbn [fold_right]. apply insert_sorted_by_name; [|exact (IH Hnodup')].
  apply List.Forall_forall. intros y Hy Heq. apply Hx.
  rewrite Heq. apply in_map.
  eapply Permutation_in; [apply sorted_by_permutation|exact Hy].
Qed.

Lemma strongly_sorted_unique (l1 l2 : list (string * Q)) :
  StronglySorted name_lt l1 -> StronglySorted name_lt l2 ->
  Permutation l1 l2 -> l1 = l2.
Proof.
  intros H1. revert l2.
  induction H1 as [|a l1 Hl1 IH Ha]; intros l2 H2 Hperm.
  - apply Permutation_nil in Hperm. congruence.
  - destruct H2 as [|b l2 Hl2 Hb];
      [apply Permutation_sym, Permutation_nil in Hperm; discriminate|].
    assert (Hab : a = b).
    { assert (Hina : In a (b :: l2))
        by (eapply Permutation_in; [exact Hperm|left; reflexivity]).
      assert (Hinb : In b (a :: l1))
        by (eapply Permutation_in;
            [apply Permutation_sym; exact Hperm|left; reflexivity]).
      destruct Hina as [Heq|Hina]; [congruence|].
      destruct Hinb as [Heq|Hinb]; [congruence|].
      rewrite List.Forall_forall in Ha, Hb.
      exfalso. apply (name_lt_irrefl a).
      exact (name_lt_trans _ _ _ (Ha b Hinb) (Hb a Hina)). }
    subst b. f_equal. apply IH; [exact Hl2|].
    exact (Permutation_cons_inv Hperm).
Qed.

Lemma sorted_of_permutation (items items' : list (string * Q)) :
  List.NoDup (List.map fst items) ->
  Permutation items items' ->
  sorted items = sorted items'.
Proof.
  intros Hnodup Hperm.
  apply strongly_sorted_unique.
  - apply sorted_by_name. exact Hnodup.
  - apply sorted_by_name.
    eapply Permutation_NoDup; [|exact Hnodup].
    apply Permutation_map. exact Hperm.
  - unfold sorted. rewrite !sorted_by_permutation. exact Hperm.
Qed.

(** X19: with [sort] the order of the items does not matter.  For items
    whose unit names are all different, as those of a unit container are,
    [formatter] with [sort] true gives the same result, string or error, for
    every order in which the items are given; the terms are then in the
    order of the names. *)
Theorem formatter_order_independent (self : Formatter)
  (items items' : list (string * Q)) (o : formatter_options) :
  sort o = true ->
  List.NoDup (List.map fst items) ->
  Permutation items items' ->
  formatter self items o = formatter self items' o
  /\ StronglySorted name_lt (sorted items).
Proof.
  intros Hsort Hnodup Hperm. split; [|apply sorted_by_name; exact Hnodup].
  unfold formatter, collect_terms, ordered_items. rewrite Hsort.
  rewrite (sorted_of_permutation items items' Hnodup Hperm).
  destruct items as [|x items], items' as [|y items']; try reflexivity.
  - apply Permutation_nil in Hperm. discriminate.
  - apply Permutation_sym, Permutation_nil in Hperm. discriminate.
Qed.

Lemma classify_positive (o : formatter_options) (st st' : loop_state)
  (key : string) (value : Q) :
  (0 < value)%Q ->
  classify o st key value = Ok st' ->
  neg_terms st' = neg_terms st.
Proof.
  intros Hpos. unfold classify.
  assert (Hle : Qle_bool value 0 = false)
    by (apply Qle_bool_false; exact Hpos).
  rewrite Hle. cbn [negb].
  destruct (Qeq_bool value 1).
  - intros H. injection H as <-. reflexivity.
  - destruct (str_format _ _) as [term|e]; cbn [bind]; intros H;
      [injection H as <-; reflexivity|discriminate].
Qed.

Lemma loop_positive (o : formatter_options) (items : list (string * Q)) :
  Forall (fun item => (0 < item.2)%Q) items ->
  forall st st',
    for_each (formatter_body o) items st = Ok st' ->
    neg_terms st' = neg_terms st.
Proof.
  induction 1 as [|[key value] items Hitem _ IH]; intros st st' Hrun.
  - simpl in Hrun. injection Hrun as <-. reflexivity.
  - cbn [for_each] in Hrun.
    destruct (formatter_body o st (key, value)) as [st1|e] eqn:Hbody;
      [|discriminate].
    cbn [bind] in Hrun. rewrite (IH st1 st' Hrun).
    rewrite formatter_body_unfold in Hbody.
    rewrite (classify_positive _ _ _ _ _ Hitem Hbody).
    apply localise_terms.
Qed.

Lemma formatter_positive (self : Formatter) (items : list (string * Q))
  (o : formatter_options) :
  items <> [] ->
  as_ratio o = true ->
  Forall (fun item => (0 < item.2)%Q) items ->
  formatter self items o
  = (let? st := collect_terms self items o in
     let? pos_ret := _join (product_fmt o) (pos_terms st) in
     Ok (if truthy pos_ret then pos_ret else "1")).
Proof.
  intros Hitems Hratio Hall.
  destruct items as [|item items]; [congruence|].
  unfold formatter. rewrite Hratio. cbn [negb].
  destruct (collect_terms self (item :: items) o) as [st|e] eqn:Hcollect;
    [|reflexivity].
  cbn [bind].
  assert (Hneg : neg_terms st = []).
  { unfold collect_terms in Hcollect.
    destruct (ordered_items self (item :: items) o) as [ordered|e] eqn:Hord;
      [|discriminate].
    cbn [bind] in Hcollect.
    assert (Hordered : Forall (fun item => (0 < item.2)%Q) ordered).
    { apply List.Forall_forall. intros x Hx.
      pose proof (ordered_items_subset _ _ _ _ Hord x Hx) as Hin.
      rewrite List.Forall_forall in Hall. exact (Hall x Hin). }
    exact (loop_positive o ordered Hordered _ _ Hcollect). }
  rewrite Hneg. reflexivity.
Qed.

(** X20: a unit expression of positive powers only is a product.  In ratio
    mode, when every item has an exponent above 0, [formatter] returns the
    positive terms joined by the product template, or ["1"] when that is
    empty; the division and the parentheses templates are not used: the
    result is the same whatever these two templates are. *)
Theorem formatter_without_denominator (self : Formatter)
  (items : list (string * Q)) (o : formatter_options) :
  items <> [] ->
  as_ratio o = true ->
  Forall (fun item => (0 < item.2)%Q) items ->
  formatter self items o
  = (let? st := collect_terms self items o in
     let? pos_ret := _join (product_fmt o) (pos_terms st) in
     Ok (if truthy pos_ret then pos_ret else "1"))
  /\ forall division parentheses : string,
       formatter self items
         (with_division_fmt (with_parentheses_fmt o parentheses) division)
       = formatter self items o.
Proof.
  intros Hitems Hratio Hall.
  split; [exact (formatter_positive self items o Hitems Hratio Hall)|].
  intros division parentheses.
  rewrite (formatter_positive self items
             (with_division_fmt (with_parentheses_fmt o parentheses) division)
             Hitems Hratio Hall).
  rewrite (formatter_positive self items o Hitems Hratio Hall).
  pose proof (collect_terms_division_irrelevant self items
                (with_parentheses_fmt o parentheses) division) as H.
  change (collect_terms self items (with_parentheses_fmt o parentheses))
    with (collect_terms self items o) in H.
  cbn [with_division_fmt with_parentheses_fmt product_fmt].
  destruct (collect_terms self items o) as [st|e],
           (collect_terms self items
              (with_division_fmt (with_parentheses_fmt o parentheses)
                                 division)) as [st'|e'];
    cbn [same_outcome bind] in *; try contradiction.
  - destruct H as (_ & _ & Hpos & _). rewrite Hpos. reflexivity.
  - congruence.
Qed.

(** *** Sorting twice *)

Lemma filter_flat_map {A B : Type} (p : B -> bool) (f : A -> list B)
  (l : list A) :
  List.filter p (flat_map f l) = flat_map (fun x => List.filter p (f x)) l.
Proof.
  induction l as [|x l IH]; [reflexivity|].
  cbn [flat_map]. rewrite List.filter_app, IH. reflexivity.
Qed.

Lemma filter_other_bucket (self : Formatter) (reg : UnitRegistry)
  (dim dim' : string) (items : list (string * Q)) :
  dim <> dim' ->
  List.filter (in_bucket self reg dim)
              (List.filter (in_bucket self reg dim') items) = [].
Proof.
  intros Hne. induction items as [|item items IH]; [reflexivity|].
  cbn [List.filter]. unfold in_bucket at 2.
  destruct (bool_decide (bucket_of self reg item = Some dim')) eqn:Hb;
    [|exact IH].
  cbn [List.filter]. unfold in_bucket at 1.
  apply bool_decide_eq_true in Hb.
  rewrite bool_decide_eq_false_2 by congruence. exact IH.
Qed.

Lemma filter_same_bucket {A : Type} (p : A -> bool) (l : list A) :
  List.filter p (List.filter p l) = List.filter p l.
Proof.
  induction l as [|x l IH]; [reflexivity|].
  cbn [List.filter]. destruct (p x) eqn:Hp; [|exact IH].
  cbn [List.filter]. rewrite Hp, IH. reflexivity.
Qed.

Lemma flat_map_one_bucket (self : Formatter) (reg : UnitRegistry)
  (dim : string) (items : list (string * Q)) (dims : list string) :
  NoDup dims ->
  flat_map (fun dim' =>
              List.filter (in_bucket self reg dim)
                          (List.filter (in_bucket self reg dim') items))
           dims
  = if bool_decide (dim ∈ dims)
    then List.filter (in_bucket self reg dim) items else [].
Proof.
  induction 1 as [|d dims Hnotin Hnodup IH]; [reflexivity|].
  cbn [flat_map]. rewrite IH.
  destruct (decide (dim = d)) as [->|Hne].
  - rewrite filter_same_bucket.
    rewrite (bool_decide_eq_false_2 (d ∈ dims)) by exact Hnotin.
    rewrite bool_decide_eq_true_2 by left.
    apply app_nil_r.
  - rewrite (filter_other_bucket self reg dim d items Hne). cbn [app].
    destruct (decide (dim ∈ dims)) as [Hin|Hnin].
    + rewrite !bool_decide_eq_true_2; [reflexivity|right; exact Hin|exact Hin].
    + rewrite !bool_decide_eq_false_2; [reflexivity| |exact Hnin].
      intros Hin. inversion Hin; subst; [congruence|contradiction].
Qed.

Lemma by_buckets_idempotent (self : Formatter) (reg : UnitRegistry)
  (items : list (string * Q)) :
  NoDup (dim_order self) ->
  by_buckets self reg (by_buckets self reg items) = by_buckets self reg items.
Proof.
  intros Hnodup. unfold by_buckets at 1 3.
  assert (Hall : forall dims',
             (forall d, In d dims' -> d ∈ dim_order self) ->
             flat_map
               (fun dim => List.filter (in_bucket self reg dim)
                                       (by_buckets self reg items)) dims'
             = flat_map
                 (fun dim => List.filter (in_bucket self reg dim) items)
                 dims').
  { induction dims' as [|d dims' IH]; intros Hsub; [reflexivity|].
    cbn [flat_map]. rewrite IH by (intros d' Hd'; apply Hsub; right; exact Hd').
    f_equal. unfold by_buckets. rewrite filter_flat_map.
    rewrite (flat_map_one_bucket self reg d items (dim_order self) Hnodup).
    rewrite bool_decide_eq_true_2; [reflexivity|].
    apply Hsub. left. reflexivity. }
  apply Hall. intros d Hd. apply list_elem_of_In. exact Hd.
Qed.

(** X21: sorting by dimension twice changes nothing.  When the configured
    order names no dimension twice, the list that [dim_sort] returns is
    returned as it is by a second [dim_sort]. *)
Theorem dim_sort_idempotent (self : Formatter) (reg : UnitRegistry)
  (items : list (string * Q)) :
  NoDup (dim_order self) ->
  (2 <= length items)%nat ->
  Forall (fun item => sortable self reg item.1) items ->
  exists ret,
    dim_sort self items (Some reg) = Ok ret
    /\ dim_sort self ret (Some reg) = Ok ret.
Proof.
  intros Hnodup Hlen Hall.
  pose proof (dim_sort_by_buckets self reg items Hlen Hall) as Hsort.
  exists (by_buckets self reg items). split; [exact Hsort|].
  destruct (le_lt_dec 2 (length (by_buckets self reg items))) as [Hlen'|Hlen'].
  - rewrite dim_sort_by_buckets; [|exact Hlen'|].
    + rewrite (by_buckets_idempotent self reg items Hnodup). reflexivity.
    + apply List.Forall_forall. intros item Hin.
      pose proof (dim_sort_subset _ _ _ _ Hsort item Hin) as Hin'.
      rewrite List.Forall_forall in Hall. exact (Hall item Hin').
  - unfold dim_sort.
    destruct (length (by_buckets self reg items) <=? 1)%nat eqn:Hle;
      [reflexivity|apply Nat.leb_gt in Hle; lia].
Qed.

(** X22: the siunitx format does not depend on the order of the units.
    For units whose names are all different, [siunitx_format_unit] returns
    the same string for every order in which they are given. *)
Theorem siunitx_order_independent (units units' : list (string * Q))
  (reg : UnitRegistry) :
  List.NoDup (List.map fst units) ->
  Permutation units units' ->
  siunitx_format_unit units reg = siunitx_format_unit units' reg.
Proof.
  intros Hnodup Hperm. unfold siunitx_format_unit.
  rewrite (sorted_of_permutation units units' Hnodup Hperm). reflexivity.
Qed.

End Formatting.

(** ** The properties at concrete inputs *)

(** C1 does not hold as the specification words it: exponent one half lies
    strictly between 0 and 1, and the code puts its power among the positive
    terms, not among the negative ones. *)
Lemma formatter_body_fraction_is_positive :
  let o := default_options render_half in
  let st := initial_state o in
  ((0 < 1 # 2)%Q /\ (1 # 2 < 1)%Q)
  /\ formatter_body render_half no_babel_units [] o st ("meter", 1 # 2)
     = Ok (append_pos st "meter ** 0.5")
  /\ classify_as_specified o st "meter" (1 # 2)
     = Ok (append_neg st "meter ** 0.5")
  /\ formatter_body render_half no_babel_units [] o st ("meter", 1 # 2)
     <> classify_as_specified o st "meter" (1 # 2).
Proof.
  intros o st. repeat split.
  intros H.
  apply (f_equal (fun r => match r with
                           | Ok s => pos_terms s
                           | Raise _ => []
                           end)) in H.
  vm_compute in H. discriminate H.
Qed.

Lemma formatter_body_classifies_witness :
  let o := localised_options in
  let st := initial_state o in
  (0 < 2)%Q /\ ~ (2 == 1)%Q
  /\ formatter_body render_integral example_babel_units [] o st
       ("meter", 2%Q)
     = Ok (append_pos
             (localise render_integral example_babel_units [] o st
                "meter" 2%Q).2
             ("mètres" +:+ "²")).
Proof.
  intros o st.
  assert (Hpos : (0 < 2)%Q) by reflexivity.
  assert (Hne : ~ (2 == 1)%Q)
    by (intros H; vm_compute in H; discriminate H).
  split; [exact Hpos|split; [exact Hne|]].
  exact (proj1 (proj2 (proj1 (formatter_body_classifies render_integral
                                example_babel_units [] o st "meter" 2%Q)))
               Hpos Hne).
Defined.

(** C2 does not hold as the specification words it: with [sort] at its
    default the denominator is in the order of the names, [gram] before
    [second]. *)
Lemma formatter_example_is_sorted :
  formatter render_integral no_babel_units [] Formatter_init
    meter_per_second_gram (single_denominator_options render_integral)
  = Ok "meter / (gram * second)"
  /\ formatter render_integral no_babel_units [] Formatter_init
       meter_per_second_gram (single_denominator_options render_integral)
     <> Ok "meter / (second * gram)".
Proof. split; [reflexivity|]. intros H. vm_compute in H. discriminate H. Qed.

(** C4 does not hold as the specification words it: the text of the
    division template occurs in the result when the product template brings
    it in. *)
Lemma formatter_product_has_division_text :
  let o := product_options render_integral in
  formatter render_integral no_babel_units [] Formatter_init
    [("meter", 1%Q); ("second", (-1)%Q)] o
  = Ok "meter * second ** -1"
  /\ contains (division_fmt o) "meter * second ** -1" = true.
Proof. split; reflexivity. Qed.

Lemma formatter_as_product_witness :
  let items := [("meter", 1%Q); ("second", (-1)%Q)] in
  let o := product_options render_integral in
  items <> [] /\ as_ratio o = false
  /\ formatter render_integral no_babel_units [] Formatter_init items
       (with_division_fmt o " / ")
     = formatter render_integral no_babel_units [] Formatter_init items o.
Proof.
  intros items o.
  assert (Hitems : items <> []) by discriminate.
  split; [exact Hitems|split; [reflexivity|]].
  apply (formatter_as_product render_integral no_babel_units []
           Formatter_init items o Hitems eq_refl).
Defined.

(** C5 does not hold as the specification words it: [split_format] fills an
    empty unit sub-specification from the default, and the two parts then
    have a character that the specification has not. *)
Lemma split_format_fills_in_default :
  let parts := (split_format string builtin_registry ".2f" "P" (Some true)).1 in
  parts = (".2f", "P")
  /\ ~ Permutation (bytes (parts.1 +:+ parts.2)) (bytes ".2f").
Proof.
  split; [reflexivity|].
  intros H. apply Permutation_length in H. vm_compute in H. discriminate H.
Qed.

(** With other names registered even the two parts of the specification
    itself need not have its characters: for the names [ab] and [ca] and the
    specification [cab], the extraction finds [ca] and the removal, which
    deletes [ab] first, keeps [c]. *)
Lemma round_trip_needs_builtin_names :
  let registered : dict string := [("ab", "f"); ("ca", "g")] in
  extract_custom_flags string registered "cab" = "ca"
  /\ remove_custom_flags string registered "cab" = "c".
Proof. split; reflexivity. Qed.

Lemma split_format_round_trip_witness :
  dict_keys builtin_registry = builtin_format_names
  /\ Permutation
       (bytes (remove_custom_flags string builtin_registry ".2fLx~"
               +:+ extract_custom_flags string builtin_registry ".2fLx~"))
       (bytes ".2fLx~")
  /\ (split_format string builtin_registry ".2fLx~" "P" None).1
     = (".2f", "Lx~")
  /\ (split_format string builtin_registry ".2f" "~P" (Some true)).1
     = (".2f", "~P").
Proof.
  split; [reflexivity|].
  destruct (split_format_round_trip string builtin_registry ".2fLx~" "P"
              None eq_refl) as (Hchars & Hkept & _).
  destruct (split_format_round_trip string builtin_registry ".2f" "~P"
              (Some true) eq_refl) as (_ & _ & Hfilled).
  split; [exact Hchars|]. split.
  - apply Hkept. left. split; reflexivity.
  - apply Hfilled. left. reflexivity.
Defined.

Lemma dim_sort_lookup_error_witness :
  let items := [("second", 1%Q); ("weird", (-1)%Q); ("meter", 1%Q)] in
  exists before unit_name unit_exponent after msg,
    items = before ++ (unit_name, unit_exponent) :: after
    /\ Forall (fun item => sortable Formatter_init example_registry item.1)
              before
    /\ unrecognised Formatter_init example_registry unit_name
    /\ dim_sort Formatter_init items (Some example_registry)
       = Raise (KeyError msg)
    /\ KeyError msg
       = no_recognized_dimensions unit_name
           (get_name example_registry unit_name)
    /\ contains unit_name msg = true.
Proof.
  intros items.
  apply (proj1 (dim_sort_lookup_error Formatter_init example_registry items)).
  - simpl. lia.
  - right. left. split; [discriminate|].
    apply (bool_decide_unpack _). vm_compute. exact I.
Defined.

Lemma register_unit_format_duplicate_witness :
  dict_get builtin_registry "P" = Some "format_pretty"
  /\ register_unit_format string repr_plain "P" "other" builtin_registry
     = (Raise (ValueError "format 'P' already exists"), builtin_registry).
Proof.
  split; [reflexivity|].
  apply (register_unit_format_duplicate string repr_plain "P" "other"
           "format_pretty" builtin_registry eq_refl).
Defined.

(** C9 does not hold as the specification words it: a single pair whose
    unit has no canonical name is not passed over; [dim_sort] returns the
    list as it is, the pair in it. *)
Lemma dim_sort_keeps_single_unresolved :
  let items := [("count", 1%Q)] in
  unresolved example_registry "count"
  /\ dim_sort Formatter_init items (Some example_registry) = Ok items
  /\ (forall ret,
         dim_sort Formatter_init items (Some example_registry) = Ok ret ->
         ("count", 1%Q) ∈ ret /\ Permutation items ret).
Proof.
  intros items. split; [reflexivity|]. split; [reflexivity|].
  intros ret Hret. injection Hret as <-.
  split; [left|reflexivity].
Qed.

Lemma dim_sort_omits_unresolved_witness :
  let items := [("count", 1%Q); ("meter", 1%Q); ("second", (-1)%Q)] in
  exists ret,
    dim_sort Formatter_init items (Some example_registry) = Ok ret
    /\ (("count", 1%Q) ∉ ret)
    /\ ~ Permutation items ret.
Proof.
  intros items.
  assert (Hlen : (2 <= length items)%nat) by (simpl; lia).
  assert (Hall : Forall (fun item =>
                           sortable Formatter_init example_registry item.1)
                        items).
  { unfold sortable, unresolved.
    apply (bool_decide_unpack _). vm_compute. exact I. }
  destruct (proj1 (dim_sort_omits_unresolved Formatter_init example_registry
                     items) Hlen Hall)
    as (ret_dict & ret & _ & Hsort & _ & Hout & Hperm).
  exists ret. split; [exact Hsort|split].
  - apply Hout. reflexivity.
  - apply (Hperm ("count", 1%Q)); [left|reflexivity].
Defined.

(** ** The further properties at concrete inputs *)

Lemma join_template_as_separator_witness :
  brace_free " * " = true
  /\ _join "{} * {}" ["a"; "b"; "c"] = Ok "a * b * c"
  /\ _join " * " ["a"; "b"; "c"] = Ok "a * b * c".
Proof.
  split; [reflexivity|].
  apply (join_template_as_separator " * " ["a"; "b"; "c"] eq_refl).
Defined.

Lemma register_unit_format_new_witness :
  dict_get builtin_registry "X" = None
  /\ exists registered,
       register_unit_format string repr_plain "X" "format_x" builtin_registry
       = (Ok tt, registered)
       /\ dict_get registered "X" = Some "format_x"
       /\ (forall other, other <> "X" ->
                         dict_get registered other
                         = dict_get builtin_registry other)
       /\ dict_keys registered = dict_keys builtin_registry ++ ["X"].
Proof.
  split; [reflexivity|].
  apply (register_unit_format_new string repr_plain "X" "format_x"
           builtin_registry eq_refl).
Defined.

Lemma format_unit_dispatch_witness :
  let call (f : string) (args : list positional_arg)
           (registry : option UnitRegistry) (options : unit) :=
    Ok (f +:+ " was called") in
  let registered :=
    (register_unit_format string repr_plain "X" "format_x"
       builtin_registry).2 in
  format_unit string unit call registered [("meter", 1%Q)] "X" tt
  = Ok "format_x was called".
Proof.
  intros call registered.
  assert (Hunit : [("meter", 1%Q)] <> []) by discriminate.
  assert (Hname : "X" <> EmptyString) by discriminate.
  exact (proj1 (proj1 (format_unit_dispatch string unit call repr_plain
                         Formatter_init "X" "format_x" builtin_registry
                         [("meter", 1%Q)] None tt Hunit)
                      eq_refl Hname)).
Defined.

Lemma dim_sort_by_buckets_witness :
  let items := [("second", (-1)%Q); ("count", 1%Q); ("meter", 1%Q)] in
  dim_sort Formatter_init items (Some example_registry)
  = Ok [("meter", 1%Q); ("second", (-1)%Q)].
Proof.
  intros items.
  assert (Hlen : (2 <= length items)%nat) by (simpl; lia).
  assert (Hall : Forall (fun item =>
                           sortable Formatter_init example_registry item.1)
                        items).
  { unfold sortable, unresolved.
    apply (bool_decide_unpack _). vm_compute. exact I. }
  exact (dim_sort_by_buckets Formatter_init example_registry items Hlen Hall).
Defined.

Lemma dim_sort_permutation_witness :
  let items := [("second", (-1)%Q); ("count", 1%Q); ("meter", 1%Q)] in
  exists ret,
    dim_sort Formatter_init items (Some example_registry) = Ok ret
    /\ Permutation ret [("second", (-1)%Q); ("meter", 1%Q)].
Proof.
  intros items.
  assert (Hnodup : NoDup (dim_order Formatter_init)).
  { apply (bool_decide_unpack _). vm_compute. exact I. }
  assert (Hlen : (2 <= length items)%nat) by (simpl; lia).
  assert (Hall : Forall (fun item =>
                           sortable Formatter_init example_registry item.1)
                        items).
  { unfold sortable, unresolved.
    apply (bool_decide_unpack _). vm_compute. exact I. }
  exact (dim_sort_permutation Formatter_init example_registry items
           Hnodup Hlen Hall).
Defined.

Lemma formatter_one_term_per_item_witness :
  let o := default_options render_integral in
  exists st ordered,
    collect_terms render_integral no_babel_units [] Formatter_init
      meter_per_second_gram o = Ok st
    /\ ordered_items Formatter_init meter_per_second_gram o = Ok ordered
    /\ (length (pos_terms st) + length (neg_terms st) = length ordered)%nat
    /\ Permutation ordered meter_per_second_gram.
Proof.
  intros o.
  assert (Hrun : exists st,
             collect_terms render_integral no_babel_units [] Formatter_init
               meter_per_second_gram o = Ok st)
    by (eexists; reflexivity).
  destruct Hrun as [st Hst].
  destruct (formatter_one_term_per_item render_integral no_babel_units []
              Formatter_init meter_per_second_gram o st Hst)
    as (ordered & Hord & Hlen & Hperm).
  exists st, ordered. repeat split; try assumption.
  apply Hperm. left. reflexivity.
Defined.

Lemma formatter_total_witness :
  exists s,
    formatter render_integral no_babel_units [] Formatter_init
      meter_per_second_gram (single_denominator_options render_integral)
    = Ok s.
Proof.
  apply (formatter_total render_integral no_babel_units [] Formatter_init
           meter_per_second_gram
           (single_denominator_options render_integral)); try reflexivity.
  - exists EmptyString, " ** ", EmptyString. repeat split.
  - left. reflexivity.
  - left. reflexivity.
  - exists "(", ")". repeat split. left. reflexivity.
Defined.

Lemma formatter_reciprocal_witness :
  let items := [("second", (-1)%Q); ("gram", (-2)%Q)] in
  let o := default_options render_integral in
  formatter render_integral no_babel_units [] Formatter_init items o
  = Ok "1 / gram ** 2 / second"
  /\ exists st,
       collect_terms render_integral no_babel_units [] Formatter_init items o
       = Ok st
       /\ pos_terms st = []
       /\ "1 / gram ** 2 / second"
          = str_join (division_fmt o) ("1" :: neg_terms st).
Proof.
  intros items o.
  assert (Hrun : formatter render_integral no_babel_units [] Formatter_init
                   items o = Ok "1 / gram ** 2 / second") by reflexivity.
  split; [exact Hrun|].
  assert (Hitems : items <> []) by discriminate.
  assert (Hall : Forall (fun item : string * Q => (item.2 <= 0)%Q) items)
    by (repeat constructor; discriminate).
  destruct (formatter_reciprocal render_integral no_babel_units []
              Formatter_init items o "1 / gram ** 2 / second"
              Hitems eq_refl eq_refl eq_refl Hall Hrun)
    as (st & Hcollect & Hpos & _ & Hjoin).
  exists st. split; [exact Hcollect|]. split; [exact Hpos|].
  apply Hjoin. reflexivity.
Defined.

Lemma single_denominator_needs_two_terms_witness :
  let items := [("meter", 1%Q); ("second", (-2)%Q)] in
  let o := default_options render_integral in
  formatter render_integral no_babel_units [] Formatter_init items
    (with_single_denominator o true)
  = formatter render_integral no_babel_units [] Formatter_init items o.
Proof.
  intros items o.
  apply (single_denominator_needs_two_terms render_integral no_babel_units
           [] Formatter_init items o true).
  right. intros st Hst. vm_compute in Hst. injection Hst as <-.
  simpl. lia.
Defined.

Lemma localisation_is_sticky_witness :
  let o := localised_options in
  let st := (localise render_integral example_babel_units [] o
               (initial_state o) "meter" 1%Q).2 in
  localisable example_babel_units o "meter"
  /\ formatter_body render_integral example_babel_units [] o st
       ("second", 2%Q)
     = Ok (append_pos st ("second" +:+ "²")).
Proof.
  intros o st.
  assert (Hloc : localisable example_babel_units o "meter").
  { repeat split; try discriminate; eexists; reflexivity. }
  split; [exact Hloc|].
  destruct (localisation_is_sticky render_integral example_babel_units []
              o (initial_state o)) as (Hfirst & _ & _).
  destruct (localisation_is_sticky render_integral example_babel_units []
              o st) as (_ & _ & Hlater).
  apply (Hlater "second" 2%Q).
  - apply (Hfirst "meter" 1%Q). exact Hloc.
  - reflexivity.
  - reflexivity.
  - intros H. vm_compute in H. discriminate H.
Defined.

Lemma sub_specifications_are_clean_witness :
  remove_custom_flags string builtin_registry ".2fLx~" = ".2f"
  /\ extract_custom_flags string builtin_registry ".2f" = EmptyString
  /\ remove_custom_flags string builtin_registry
       (extract_custom_flags string builtin_registry ".2fLx~")
     = EmptyString.
Proof.
  destruct (sub_specifications_are_clean string builtin_registry ".2fLx~"
              eq_refl) as (_ & Hextract & _ & Hremove).
  split; [reflexivity|]. split; [exact Hextract|exact Hremove].
Defined.


Lemma strip_prefixes_cuts_the_beginning_witness :
  strip_prefixes ["kilo"; "milli"] "kilometer" = (Some "kilo", "meter")
  /\ (exists cut, "kilometer" = cut +:+ "meter")
  /\ In "kilo" ["kilo"; "milli"].
Proof.
  destruct (strip_prefixes_cuts_the_beginning ["kilo"; "milli"] "kilometer")
    as (Hcut & _ & _ & Hsome).
  split; [reflexivity|]. split; [exact Hcut|].
  exact (proj1 (Hsome "kilo" eq_refl)).
Defined.

Lemma pretty_fmt_exponent_is_superscript_witness :
  _pretty_fmt_exponent render_integral (-12)%Q = "⁻¹²"
  /\ forall c, In c (bytes "⁻¹²") ->
               is_digit c = false /\ c <> "-"%char /\ c <> "."%char.
Proof.
  split; [reflexivity|]. intros c Hc.
  apply (pretty_fmt_exponent_is_superscript render_integral (-12)%Q c).
  exact Hc.
Defined.

Lemma parse_spec_result_witness :
  _parse_spec string no_letter builtin_registry ".2fP" = Ok "P"
  /\ ("P" = EmptyString
      \/ (In "P" (code_points ".2fP") /\ In "P" (dict_keys builtin_registry)
          /\ "P" <> "~" /\ in_BASIC_TYPES "P" = false))
  /\ _parse_spec string no_letter builtin_registry "~s%" = Ok EmptyString.
Proof.
  destruct (parse_spec_result string no_letter builtin_registry ".2fP")
    as [Hresult _].
  destruct (parse_spec_result string no_letter builtin_registry "~s%")
    as [_ Hskip].
  split; [reflexivity|]. split; [apply Hresult; reflexivity|].
  apply Hskip. repeat constructor.
Defined.

Lemma latex_escape_plain_and_safe_witness :
  avoids latex_special "meter" = true
  /\ latex_escape "meter" = "meter"
  /\ latex_escape "a_b~c" = "a\_b\textasciitilde c".
Proof.
  split; [reflexivity|]. split; [|reflexivity].
  apply (proj1 (latex_escape_plain_and_safe "meter")). reflexivity.
Defined.

Lemma latex_formatter_total_and_bracket_free_witness :
  let options := {| kw_locale := None; kw_babel_length := None;
                    kw_babel_plural_form := None |} in
  LatexFormatter_formatter render_integral no_babel_units [] Formatter_init
    [("meter", 1%Q); ("second", (-2)%Q)] None options
  = Ok "\frac{\mathrm{meter}}{\mathrm{second}^{2}}"
  /\ exists s,
       LatexFormatter_formatter render_integral no_babel_units []
         Formatter_init [("meter", 1%Q); ("second", (-2)%Q)] None options
       = Ok s.
Proof.
  intros options. split; [reflexivity|].
  apply (proj1 (latex_formatter_total_and_bracket_free render_integral
                  no_babel_units [] Formatter_init
                  [("meter", 1%Q); ("second", (-2)%Q)] None options)).
  - reflexivity.
  - eexists. reflexivity.
Defined.

Lemma preset_formats_total_witness :
  (exists s,
      format_pretty render_integral no_babel_units [] Formatter_init
        [("meter", 1%Q); ("second", (-2)%Q)] None no_kwargs = Ok s)
  /\ format_pretty render_integral no_babel_units [] Formatter_init
       [("meter", 1%Q); ("second", (-2)%Q)] None no_kwargs
     = Ok "meter/second²".
Proof.
  split; [|reflexivity].
  apply (proj1 (preset_formats_total render_integral no_babel_units []
                  Formatter_init [("meter", 1%Q); ("second", (-2)%Q)]
                  no_kwargs eq_refl)).
Defined.

Lemma formatter_order_independent_witness :
  let o := default_options render_integral in
  formatter render_integral no_babel_units [] Formatter_init
    [("second", (-1)%Q); ("meter", 1%Q)] o
  = formatter render_integral no_babel_units [] Formatter_init
      [("meter", 1%Q); ("second", (-1)%Q)] o.
Proof.
  intros o.
  apply (proj1 (formatter_order_independent render_integral no_babel_units
                  [] Formatter_init [("second", (-1)%Q); ("meter", 1%Q)]
                  [("meter", 1%Q); ("second", (-1)%Q)] o eq_refl
                  ltac:(repeat constructor; simpl; intuition discriminate)
                  (perm_swap _ _ _))).
Defined.

Lemma formatter_without_denominator_witness :
  let items := [("meter", 2%Q); ("gram", 1%Q)] in
  let o := default_options render_integral in
  formatter render_integral no_babel_units [] Formatter_init items o
  = (let? st := collect_terms render_integral no_babel_units []
                  Formatter_init items o in
     let? pos_ret := _join (product_fmt o) (pos_terms st) in
     Ok (if truthy pos_ret then pos_ret else "1"))
  /\ formatter render_integral no_babel_units [] Formatter_init items
       (with_division_fmt (with_parentheses_fmt o "[{}]") " per ")
     = Ok "gram * meter ** 2".
Proof.
  intros items o.
  assert (Hitems : items <> []) by discriminate.
  assert (Hall : Forall (fun item : string * Q => (0 < item.2)%Q) items)
    by (repeat constructor).
  destruct (formatter_without_denominator render_integral no_babel_units []
              Formatter_init items o Hitems eq_refl Hall) as [Hform Hsame].
  split; [exact Hform|].
  rewrite (Hsame " per " "[{}]"). reflexivity.
Defined.

Lemma tothe_integral_witness :
  _tothe 2 = "\squared" /\ _tothe 5 = "\tothe{5}".
Proof.
  destruct (tothe_integral 2) as (_ & Hsquared & _).
  destruct (tothe_integral 5) as (_ & _ & _ & Hother).
  split; [apply Hsquared; reflexivity|].
  apply Hother; [reflexivity|discriminate..].
Defined.

Lemma dim_sort_idempotent_witness :
  let items := [("second", (-1)%Q); ("count", 1%Q); ("meter", 1%Q)] in
  exists ret,
    dim_sort Formatter_init items (Some example_registry) = Ok ret
    /\ dim_sort Formatter_init ret (Some example_registry) = Ok ret.
Proof.
  intros items.
  assert (Hnodup : NoDup (dim_order Formatter_init)).
  { apply (bool_decide_unpack _). vm_compute. exact I. }
  assert (Hlen : (2 <= length items)%nat) by (simpl; lia).
  assert (Hall : Forall (fun item =>
                           sortable Formatter_init example_registry item.1)
                        items).
  { unfold sortable, unresolved.
    apply (bool_decide_unpack _). vm_compute. exact I. }
  exact (dim_sort_idempotent Formatter_init example_registry items
           Hnodup Hlen Hall).
Defined.

Lemma siunitx_order_independent_witness :
  siunitx_format_unit [("second", (-2)%Q); ("kilometer", 1%Q)]
    example_registry
  = siunitx_format_unit [("kilometer", 1%Q); ("second", (-2)%Q)]
      example_registry.
Proof.
  apply (siunitx_order_independent
           [("second", (-2)%Q); ("kilometer", 1%Q)]
           [("kilometer", 1%Q); ("second", (-2)%Q)] example_registry).
  - repeat constructor; simpl; intuition discriminate.
  - apply perm_swap.
Defined.

(** ** Examples *)

Example str_format_auto :
  str_format "{} ** {}" ["meter"; "2"] = Ok "meter ** 2".
Proof. reflexivity. Qed.

Example str_format_manual : str_format "({0})" ["a * b"] = Ok "(a * b)".
Proof. reflexivity. Qed.

Example str_format_escaped_braces :
  str_format "{{{}}}^{{{}}}" ["a"; "b"] = Ok "{a}^{b}".
Proof. reflexivity. Qed.

Example str_format_out_of_range :
  exists msg, str_format "{}{}{}" ["a"; "b"] = Raise (IndexError msg).
Proof. eexists. reflexivity. Qed.

Example join_with_separator : _join " * " ["a"; "b"; "c"] = Ok "a * b * c".
Proof. reflexivity. Qed.

Example join_with_template :
  _join "\frac[{}][{}]" ["a"; "b"; "c"] = Ok "\frac[\frac[a][b]][c]".
Proof. reflexivity. Qed.

Example formatter_default :
  formatter render_integral no_babel_units [] Formatter_init
    [("meter", 1%Q); ("second", (-2)%Q)] (default_options render_integral)
  = Ok "meter / second ** 2".
Proof. reflexivity. Qed.

Example formatter_only_negative :
  formatter render_integral no_babel_units [] Formatter_init
    [("second", (-1)%Q)] (default_options render_integral)
  = Ok "1 / second".
Proof. reflexivity. Qed.

Example pretty_exponent :
  _pretty_fmt_exponent render_integral (-12)%Q = "⁻¹²".
Proof. reflexivity. Qed.

Example dim_sort_default_order :
  dim_sort Formatter_init [("second", (-1)%Q); ("meter", 1%Q)]
    (Some example_registry)
  = Ok [("meter", 1%Q); ("second", (-1)%Q)].
Proof. reflexivity. Qed.

Example dim_sort_time_first :
  dim_sort {| locale := None; mpl_formatter := None;
              dim_order := ["[time]"; "[length]"] |}
    [("meter", 1%Q); ("second", (-1)%Q)] (Some example_registry)
  = Ok [("second", (-1)%Q); ("meter", 1%Q)].
Proof. reflexivity. Qed.

Example split_format_siunitx :
  split_format string builtin_registry ".2fLx~" "P" (Some true)
  = ((".2f", "Lx~"), []).
Proof. reflexivity. Qed.

Example siunitx_prefix_and_powers :
  siunitx_format_unit
    [("kilometer", 2%Q); ("second", (-2)%Q); ("gram", (-5)%Q)]
    example_registry
  = "\kilo\meter\squared\per\gram\tothe{5}\per\second\squared".
Proof. reflexivity. Qed.

Example format_3f_ties_to_even : format_3f (1 # 16) = "0.062".
Proof. reflexivity. Qed.
